(** * capreolus: samplers, passage extractor, reranker weights, trainer

    A shallow embedding of
      - [capreolus/sampler/__init__.py]   (Sampler, TrainTripletSampler, PredSampler),
      - [capreolus/extractor/bertpassage.py] (BertPassage),
      - [capreolus/reranker/base.py]      (Reranker, KerasModel),
      - [capreolus/trainer/__init__.py]   (PytorchTrainer, TrecCheckpointCallback),
    followed by the properties of these functions.

    Conventions.  Python [dict]s whose iteration order matters are
    insertion-ordered association lists; dicts that are only looked up are
    [gmap]s.  A call that may raise returns an [outcome].  Python's global
    [random] state is an explicit [rng] value threaded through the callers. *)

From Stdlib Require Import QArith.
From stdpp Require Import gmap strings list fin_maps sorting.


(* ===================================================================== *)
(** ** Python runtime: exceptions, ordered dicts, ranges, slices, random  *)
(* ===================================================================== *)

Module Py.

(** The exceptions that the embedded code raises or lets through. *)
Inductive exn :=
| MissingDocError (qid docid : string)
| KeyError (k : string)
| IndexError
| ValueError
| ZeroDivisionError
| AssertionError
| RuntimeError (msg : string) (detail : gset string)
| IOError
| FileNotFoundError (name : string).

Inductive outcome (A : Type) :=
| Returned (a : A)
| Raised (e : exn).
Arguments Returned {A} a.
Arguments Raised {A} e.

Definition is_missing_doc (e : exn) : bool :=
  match e with MissingDocError _ _ => true | _ => false end.

(** [except IOError] (an alias of [OSError]) also catches
    [FileNotFoundError]. *)
Definition is_ioerror (e : exn) : bool :=
  match e with IOError | FileNotFoundError _ => true | _ => false end.

(** *** Insertion-ordered dict with string keys *)
Section dict.
Context {V : Type}.

Fixpoint dict_get (k : string) (d : list (string * V)) : option V :=
  match d with
  | [] => None
  | (k', v) :: d' => if decide (k' = k) then Some v else dict_get k d'
  end.

(** [del d[k]]: [None] stands for the KeyError on an absent key. *)
Fixpoint dict_del (k : string) (d : list (string * V)) : option (list (string * V)) :=
  match d with
  | [] => None
  | (k', v) :: d' =>
      if decide (k' = k) then Some d' else cons (k', v) <$> dict_del k d'
  end.

Definition dict_keys (d : list (string * V)) : list string := d.*1.
End dict.

(** *** [range(0, stop, step)] for a positive step; [step = 0] is a
    ValueError and is handled by the caller. *)
Fixpoint range_from (fuel start stop step : nat) : list nat :=
  match fuel with
  | 0 => []
  | S fuel' =>
      if decide (start < stop)
      then start :: range_from fuel' (start + step) stop step
      else []
  end.

Definition range0 (stop step : nat) : list nat := range_from stop 0 stop step.

(** *** [l[i : j]] for non-negative bounds *)
Definition slice {A} (l : list A) (i j : nat) : list A := take (j - i) (drop i l).

(** *** [" ".join(words)] *)
Fixpoint join (sep : string) (ws : list string) : string :=
  match ws with
  | [] => ""
  | [w] => w
  | w :: ws' => w +:+ sep +:+ join sep ws'
  end.

(** *** [needle in hay] on strings *)
Fixpoint contains (needle hay : string) : bool :=
  String.prefix needle hay ||
  match hay with
  | EmptyString => false
  | String _ hay' => contains needle hay'
  end.

(** *** The [random] module.
    The generator state is the sequence of raw draws still to come;
    [randbelow n] consumes one draw and reduces it below [n]. *)
Definition rng := list nat.

Definition randbelow (n : nat) (g : rng) : nat * rng :=
  match g with
  | [] => (0, [])
  | r :: g' => (r `mod` n, g')
  end.

(** [random.choice(seq)] is [seq[randbelow(len(seq))]]; an empty
    sequence is an IndexError. *)
Definition choice {A} (seq : list A) (g : rng) : outcome A * rng :=
  match seq with
  | [] => (Raised IndexError, g)
  | _ =>
      let '(j, g') := randbelow (length seq) g in
      match seq !! j with
      | Some x => (Returned x, g')
      | None => (Raised IndexError, g')
      end
  end.

(** [random.shuffle(x)]: for i from len-1 down to 1, swap x[i] with
    x[randbelow(i+1)]. *)
Fixpoint shuffle_loop {A} (i : nat) (x : list A) (g : rng) : list A * rng :=
  match i with
  | 0 => (x, g)
  | S i' =>
      let '(j, g') := randbelow (S i) g in
      match x !! i, x !! j with
      | Some xi, Some xj => shuffle_loop i' (<[i := xj]> (<[j := xi]> x)) g'
      | _, _ => shuffle_loop i' x g'
      end
  end.

Definition shuffle {A} (x : list A) (g : rng) : list A * rng :=
  shuffle_loop (length x - 1) x g.

(** [random.sample(population, k)]: k picks at distinct positions.  Each
    pick draws a position in the pool of elements not yet chosen and
    removes the element from the pool.  A negative k or k > len is a
    ValueError; here k is the result of a subtraction that the caller
    has already checked to be non-negative. *)
Fixpoint sample_loop {A} (k : nat) (pool : list A) (g : rng) : list A * rng :=
  match k with
  | 0 => ([], g)
  | S k' =>
      let '(j, g') := randbelow (length pool) g in
      match pool !! j with
      | Some x =>
          let '(rest, g'') := sample_loop k' (delete j pool) g' in
          (x :: rest, g'')
      | None => ([], g')
      end
  end.

Definition sample {A} (population : list A) (k : nat) (g : rng)
  : outcome (list A) * rng :=
  if decide (k ≤ length population)
  then let '(r, g') := sample_loop k population g in (Returned r, g')
  else (Raised ValueError, g).

End Py.
Import Py.

(* ===================================================================== *)
(** ** capreolus/sampler/__init__.py                                      *)
(* ===================================================================== *)

Module Sampler.

(** The extractor interface the samplers depend on: [id2vec(qid, posid,
    negid=None, label=None)]. *)
Class Extractor (Inst : Type) := {
  id2vec : string → string → option string → list Z → outcome Inst
}.

(** [logger.debug/warning/error] calls, kept as a trace. *)
Inductive log_record :=
| LogRemovingQid (qid : string) (posdocs negdocs : nat)
| LogSkippingTrainingPair (qid posid negid : string)
| LogNoneFeatures (qid docid : string).

Record sampler := {
  qid_to_docids : list (string * list string);
  qid_to_reldocs : list (string * list string);
  qid_to_negdocs : list (string * list string);
  total_samples : nat
}.

(** [qrels[qid].get(docid, 0)] *)
Definition grade (judged : gmap string Z) (docid : string) : Z :=
  default 0%Z (judged !! docid).

Definition reldocs_of (judged : gmap string Z) (relevance_level : Z)
    (docids : list string) : list string :=
  filter (λ docid, (relevance_level ≤ grade judged docid)%Z) docids.

Definition negdocs_of (judged : gmap string Z) (relevance_level : Z)
    (docids : list string) : list string :=
  filter (λ docid, (grade judged docid < relevance_level)%Z) docids.

(** [{qid: docids for qid, docids in qid_to_docids.items() if qid in qrels}] *)
Definition in_qrels (qrels : gmap string (gmap string Z))
    (qid_to_docids : list (string * list string)) : list (string * list string) :=
  filter (λ e, is_Some (qrels !! e.1)) qid_to_docids.

(** The two dict comprehensions over [self.qid_to_docids.items()];
    [qrels[qid]] is a KeyError when the query is not judged. *)
Fixpoint comprehension (qrels : gmap string (gmap string Z))
    (f : gmap string Z → list string → list string)
    (items : list (string * list string)) : outcome (list (string * list string)) :=
  match items with
  | [] => Returned []
  | (qid, docids) :: items' =>
      match qrels !! qid with
      | None => Raised (KeyError qid)
      | Some judged =>
          match comprehension qrels f items' with
          | Returned d => Returned ((qid, f judged docids) :: d)
          | Raised e => Raised e
          end
      end
  end.

(** The loop of [Sampler.clean] over [list(self.qid_to_docids.keys())]. *)
Fixpoint clean_loop (keys : list string) (s : sampler) (total : nat)
    (log : list log_record) : outcome (sampler * nat * list log_record) :=
  match keys with
  | [] => Returned (s, total, log)
  | qid :: keys' =>
      match dict_get qid (qid_to_reldocs s), dict_get qid (qid_to_negdocs s) with
      | Some rs, Some ns =>
          let posdocs := length rs in
          let negdocs := length ns in
          let total := total + posdocs * negdocs in
          if (posdocs =? 0) || (negdocs =? 0) then
            match dict_del qid (qid_to_reldocs s),
                  dict_del qid (qid_to_docids s),
                  dict_del qid (qid_to_negdocs s) with
            | Some r', Some d', Some n' =>
                clean_loop keys'
                  {| qid_to_docids := d'; qid_to_reldocs := r';
                     qid_to_negdocs := n'; total_samples := total_samples s |}
                  total (log ++ [LogRemovingQid qid posdocs negdocs])
            | _, _, _ => Raised (KeyError qid)
            end
          else clean_loop keys' s total log
      | _, _ => Raised (KeyError qid)
      end
  end.

Definition clean (s : sampler) : outcome (sampler * list log_record) :=
  match clean_loop (dict_keys (qid_to_docids s)) s 1 [] with
  | Returned (s', total, log) =>
      Returned ({| qid_to_docids := qid_to_docids s';
                   qid_to_reldocs := qid_to_reldocs s';
                   qid_to_negdocs := qid_to_negdocs s';
                   total_samples := total |}, log)
  | Raised e => Raised e
  end.

Definition prepare (qid_to_docids0 : list (string * list string))
    (qrels : gmap string (gmap string Z)) (relevance_level : Z)
    : outcome (sampler * list log_record) :=
  let docids := in_qrels qrels qid_to_docids0 in
  match comprehension qrels (λ j, reldocs_of j relevance_level) docids,
        comprehension qrels (λ j, negdocs_of j relevance_level) docids with
  | Returned rel, Returned neg =>
      clean {| qid_to_docids := docids; qid_to_reldocs := rel;
               qid_to_negdocs := neg; total_samples := 0 |}
  | Raised e, _ => Raised e
  | _, Raised e => Raised e
  end.

Definition get_total_samples (s : sampler) : nat := total_samples s.

(** What a generator has done when it stops or is suspended: the
    instances it has yielded, the log lines it wrote, and the exception
    that ended it, if any. *)
Record generated (Inst : Type) := {
  yielded : list Inst;
  logged : list log_record;
  raised : option exn
}.
Arguments yielded {Inst} _.
Arguments logged {Inst} _.
Arguments raised {Inst} _.

Definition gen_start {Inst} : generated Inst :=
  {| yielded := []; logged := []; raised := None |}.
Definition gen_yield {Inst} (acc : generated Inst) (inst : Inst) : generated Inst :=
  {| yielded := yielded acc ++ [inst]; logged := logged acc; raised := raised acc |}.
Definition gen_log {Inst} (acc : generated Inst) (r : log_record) : generated Inst :=
  {| yielded := yielded acc; logged := logged acc ++ [r]; raised := raised acc |}.
Definition gen_raise {Inst} (acc : generated Inst) (e : exn) : generated Inst :=
  {| yielded := yielded acc; logged := logged acc; raised := Some e |}.

(** [sorted(...)] on query ids. *)
Definition sorted_qids (qids : list string) : list string :=
  merge_sort (λ a b, Is_true (String.leb a b)) qids.

Section samplers.
Context {Inst : Type} {X : Extractor Inst}.

(** *** PredSampler.generate_samples *)

(** The inner loop, [for docid in docids], with its try/except. *)
Fixpoint pred_docs (s : sampler) (qid : string) (docids : list string)
    (acc : generated Inst) : generated Inst :=
  match docids with
  | [] => acc
  | docid :: docids' =>
      match dict_get qid (qid_to_reldocs s) with
      | None => gen_raise acc (KeyError qid)
      | Some rel =>
          let label := if decide (docid ∈ rel) then [0; 1]%Z else [1; 0]%Z in
          match id2vec qid docid None label with
          | Returned inst => pred_docs s qid docids' (gen_yield acc inst)
          | Raised e =>
              if is_missing_doc e
              then gen_raise (gen_log acc (LogNoneFeatures qid docid)) e
              else gen_raise acc e
          end
      end
  end.

(** The outer loop, [for qid, docids in self.qid_to_docids.items()]. *)
Fixpoint pred_items (s : sampler) (items : list (string * list string))
    (acc : generated Inst) : generated Inst :=
  match items with
  | [] => acc
  | (qid, docids) :: items' =>
      let acc' := pred_docs s qid docids acc in
      match raised acc' with
      | Some _ => acc'
      | None => pred_items s items' acc'
      end
  end.

Definition pred_generate_samples (s : sampler) : generated Inst :=
  pred_items s (qid_to_docids s) gen_start.

(** [get_qid_docid_pairs] *)
Definition get_qid_docid_pairs (s : sampler) : list (string * string) :=
  flat_map (λ e, pair e.1 <$> e.2) (qid_to_docids s).

(** *** TrainTripletSampler.generate_samples *)

(** [random.choice(d[qid])] *)
Definition choose (d : list (string * list string)) (qid : string) (g : rng)
    : outcome string * rng :=
  match dict_get qid d with
  | None => (Raised (KeyError qid), g)
  | Some docs => choice docs g
  end.

(** One pass of [for qid in all_qids]. *)
Fixpoint triplet_qids (s : sampler) (qids : list string) (g : rng)
    (acc : generated Inst) : generated Inst * rng :=
  match qids with
  | [] => (acc, g)
  | qid :: qids' =>
      match choose (qid_to_reldocs s) qid g with
      | (Raised e, g1) => (gen_raise acc e, g1)
      | (Returned posdocid, g1) =>
          match choose (qid_to_negdocs s) qid g1 with
          | (Raised e, g2) => (gen_raise acc e, g2)
          | (Returned negdocid, g2) =>
              match id2vec qid posdocid (Some negdocid) [1; 0]%Z with
              | Returned inst => triplet_qids s qids' g2 (gen_yield acc inst)
              | Raised e =>
                  if is_missing_doc e
                  then triplet_qids s qids' g2
                         (gen_log acc (LogSkippingTrainingPair qid posdocid negdocid))
                  else (gen_raise acc e, g2)
              end
          end
      end
  end.

(** [rounds] passes of the body of [while True]: shuffle, then the
    loop over the queries. *)
Fixpoint triplet_rounds (s : sampler) (rounds : nat) (all_qids : list string)
    (g : rng) (acc : generated Inst) : generated Inst * rng :=
  match rounds with
  | 0 => (acc, g)
  | S rounds' =>
      let '(all_qids', g1) := shuffle all_qids g in
      let '(acc', g2) := triplet_qids s all_qids' g1 acc in
      match raised acc' with
      | Some _ => (acc', g2)
      | None => triplet_rounds s rounds' all_qids' g2 acc'
      end
  end.

(** The generator, observed after [rounds] passes of its endless
    loop; [seeded] is the state left by [random.seed(config["seed"])]. *)
Definition triplet_generate_samples (s : sampler) (seeded : rng) (rounds : nat)
    : generated Inst * rng :=
  let all_qids := sorted_qids (dict_keys (qid_to_reldocs s)) in
  if decide (length all_qids = 0)
  then (gen_raise gen_start (RuntimeError "TrainDataset has no valid qids" ∅), seeded)
  else triplet_rounds s rounds all_qids seeded gen_start.

End samplers.

End Sampler.

(* ===================================================================== *)
(** ** capreolus/extractor/bertpassage.py                                 *)
(* ===================================================================== *)

Module BertPassage.

(** [config_spec]; the counts and lengths are non-negative integers. *)
Record config := {
  maxseqlen : nat;
  passagelen : nat;
  stride : nat;
  numpassages : nat
}.

Definition default_config : config :=
  {| maxseqlen := 256; passagelen := 150; stride := 100; numpassages := 16 |}.

Definition pad_tok : string := "[PAD]".

(** Modelled from the spec: [capreolus.utils.common.padlist], which is
    not among the sources; the sequence is right-padded to [padlen]
    with [pad_token]. *)
Definition padlist {A} (list_to_pad : list A) (padlen : nat) (pad_token : A) : list A :=
  list_to_pad ++ replicate (padlen - length list_to_pad) pad_token.

(** The dict that [id2vec] returns; an array is the list of its rows. *)
Record data := {
  posdocid : string;
  posdoc : list (list Z);
  posdoc_mask : list (list Z);
  posdoc_seg : list (list Z);
  negdocid : string;
  negdoc : list (list Z);
  negdoc_mask : list (list Z);
  negdoc_seg : list (list Z);
  label : list (list Z)
}.

(** [np.zeros((rows, cols))] *)
Definition np_zeros (rows cols : nat) : list (list Z) :=
  replicate rows (replicate cols 0%Z).

(** [a.shape == (rows, cols)] *)
Definition has_shape (a : list (list Z)) (rows cols : nat) : Prop :=
  length a = rows ∧ Forall (λ row, length row = cols) a.

(** [sum(row)] *)
Definition sumZ (row : list Z) : Z := foldr Z.add 0%Z row.

(** The extractor object: its configuration and the state built by
    [_build_vocab]. *)
Record extractor := {
  cfg : config;
  qid2toks : gmap string (list string);
  docid2passages : gmap string (list (list string))
}.

Section tokenizer.
(** [self.tokenizer.tokenize] and the vocabulary lookup behind
    [tokenizer.convert_tokens_to_ids]. *)
Variable tokenize : string → list string.
Variable token_id : string → Z.

Definition convert_tokens_to_ids (toks : list string) : list Z := token_id <$> toks.

(** *** get_passages_for_doc *)

(** The loop [for i in range(0, len(doc), stride)]. *)
Fixpoint passages_loop (c : config) (doc : list string) (idxs : list nat)
    (passages : list (list string)) : outcome (list (list string)) :=
  match idxs with
  | [] => Returned passages
  | i :: idxs' =>
      if decide (length doc ≤ i) then
        if decide (0 < length passages)
        then Returned passages
        else Raised AssertionError
      else
        let passage := slice doc i (i + passagelen c) in
        passages_loop c doc idxs' (passages ++ [tokenize (join " " passage)])
  end.

(** [[passages[0]] + random.sample(passages[1:-1], numpassages - 2) +
    [passages[-1]]]; with [numpassages < 2] the sample size is negative,
    which [random.sample] rejects with a ValueError. *)
Definition keep_first_last (c : config) (passages : list (list string)) (g : rng)
    : outcome (list (list string)) * rng :=
  match head passages with
  | None => (Raised IndexError, g)
  | Some first =>
      if decide (numpassages c < 2) then (Raised ValueError, g)
      else
        match sample (slice passages 1 (length passages - 1)) (numpassages c - 2) g with
        | (Raised e, g') => (Raised e, g')
        | (Returned middle, g') =>
            match last passages with
            | None => (Raised IndexError, g')
            | Some final => (Returned ([first] ++ middle ++ [final]), g')
            end
        end
  end.

Definition get_passages_for_doc (c : config) (doc : list string) (g : rng)
    : outcome (list (list string)) * rng :=
  if decide (stride c = 0) then (Raised ValueError, g)
  else
    match passages_loop c doc (range0 (length doc) (stride c)) [] with
    | Raised e => (Raised e, g)
    | Returned passages =>
        let n_actual_passages := length passages in
        let '(chosen, g') :=
          if decide (numpassages c < n_actual_passages)
          then keep_first_last c passages g
          else (Returned (passages ++
                  replicate (numpassages c - n_actual_passages) [pad_tok]), g) in
        match chosen with
        | Raised e => (Raised e, g')
        | Returned passages' =>
            if decide (length passages' = numpassages c)
            then (Returned passages', g')
            else (Raised AssertionError, g')
        end
    end.

(** *** _build_vocab: the loop over the documents; [get_doc] is
    [self.index.get_doc(docid).split()]. *)
Fixpoint build_passages (c : config) (get_doc : string → list string)
    (docids : list string) (acc : gmap string (list (list string))) (g : rng)
    : outcome (gmap string (list (list string))) * rng :=
  match docids with
  | [] => (Returned acc, g)
  | docid :: docids' =>
      match get_passages_for_doc c (get_doc docid) g with
      | (Raised e, g') => (Raised e, g')
      | (Returned passages, g') =>
          build_passages c get_doc docids' (<[docid := passages]> acc) g'
      end
  end.

(** *** id2vec *)

(** The line built for one passage, before padding. *)
Definition raw_input_line (query_toks tokenized_passage : list string) : list string :=
  ["[CLS]"] ++ query_toks ++ ["[SEP]"] ++ tokenized_passage ++ ["[SEP]"].

(** [input_line = input_line[:maxseqlen]; input_line[-1] = "[SEP]"] *)
Definition truncate_line (c : config) (input_line : list string)
    : outcome (list string) :=
  if decide (maxseqlen c < length input_line) then
    let cut := take (maxseqlen c) input_line in
    match cut with
    | [] => Raised IndexError
    | _ => Returned (<[length cut - 1 := "[SEP]"]> cut)
    end
  else Returned input_line.

(** The body of the loop over the passages of one document: the token
    ids, the mask and the segment ids of one passage. *)
Definition encode_passage (c : config) (query_toks tokenized_passage : list string)
    : outcome (list Z * list Z * list Z) :=
  match truncate_line c (raw_input_line query_toks tokenized_passage) with
  | Raised e => Raised e
  | Returned input_line =>
      let padded_input_line := padlist input_line (maxseqlen c) pad_tok in
      let mask := replicate (length input_line) 1%Z ++
                  replicate (length padded_input_line - length input_line) 0%Z in
      let seg := replicate (length query_toks + 2) 0%Z ++
                 replicate (length padded_input_line - length query_toks - 2) 1%Z in
      Returned (convert_tokens_to_ids padded_input_line, mask, seg)
  end.

(** The three lists filled by the loop, in the order inputs, masks,
    segs. *)
Fixpoint encode_passages (c : config) (query_toks : list string)
    (passages : list (list string))
    : outcome (list (list Z) * list (list Z) * list (list Z)) :=
  match passages with
  | [] => Returned ([], [], [])
  | p :: passages' =>
      match encode_passage c query_toks p with
      | Raised e => Raised e
      | Returned (inp, mask, seg) =>
          match encode_passages c query_toks passages' with
          | Raised e => Raised e
          | Returned (inps, masks, segs) =>
              Returned (inp :: inps, mask :: masks, seg :: segs)
          end
      end
  end.

(** Python truthiness of [negid]: [None] and the empty string are
    false. *)
Definition truthy (negid : option string) : option string :=
  match negid with
  | Some s => if decide (s = "") then None else Some s
  | None => None
  end.

Definition id2vec (x : extractor) (qid posid : string) (negid : option string)
    (lbl : option (list Z)) : outcome data :=
  match lbl with
  | None => Raised AssertionError
  | Some lbl =>
  let c := cfg x in
  match qid2toks x !! qid with
  | None => Raised (KeyError qid)
  | Some query_toks =>
  match docid2passages x !! posid with
  | None => Raised (KeyError posid)
  | Some pos_passages =>
  match encode_passages c query_toks pos_passages with
  | Raised e => Raised e
  | Returned (pos_bert_inputs, pos_bert_masks, pos_bert_segs) =>
      let d := {| posdocid := posid;
                  posdoc := pos_bert_inputs;
                  posdoc_mask := pos_bert_masks;
                  posdoc_seg := pos_bert_segs;
                  negdocid := "";
                  negdoc := np_zeros (numpassages c) (maxseqlen c);
                  negdoc_mask := np_zeros (numpassages c) (maxseqlen c);
                  negdoc_seg := np_zeros (numpassages c) (maxseqlen c);
                  label := replicate (numpassages c) lbl |} in
      match truthy negid with
      | None => Returned d
      | Some negid =>
          match docid2passages x !! negid with
          | None => Raised (KeyError negid)
          | Some neg_passages =>
              match encode_passages c query_toks neg_passages with
              | Raised e => Raised e
              | Returned (neg_bert_inputs, neg_bert_masks, neg_bert_segs) =>
                  match neg_bert_inputs with
                  | [] => Raised (MissingDocError qid negid)
                  | _ =>
                      Returned {| posdocid := posdocid d;
                                  posdoc := posdoc d;
                                  posdoc_mask := posdoc_mask d;
                                  posdoc_seg := posdoc_seg d;
                                  negdocid := negid;
                                  negdoc := neg_bert_inputs;
                                  negdoc_mask := neg_bert_masks;
                                  negdoc_seg := neg_bert_segs;
                                  label := label d |}
                  end
              end
          end
      end
  end end end end.

(** BertPassage is one of the extractors a sampler can be given. *)
#[export] Instance bertpassage_extractor (x : extractor) : Sampler.Extractor data :=
  {| Sampler.id2vec qid posid negid lbl := id2vec x qid posid negid (Some lbl) |}.

End tokenizer.

End BertPassage.

(* ===================================================================== *)
(** ** capreolus/reranker/base.py                                         *)
(* ===================================================================== *)

Module Reranker.

(** The files a training run writes weights to: [weights/<niter>.p] and
    [dev.best].  The optimizer file of a weights file [fn] is
    [fn + ".optimizer"], so it is addressed by [fn] as well. *)
Inductive path :=
| IterWeights (niter : Z)
| DevBest.

#[export] Instance path_eq_dec : EqDecision path.
Proof. solve_decision. Defined.

(** [k] is persisted: neither ["embedding.weight"] nor ["_nosave_"]
    occurs in it. *)
Definition persisted_key (k : string) : bool :=
  negb (contains "embedding.weight" k) && negb (contains "_nosave_" k).

Section weights.
(** Tensors and the optimizer's state dict are opaque values. *)
Context {tensor opt_state : Type}.

(** The reranker's model and optimizer together with the weight files
    on disk. *)
Record world := {
  state_dict : gmap string tensor;
  optimizer : opt_state;
  weight_files : path → option (gmap string tensor);
  optimizer_files : path → option opt_state
}.

Definition write_file {A} (files : path → option A) (fn : path) (content : A)
    : path → option A :=
  λ fn', if decide (fn' = fn) then Some content else files fn'.

(** [model.load_state_dict(d, strict=False)]: every parameter of the
    model that [d] has is overwritten, the others keep their value, and
    entries of [d] the model does not have are ignored. *)
Definition load_state_dict (d m : gmap string tensor) : gmap string tensor :=
  map_imap (λ k v, Some (default v (d !! k))) m.

Definition save_weights (weights_fn : path) (w : world) : world :=
  let d := filter (λ kv, Is_true (persisted_key kv.1)) (state_dict w) in
  {| state_dict := state_dict w;
     optimizer := optimizer w;
     weight_files := write_file (weight_files w) weights_fn d;
     optimizer_files := write_file (optimizer_files w) weights_fn (optimizer w) |}.

(** [cur_keys - set(d.keys())] *)
Definition missing_keys (m d : gmap string tensor) : gset string :=
  filter (λ k, Is_true (persisted_key k)) (dom m) ∖ dom d.

(** The exception, if any, and the world the call leaves behind. *)
Definition load_weights (weights_fn : path) (w : world) : option exn * world :=
  match weight_files w weights_fn with
  | None => (Some (FileNotFoundError "weights"), w)
  | Some d =>
      let missing := missing_keys (state_dict w) d in
      if decide (0 < size missing) then
        (Some (RuntimeError
                 "loading state_dict with keys that do not match current model"
                 missing), w)
      else
        let w1 := {| state_dict := load_state_dict d (state_dict w);
                     optimizer := optimizer w;
                     weight_files := weight_files w;
                     optimizer_files := optimizer_files w |} in
        match optimizer_files w weights_fn with
        | None => (Some (FileNotFoundError "optimizer"), w1)
        | Some o =>
            (None, {| state_dict := state_dict w1;
                      optimizer := o;
                      weight_files := weight_files w;
                      optimizer_files := optimizer_files w |})
        end
  end.

End weights.
Arguments world : clear implicits.

(** *** KerasModel.call *)

(** [tf.math.count_nonzero] *)
Definition count_nonzero (t : list (list Z)) : nat :=
  length (filter (λ v, v ≠ 0%Z) (concat t)).

Inductive scores (S : Type) :=
| PosOnly (pos_score : S)
| PosAndNeg (pos_score neg_score : S).
Arguments PosOnly {S} _.
Arguments PosAndNeg {S} _ _.

Section keras.
Context {Query Extra S : Type}.
(** [self.model], applied to (doc, query) + additional. *)
Variable model : list (list Z) → Query → list Extra → S.

Definition score_pos (posdoc : list (list Z)) (query : Query) (additional : list Extra)
    : scores S :=
  PosOnly (model posdoc query additional).

Definition score_pos_and_neg (posdoc negdoc : list (list Z)) (query : Query)
    (additional : list Extra) : scores S :=
  PosAndNeg (model posdoc query additional) (model negdoc query additional).

(** [x = (posdoc, negdoc, query, *additional)] *)
Definition call (posdoc negdoc : list (list Z)) (query : Query)
    (additional : list Extra) : scores S :=
  if decide (count_nonzero negdoc = 0)
  then score_pos posdoc query additional
  else score_pos_and_neg posdoc negdoc query additional.
End keras.

End Reranker.

(* ===================================================================== *)
(** ** capreolus/trainer/__init__.py                                      *)
(* ===================================================================== *)

Module Trainer.
Import Reranker.

(** Python floats, as far as the trainer looks at them: they are
    compared, and [-np.inf] is the initial best metric. *)
Inductive float :=
| NegInf
| Finite (q : Q)
| PosInf
| NaN.

(** [a > b] *)
Definition float_gt (a b : float) : bool :=
  match a, b with
  | NaN, _ | _, NaN => false
  | NegInf, _ => false
  | _, PosInf => false
  | Finite _, NegInf | PosInf, NegInf | PosInf, Finite _ => true
  | Finite x, Finite y => negb (Qle_bool x y)
  end.

(** A whitespace-separated field of a line of loss.txt, by what [int()]
    and [float()] make of it. *)
Inductive field :=
| IntText (z : Z)
| FloatText (x : float)
| OtherText (s : string).

Definition py_int (f : field) : outcome Z :=
  match f with
  | IntText z => Returned z
  | _ => Raised ValueError
  end.

Definition py_float (f : field) : outcome float :=
  match f with
  | IntText z => Returned (Finite (inject_Z z))
  | FloatText x => Returned x
  | OtherText _ => Raised ValueError
  end.

(** *** load_loss_file
    A line is the list of its fields, [line.split()]; a line that is
    empty after [strip()] has none. *)
Fixpoint load_loss_lines (lineidx : Z) (lines : list (list field)) (loss : list float)
    : outcome (list float) :=
  match lines with
  | [] => Returned loss
  | line :: lines' =>
      match line with
      | [] => load_loss_lines (lineidx + 1) lines' loss
      | [iteridx; iterloss] =>
          match py_int iteridx with
          | Raised e => Raised e
          | Returned n =>
              if decide (n ≠ lineidx) then Raised IOError
              else
                match py_float iterloss with
                | Raised e => Raised e
                | Returned x => load_loss_lines (lineidx + 1) lines' (loss ++ [x])
                end
          end
      | _ => Raised ValueError
      end
  end.

Definition load_loss_file (fn : option (list (list field))) : outcome (list float) :=
  match fn with
  | None => Raised (FileNotFoundError "loss.txt")
  | Some lines => load_loss_lines 0 lines []
  end.

(** [loss_fn.write_text("\n".join(f"{idx} {loss}" for idx, loss in
    enumerate(train_loss)))] *)
Definition loss_text (train_loss : list float) : list (list field) :=
  imap (λ idx loss, [IntText (Z.of_nat idx); FloatText loss]) train_loss.

Section trainer.
Context {tensor opt_state : Type}.

(** What the trainer works on: the reranker's world, whether the weights
    directory exists, and loss.txt when it exists. *)
Record disk := {
  rr : world tensor opt_state;
  weights_path_exists : bool;
  loss_fn : option (list (list field))
}.

Definition with_rr (d : disk) (w : world tensor opt_state) : disk :=
  {| rr := w; weights_path_exists := weights_path_exists d; loss_fn := loss_fn d |}.

(** *** PytorchTrainer.fastforward_training *)
Definition fastforward_training (d : disk) : outcome Z * disk :=
  if negb (weights_path_exists d && bool_decide (is_Some (loss_fn d)))
  then (Returned 0%Z, d)
  else
    match load_loss_file (loss_fn d) with
    | Raised e => if is_ioerror e then (Returned 0%Z, d) else (Raised e, d)
    | Returned loss =>
        let last_loss_iteration := (Z.of_nat (length loss) - 1)%Z in
        let weights_fn := IterWeights last_loss_iteration in
        match load_weights weights_fn (rr d) with
        | (None, w') => (Returned (last_loss_iteration + 1)%Z, with_rr d w')
        | (Some _, w') => (Returned 0%Z, with_rr d w')
        end
    end.

(** *** PytorchTrainer.train, from [dev_best_metric = -np.inf] on *)

(** The trainer's configuration and its collaborators:
    [single_train_iteration] updates model and optimizer and returns
    the mean loss; [dev_metric] is [predict] followed by
    [evaluator.eval_runs(...)[metric]] on the current model.  Either
    can raise (the training generator on a sampler without queries,
    [torch.stack] on an iteration without batches, the prediction
    generator on a missing document); [train] has no handler, so the
    exception leaves it.  [skip_iterations n] is the loop that, on
    resuming, draws the batches of the [n] iterations already done from
    the data loader and drops them: it touches neither the model nor
    the files, and the field gives the exception it raises, if any. *)
Record setup := {
  niters : Z;
  validatefreq : Z;
  fastforward : bool;
  single_train_iteration :
    gmap string tensor → opt_state → outcome (float * gmap string tensor * opt_state);
  dev_metric : gmap string tensor → outcome float;
  skip_iterations : Z → option exn
}.

(** One pass of the body of [for niter in range(initial_iter, niters)].
    [dev_best_metric] is read here and assigned nowhere in the loop. *)
Definition train_iteration (t : setup) (dev_best_metric : float) (niter : Z)
    (d : disk) (train_loss : list float) : outcome (disk * list float) :=
  match single_train_iteration t (state_dict (rr d)) (optimizer (rr d)) with
  | Raised e => Raised e
  | Returned (iter_loss, m, o) =>
      let w := {| state_dict := m; optimizer := o;
                  weight_files := weight_files (rr d);
                  optimizer_files := optimizer_files (rr d) |} in
      let train_loss := train_loss ++ [iter_loss] in
      let w := save_weights (IterWeights niter) w in
      if decide (validatefreq t = 0%Z) then Raised ZeroDivisionError
      else if decide ((niter `mod` validatefreq t)%Z = 0%Z) then
        match dev_metric t (state_dict w) with
        | Raised e => Raised e
        | Returned metric =>
            let w := if float_gt metric dev_best_metric
                     then save_weights DevBest w else w in
            Returned ({| rr := w; weights_path_exists := true;
                         loss_fn := Some (loss_text train_loss) |}, train_loss)
        end
      else
        Returned ({| rr := w; weights_path_exists := true;
                     loss_fn := Some (loss_text train_loss) |}, train_loss)
  end.

Fixpoint train_loop (t : setup) (dev_best_metric : float) (iters : list Z)
    (d : disk) (train_loss : list float) : outcome (disk * list float) :=
  match iters with
  | [] => Returned (d, train_loss)
  | niter :: iters' =>
      match train_iteration t dev_best_metric niter d train_loss with
      | Raised e => Raised e
      | Returned (d', train_loss') => train_loop t dev_best_metric iters' d' train_loss'
      end
  end.

(** [get_paths_for_early_stopping] creates the weights directory before
    anything else looks at it.  When training resumes before the last
    iteration, the batches of the iterations already done are drawn
    from the data loader and dropped. *)
Definition train (t : setup) (d : disk) : outcome (disk * list float) :=
  let d := {| rr := rr d; weights_path_exists := true; loss_fn := loss_fn d |} in
  let '(initial_iter, d) :=
    if fastforward t then fastforward_training d else (Returned 0%Z, d) in
  match initial_iter with
  | Raised e => Raised e
  | Returned initial_iter =>
      let train_loss :=
        if decide (0 < initial_iter)%Z then
          match load_loss_file (loss_fn d) with
          | Raised e => Raised e
          | Returned train_loss =>
              if decide (initial_iter < niters t)%Z then
                match skip_iterations t initial_iter with
                | Some e => Raised e
                | None => Returned train_loss
                end
              else Returned train_loss
          end
        else Returned [] in
      match train_loss with
      | Raised e => Raised e
      | Returned train_loss =>
          let dev_best_metric := NegInf in
          train_loop t dev_best_metric
            (seqZ initial_iter (niters t - initial_iter)) d train_loss
      end
  end.

End trainer.
Arguments disk : clear implicits.
Arguments setup : clear implicits.

(** *** TrecCheckpointCallback
    The callback's own state is [best_metric]; [dev_best] is the file
    written by [save_model]. *)
Section callback.
Context {weights : Type}.

Record callback := {
  best_metric : float;
  dev_best : option weights
}.

(** [__init__] *)
Definition callback_init : callback :=
  {| best_metric := NegInf; dev_best := None |}.

(** [on_epoch_end], given the model's current weights and the
    [ndcg_cut_20] of its predictions on the dev records. *)
Definition on_epoch_end (cb : callback) (model_weights : weights) (ndcg_cut_20 : float)
    : callback :=
  if float_gt ndcg_cut_20 (best_metric cb)
  then {| best_metric := ndcg_cut_20; dev_best := Some model_weights |}
  else cb.

End callback.
Arguments callback : clear implicits.

End Trainer.

(* ===================================================================== *)
(** ** What the sampler is expected to hold after [prepare]               *)
(* ===================================================================== *)

Module SamplerSpec.
Import Sampler.

(** [qrels[qid]] for a judged query. *)
Definition judged (qrels : gmap string (gmap string Z)) (qid : string) : gmap string Z :=
  default ∅ (qrels !! qid).

Definition rel_entry (qrels : gmap string (gmap string Z)) (lvl : Z)
    (e : string * list string) : list string :=
  reldocs_of (judged qrels e.1) lvl e.2.

Definition neg_entry (qrels : gmap string (gmap string Z)) (lvl : Z)
    (e : string * list string) : list string :=
  negdocs_of (judged qrels e.1) lvl e.2.

(** The relevant and the non-relevant mapping built from a candidate
    mapping by [fr] and [fn], and the entries that have both kinds. *)
Section sides.
Variables fr fn : string * list string → list string.

Definition rel_side (l : list (string * list string)) : list (string * list string) :=
  (λ e, (e.1, fr e)) <$> l.
Definition neg_side (l : list (string * list string)) : list (string * list string) :=
  (λ e, (e.1, fn e)) <$> l.
Definition both_sides (e : string * list string) : Prop := fr e ≠ [] ∧ fn e ≠ [].

#[export] Instance both_sides_dec e : Decision (both_sides e).
Proof. unfold both_sides. apply _. Defined.
End sides.

(** A query survives the cleaning pass when it has a relevant and a
    non-relevant candidate. *)
Definition keeps (qrels : gmap string (gmap string Z)) (lvl : Z)
    (e : string * list string) : Prop :=
  both_sides (rel_entry qrels lvl) (neg_entry qrels lvl) e.

#[export] Instance keeps_dec qrels lvl e : Decision (keeps qrels lvl e).
Proof. unfold keeps. apply _. Defined.

(** The candidate lists that survive [prepare]: the query is judged and
    passes the cleaning. *)
Definition retained (pool : list (string * list string))
    (qrels : gmap string (gmap string Z)) (lvl : Z) : list (string * list string) :=
  filter (keeps qrels lvl) (in_qrels qrels pool).

(** Every (query, doc) occurrence of a candidate mapping, in order. *)
Definition pairs_of (d : list (string * list string)) : list (string * string) :=
  flat_map (λ e, pair e.1 <$> e.2) d.

(** The label of a prediction instance. *)
Definition pred_label (rel : list string) (docid : string) : list Z :=
  if decide (docid ∈ rel) then [0; 1]%Z else [1; 0]%Z.

(** The relevant set the sampler holds for a query. *)
Definition relevant_set (s : sampler) (qid : string) : list string :=
  default [] (dict_get qid (qid_to_reldocs s)).

(** [inst] is the instance the extractor returns for the candidate
    pair [p], requested with the label of its relevance. *)
Definition emitted_for {Inst} {X : Extractor Inst} (s : sampler) (inst : Inst)
    (p : string * string) : Prop :=
  id2vec p.1 p.2 None (pred_label (relevant_set s p.1) p.2) = Returned inst.

(** Σ over the queries of |relevant| × |non-relevant|, the two mappings
    read side by side. *)
Definition triple_count (rel neg : list (string * list string)) : nat :=
  sum_list (zip_with (λ r n, length r.2 * length n.2) rel neg).

End SamplerSpec.

(* ===================================================================== *)
(** ** What the extractor is expected to produce                          *)
(* ===================================================================== *)

Module BertPassageSpec.
Import BertPassage.

Section tokenizer.
Variable tokenize : string → list string.
Variable token_id : string → Z.

(** The passage of the window that starts at word [i]. *)
Definition window (c : config) (doc : list string) (i : nat) : list string :=
  tokenize (join " " (slice doc i (i + passagelen c))).

(** The real passages of a document, one per window start. *)
Definition real_passages (c : config) (doc : list string) : list (list string) :=
  window c doc <$> range0 (length doc) (stride c).

(** [passages[1:-1]] *)
Definition interior {A} (l : list A) : list A := slice l 1 (length l - 1).

(** The line of a passage as it enters the tensors: cut to [maxseqlen]
    with a final [SEP] when it is too long. *)
Definition final_line (c : config) (query_toks passage : list string) : list string :=
  let raw := raw_input_line query_toks passage in
  if decide (maxseqlen c < length raw)
  then take (maxseqlen c - 1) raw ++ ["[SEP]"]
  else raw.

Definition ids_row (c : config) (query_toks passage : list string) : list Z :=
  let line := final_line c query_toks passage in
  token_id <$> (line ++ replicate (maxseqlen c - length line) pad_tok).

Definition mask_row (c : config) (query_toks passage : list string) : list Z :=
  let k := length (raw_input_line query_toks passage) `min` maxseqlen c in
  replicate k 1%Z ++ replicate (maxseqlen c - k) 0%Z.

Definition seg_row (c : config) (query_toks : list string) : list Z :=
  replicate (length query_toks + 2) 0%Z ++
  replicate (maxseqlen c - length query_toks - 2) 1%Z.

End tokenizer.

End BertPassageSpec.

(* ===================================================================== *)
(** ** Well-formed loss histories                                         *)
(* ===================================================================== *)

Module TrainerSpec.
Import Trainer.

(** Lines numbered 0, 1, 2, ... without a gap, each with its index and
    one more field. *)
Definition indexed_lines (flds : list field) : list (list field) :=
  imap (λ idx fld, [IntText (Z.of_nat idx); fld]) flds.

(** [fld] reads as the loss [x]. *)
Definition reads_as (fld : field) (x : float) : Prop := py_float fld = Returned x.

End TrainerSpec.

(* ===================================================================== *)
(** ** Concrete inputs                                                    *)
(* ===================================================================== *)

Module Examples.
Import Sampler.

(** An extractor that has features for every document: the instance
    records the request. *)
Definition echo : Extractor (string * string * option string * list Z) :=
  {| id2vec qid posid negid lbl := Returned (qid, posid, negid, lbl) |}.

(** An extractor without features for the document [gone]. *)
Definition lacking (gone : string) : Extractor (string * string * option string * list Z) :=
  {| id2vec qid posid negid lbl :=
       if decide (posid = gone) then Raised (MissingDocError qid posid)
       else if decide (negid = Some gone) then Raised (MissingDocError qid gone)
       else Returned (qid, posid, negid, lbl) |}.

(** Three queries: q1 has a relevant and a non-relevant candidate, q2
    has only a relevant one, q3 is not judged. *)
Definition pool1 : list (string * list string) :=
  [("q1", ["d1"; "d2"]); ("q2", ["d1"]); ("q3", ["d3"])].

Definition qrels1 : gmap string (gmap string Z) :=
  {[ "q1" := {[ "d1" := 1%Z; "d2" := 0%Z ]}; "q2" := {[ "d1" := 1%Z ]} ]}.

(** The sampler [prepare] builds from them. *)
Definition sampler1 : sampler :=
  {| qid_to_docids := [("q1", ["d1"; "d2"])];
     qid_to_reldocs := [("q1", ["d1"])];
     qid_to_negdocs := [("q1", ["d2"])];
     total_samples := 2 |}.

(** A tokenizer that keeps a passage as one token, and a vocabulary. *)
Definition whole_passage (text : string) : list string := [text].

Definition vocab (tok : string) : Z :=
  if decide (tok = "[PAD]") then 0%Z
  else if decide (tok = "[CLS]") then 101%Z
  else if decide (tok = "[SEP]") then 102%Z
  else (1000 + Z.of_nat (String.length tok))%Z.

(** A document of 120 words: shorter than the default window of 150
    words, longer than the default stride of 100. *)
Definition doc120 : list string := replicate 120 "w".

Definition small_config : BertPassage.config :=
  {| BertPassage.maxseqlen := 6; BertPassage.passagelen := 3;
     BertPassage.stride := 2; BertPassage.numpassages := 2 |}.

Definition single_config : BertPassage.config :=
  {| BertPassage.maxseqlen := 6; BertPassage.passagelen := 3;
     BertPassage.stride := 2; BertPassage.numpassages := 1 |}.

Definition doc9 : list string := ["a"; "b"; "c"; "d"; "e"; "f"; "g"; "h"; "i"].

(** An extractor whose state holds a one-token query, a five-token
    query and two documents of two passages each. *)
Definition small_extractor : BertPassage.extractor :=
  {| BertPassage.cfg := small_config;
     BertPassage.qid2toks := {[ "q" := ["a"]; "long" := ["a"; "b"; "c"; "d"; "e"] ]};
     BertPassage.docid2passages :=
       {[ "d1" := [["x"]; ["[PAD]"]]; "d2" := [["y"; "z"]; ["y"]] ]} |}.

(** A training run interrupted after ten iterations: the model has one
    trainable parameter and the embedding table, weights/9.p and its
    optimizer file are on disk, loss.txt has the lines 0 to 9. *)
Definition model0 : gmap string Z :=
  {[ "fc.weight" := 0%Z; "embedding.weight" := 7%Z ]}.

Definition saved9 : gmap string Z := {[ "fc.weight" := 9%Z ]}.

Definition losses10 : list Trainer.float :=
  (λ i, Trainer.Finite (inject_Z i)) <$> seqZ 0 10.

Definition world9 : Reranker.world Z nat :=
  {| Reranker.state_dict := model0;
     Reranker.optimizer := 0;
     Reranker.weight_files :=
       Reranker.write_file (λ _, None) (Reranker.IterWeights 9) saved9;
     Reranker.optimizer_files :=
       Reranker.write_file (λ _, None) (Reranker.IterWeights 9) 9 |}.

Definition disk9 : Trainer.disk Z nat :=
  {| Trainer.rr := world9;
     Trainer.weights_path_exists := true;
     Trainer.loss_fn := Some (Trainer.loss_text losses10) |}.

(** The same run with a loss.txt whose line 5 carries the index 6. *)
Definition gapped_lines : list (list Trainer.field) :=
  Trainer.loss_text (take 5 losses10) ++
  [Trainer.IntText 6; Trainer.FloatText (Trainer.Finite 6)] ::
  [[Trainer.IntText 7; Trainer.FloatText (Trainer.Finite 7)]].

Definition disk_gap : Trainer.disk Z nat :=
  {| Trainer.rr := world9;
     Trainer.weights_path_exists := true;
     Trainer.loss_fn := Some gapped_lines |}.

(** The same run without its loss.txt, and with a weights/9.p that
    lacks the model's trainable parameter. *)
Definition disk_no_loss : Trainer.disk Z nat :=
  {| Trainer.rr := world9;
     Trainer.weights_path_exists := true;
     Trainer.loss_fn := None |}.

Definition disk_bad_weights : Trainer.disk Z nat :=
  {| Trainer.rr :=
       {| Reranker.state_dict := model0;
          Reranker.optimizer := 0;
          Reranker.weight_files :=
            Reranker.write_file (λ _, None) (Reranker.IterWeights 9)
              {[ "other.weight" := 1%Z ]};
          Reranker.optimizer_files := Reranker.optimizer_files world9 |};
     Trainer.weights_path_exists := true;
     Trainer.loss_fn := Some (Trainer.loss_text losses10) |}.

(** A two-iteration training run from scratch, validated after every
    iteration.  An iteration adds 1 to every parameter; the dev metric
    is 1/2 for the weights of iteration 0 and 3/10 for those of
    iteration 1. *)
Definition setup2 : Trainer.setup Z nat :=
  {| Trainer.niters := 2;
     Trainer.validatefreq := 1;
     Trainer.fastforward := false;
     Trainer.single_train_iteration :=
       λ m o, Returned (Trainer.Finite 1, Z.succ <$> m, S o);
     Trainer.dev_metric :=
       λ m, Returned match m !! "fc.weight" with
                     | Some 1%Z => Trainer.Finite (1 # 2)
                     | Some 2%Z => Trainer.Finite (3 # 10)
                     | _ => Trainer.Finite 0
                     end;
     Trainer.skip_iterations := λ _, None |}.

Definition disk0 : Trainer.disk Z nat :=
  {| Trainer.rr :=
       {| Reranker.state_dict := model0;
          Reranker.optimizer := 0;
          Reranker.weight_files := λ _, None;
          Reranker.optimizer_files := λ _, None |};
     Trainer.weights_path_exists := false;
     Trainer.loss_fn := None |}.

End Examples.

(* ===================================================================== *)
(** ** capreolus/sampler/__init__.py: TrainPairSampler                    *)
(* ===================================================================== *)

Module PairSampler.
Import Sampler.

Section pair.
Context {Inst : Type} {X : Extractor Inst}.

(** [for docid in docs: yield self.extractor.id2vec(qid, docid,
    negid=None, label=lbl)]; there is no try/except around the call. *)
Fixpoint pair_docs (qid : string) (lbl : list Z) (docids : list string)
    (acc : generated Inst) : generated Inst :=
  match docids with
  | [] => acc
  | docid :: docids' =>
      match id2vec qid docid None lbl with
      | Returned inst => pair_docs qid lbl docids' (gen_yield acc inst)
      | Raised e => gen_raise acc e
      end
  end.

(** One pass of [for qid in all_qids]: the relevant documents with the
    label [0, 1], then the non-relevant ones with [1, 0]. *)
Fixpoint pair_qids (s : sampler) (qids : list string) (acc : generated Inst)
    : generated Inst :=
  match qids with
  | [] => acc
  | qid :: qids' =>
      match dict_get qid (qid_to_reldocs s) with
      | None => gen_raise acc (KeyError qid)
      | Some rel =>
          let acc1 := pair_docs qid [0; 1]%Z rel acc in
          match raised acc1 with
          | Some _ => acc1
          | None =>
              match dict_get qid (qid_to_negdocs s) with
              | None => gen_raise acc1 (KeyError qid)
              | Some neg =>
                  let acc2 := pair_docs qid [1; 0]%Z neg acc1 in
                  match raised acc2 with
                  | Some _ => acc2
                  | None => pair_qids s qids' acc2
                  end
              end
          end
      end
  end.

(** [rounds] passes of the body of [while True]. *)
Fixpoint pair_rounds (s : sampler) (rounds : nat) (all_qids : list string)
    (g : rng) (acc : generated Inst) : generated Inst * rng :=
  match rounds with
  | 0 => (acc, g)
  | S rounds' =>
      let '(all_qids', g1) := shuffle all_qids g in
      let acc' := pair_qids s all_qids' acc in
      match raised acc' with
      | Some _ => (acc', g1)
      | None => pair_rounds s rounds' all_qids' g1 acc'
      end
  end.

Definition pair_generate_samples (s : sampler) (seeded : rng) (rounds : nat)
    : generated Inst * rng :=
  let all_qids := sorted_qids (dict_keys (qid_to_reldocs s)) in
  if decide (length all_qids = 0)
  then (gen_raise gen_start
          (RuntimeError "TrainDataset has no valid training pairs" ∅), seeded)
  else pair_rounds s rounds all_qids seeded gen_start.

End pair.

End PairSampler.

(* ===================================================================== *)
(** ** capreolus/trainer/__init__.py: configuration, one iteration,
       predictions in TREC format                                         *)
(* ===================================================================== *)

Module TrainIteration.

(** [float(x).is_integer()] *)
Definition is_integer (x : Q) : bool :=
  (Qnum x `mod` Z.pos (Qden x) =? 0)%Z.

(** The sanity checks of [PytorchTrainer.config], on the values the
    configuration ends up with; [None] when no check fires, otherwise
    the message of the ValueError. *)
Definition config_checks (batch niters itersize : Z) (gradacc lr : Q) : option string :=
  if (batch <? 1)%Z then Some "batch must be >= 1"
  else if (niters <=? 0)%Z then Some "niters must be > 0"
  else if (itersize <? batch)%Z then Some "itersize must be >= batch"
  else if negb (Qle_bool 1 gradacc) || negb (is_integer gradacc)
       then Some "gradacc must be an integer >= 1"
  else if Qle_bool lr 0 then Some "lr must be > 0"
  else None.

(** What one training iteration does to the model, in order: the
    backward pass of a batch, and [optimizer.step()] followed by
    [optimizer.zero_grad()]. *)
Inductive event (B : Type) :=
| Backward (batch : B)
| OptimizerStep.
Arguments Backward {B} batch.
Arguments OptimizerStep {B}.

Definition is_step {B} (e : event B) : bool :=
  match e with OptimizerStep => true | Backward _ => false end.

Definition backward_of {B} (e : event B) : option B :=
  match e with Backward b => Some b | OptimizerStep => None end.

(** The loop [for bi, batch in enumerate(train_dataloader)]; the data
    loader is the list of the batches it can deliver. *)
Fixpoint batches_loop {B} (batches_per_epoch : Z) (batches_per_step : Q) (bi : Z)
    (loader : list B) (batches_since_update : Z) (trace : list (event B))
    : outcome (list (event B)) :=
  match loader with
  | [] => Returned trace
  | batch :: loader' =>
      let trace := trace ++ [Backward batch] in
      let batches_since_update := (batches_since_update + 1)%Z in
      let '(batches_since_update, trace) :=
        if Qeq_bool (inject_Z batches_since_update) batches_per_step
        then (0%Z, trace ++ [OptimizerStep])
        else (batches_since_update, trace) in
      if decide (batches_per_epoch = 0%Z) then Raised ZeroDivisionError
      else if decide (((bi + 1) `mod` batches_per_epoch)%Z = 0%Z)
           then Returned trace
           else batches_loop batches_per_epoch batches_per_step (bi + 1)%Z loader'
                  batches_since_update trace
  end.

(** [single_train_iteration]: the events of the iteration.  The value
    returned to the caller is the mean of the losses of the batches that
    went backward; [torch.stack] of an empty list is a RuntimeError. *)
Definition single_train_iteration {B} (itersize batch : Z) (gradacc : Q)
    (train_dataloader : list B) : outcome (list (event B)) :=
  if decide (batch = 0%Z) then Raised ZeroDivisionError
  else
    let batches_per_epoch := (itersize `div` batch)%Z in
    match batches_loop batches_per_epoch gradacc 0 train_dataloader 0 [] with
    | Raised e => Raised e
    | Returned trace =>
        match omap backward_of trace with
        | [] => Raised (RuntimeError "stack expects a non-empty TensorList" ∅)
        | _ => Returned trace
        end
    end.

(** *** TrecCheckpointCallback.get_preds_in_trec_format *)
Section trec.
(** Scores, and [x.astype(np.float16).item()]. *)
Context {Score : Type}.
Variable to_float16 : Score → Score.

(** [pred_dict[qid][docid] = v] on a [defaultdict(lambda: dict())] *)
Definition store (pred_dict : gmap string (gmap string Score)) (qid docid : string) (v : Score)
    : gmap string (gmap string Score) :=
  <[qid := <[docid := v]> (default ∅ (pred_dict !! qid))]> pred_dict.

(** [for i, (qid, docid) in enumerate(dev_data.get_qid_docid_pairs())] *)
Fixpoint preds_loop (i : nat) (pairs : list (string * string))
    (predictions : list (list Score)) (pred_dict : gmap string (gmap string Score))
    : outcome (gmap string (gmap string Score)) :=
  match pairs with
  | [] => Returned pred_dict
  | (qid, docid) :: pairs' =>
      match predictions !! i with
      | None => Raised IndexError
      | Some row =>
          match row !! 0 with
          | None => Raised IndexError
          | Some v =>
              preds_loop (S i) pairs' predictions
                (store pred_dict qid docid (to_float16 v))
          end
      end
  end.

Definition get_preds_in_trec_format (predictions : list (list Score))
    (dev_data : Sampler.sampler) : outcome (gmap string (gmap string Score)) :=
  preds_loop 0 (Sampler.get_qid_docid_pairs dev_data) predictions ∅.

End trec.

End TrainIteration.

(* ===================================================================== *)
(** ** What one iteration is expected to do                               *)
(* ===================================================================== *)

Module TrainIterationSpec.
Import TrainIteration.

(** The events of the batches [k], [k+1], ... : every batch goes
    backward, and the optimizer steps after every [g]-th batch. *)
Fixpoint schedule_from {B} (g : Z) (k : Z) (batches : list B) : list (event B) :=
  match batches with
  | [] => []
  | b :: batches' =>
      Backward b ::
      (if decide (((k + 1) `mod` g)%Z = 0%Z) then [OptimizerStep] else []) ++
      schedule_from g (k + 1)%Z batches'
  end.

Definition schedule {B} (g : Z) (batches : list B) : list (event B) :=
  schedule_from g 0 batches.

Definition steps {B} (trace : list (event B)) : nat :=
  length (filter (λ e, Is_true (is_step e)) trace).

(** [preds[qid][docid]], when both keys are there. *)
Definition score_of {Score} (preds : gmap string (gmap string Score))
    (qid docid : string) : option Score :=
  preds !! qid ≫= (.!! docid).

End TrainIterationSpec.

(* ===================================================================== *)
(** ** Runs of the trainer and of the callback                            *)
(* ===================================================================== *)

Module TrainerRuns.
Import Reranker Trainer.

(** The callback after Keras has called [on_epoch_end] at the end of
    each epoch, in order; an epoch is given by the weights of the model
    at its end and the [ndcg_cut_20] of its predictions. *)
Definition after_epochs {weights} (cb : callback weights) (epochs : list (weights * float))
    : callback weights :=
  foldl (λ cb e, on_epoch_end cb e.1 e.2) cb epochs.

Section runs.
Context {tensor opt_state : Type}.

(** The files of [fn] hold the model's persisted parameters and the
    optimizer's state as they are now. *)
Definition checkpointed (w : world tensor opt_state) (fn : path) : Prop :=
  weight_files w fn = Some (filter (λ kv, Is_true (persisted_key kv.1)) (state_dict w)) ∧
  optimizer_files w fn = Some (optimizer w).

(** [e] is an exception that a training iteration or a validation of
    [t] raises on some model. *)
Definition raised_inside (t : setup tensor opt_state) (e : exn) : Prop :=
  (∃ m o, single_train_iteration t m o = Raised e) ∨
  (∃ m, dev_metric t m = Raised e).

(** The training iterations and the validations of [t] raise nothing. *)
Definition never_raises (t : setup tensor opt_state) : Prop :=
  (∀ m o, ∃ r, single_train_iteration t m o = Returned r) ∧
  (∀ m, ∃ x, dev_metric t m = Returned x).

(** The same configuration with [fastforward = True]. *)
Definition resuming (t : setup tensor opt_state) : setup tensor opt_state :=
  {| niters := niters t;
     validatefreq := validatefreq t;
     fastforward := true;
     single_train_iteration := single_train_iteration t;
     dev_metric := dev_metric t;
     skip_iterations := skip_iterations t |}.

(** A new process over the files a run has left: a model with the
    parameters [m] and an optimizer in the state [o]. *)
Definition restarted (d : disk tensor opt_state) (m : gmap string tensor) (o : opt_state)
    : disk tensor opt_state :=
  {| rr := {| state_dict := m; optimizer := o;
              weight_files := weight_files (rr d);
              optimizer_files := optimizer_files (rr d) |};
     weights_path_exists := weights_path_exists d;
     loss_fn := loss_fn d |}.

End runs.

End TrainerRuns.

(* ===================================================================== *)
(** ** capreolus/trainer/__init__.py: PytorchTrainer.predict              *)
(* ===================================================================== *)

Module TrainerPredict.
Import TrainIteration.

Section predict.
Context {Score Features : Type}.
(** [x.astype(np.float16).item()] *)
Variable to_float16 : Score → Score.

(** A batch of the prediction data loader: its [qid] and [posdocid]
    lists, and the tensors the reranker scores. *)
Record batch := {
  qid : list string;
  posdocid : list string;
  tensors : Features
}.

(** [zip(batch["qid"], batch["posdocid"], scores)] *)
Definition zip3 (b : batch) (scores : list Score) : list (string * string * Score) :=
  zip (zip (qid b) (posdocid b)) scores.

(** The body of [for batch in pred_dataloader]; [test] is
    [reranker.test(batch).view(-1)], and the assignment is
    [preds.setdefault(qid, {})[docid] = ...]. *)
Definition predict_batch (test : batch → list Score)
    (preds : gmap string (gmap string Score)) (b : batch)
    : gmap string (gmap string Score) :=
  foldl (λ preds r, store preds r.1.1 r.1.2 (to_float16 r.2)) preds (zip3 b (test b)).

(** The run [predict] returns (and writes to [pred_fn]). *)
Definition predict (test : batch → list Score) (pred_dataloader : list batch)
    : gmap string (gmap string Score) :=
  foldl (predict_batch test) ∅ pred_dataloader.

(** The (qid, docid, score) rows in the order [predict] meets them. *)
Definition scored_rows (test : batch → list Score) (pred_dataloader : list batch)
    : list (string * string * Score) :=
  pred_dataloader ≫= (λ b, zip3 b (test b)).

(** The score of the last row for [(q, d)], if there is one. *)
Definition last_score (q d : string) (rows : list (string * string * Score)) : option Score :=
  last (omap (λ r, if decide (r.1.1 = q ∧ r.1.2 = d) then Some r.2 else None) rows).

End predict.
Arguments batch : clear implicits.

End TrainerPredict.

(* ===================================================================== *)
(** ** capreolus/extractor/bertpassage.py: _build_vocab                   *)
(* ===================================================================== *)

Module BertPassageBuild.
Import BertPassage.

Section build.
Variable tokenize : string → list string.

(** [{qid: self.tokenizer.tokenize(topics[qid]) for qid in qids}] *)
Fixpoint build_qid2toks (topics : gmap string string) (qids : list string)
    (acc : gmap string (list string)) : outcome (gmap string (list string)) :=
  match qids with
  | [] => Returned acc
  | qid :: qids' =>
      match topics !! qid with
      | None => Raised (KeyError qid)
      | Some text => build_qid2toks topics qids' (<[qid := tokenize text]> acc)
      end
  end.

(** The branch of [_build_vocab] that builds the state (no cached state
    is loaded): the passages of every document, then the tokens of
    every query.  [get_doc] is [self.index.get_doc(docid).split()]. *)
Definition build_vocab (c : config) (get_doc : string → list string)
    (topics : gmap string string) (qids docids : list string) (g : rng)
    : outcome extractor * rng :=
  match build_passages tokenize c get_doc docids ∅ g with
  | (Raised e, g') => (Raised e, g')
  | (Returned passages, g') =>
      match build_qid2toks topics qids ∅ with
      | Raised e => (Raised e, g')
      | Returned toks =>
          (Returned {| cfg := c; qid2toks := toks; docid2passages := passages |}, g')
      end
  end.

End build.

End BertPassageBuild.

(* ===================================================================== *)
(** ** What the training generators are expected to yield                 *)
(* ===================================================================== *)

Module GeneratorSpec.
Import Sampler SamplerSpec.

(** The query has a relevant and a non-relevant document to draw. *)
Definition has_both (s : sampler) (qid : string) : Prop :=
  ∃ rel neg,
    dict_get qid (qid_to_reldocs s) = Some rel ∧ rel ≠ [] ∧
    dict_get qid (qid_to_negdocs s) = Some neg ∧ neg ≠ [].

(** What one pass of the body of [for qid in all_qids] does for its
    query: it yields an instance, or it skips the triple it drew with a
    warning. *)
Inductive visit (Inst : Type) :=
| Yields (qid : string) (inst : Inst)
| Skips (qid posdocid negdocid : string).
Arguments Yields {Inst} qid inst.
Arguments Skips {Inst} qid posdocid negdocid.

Definition visit_qid {Inst} (v : visit Inst) : string :=
  match v with Yields qid _ => qid | Skips qid _ _ => qid end.

Definition visit_inst {Inst} (v : visit Inst) : option Inst :=
  match v with Yields _ inst => Some inst | Skips _ _ _ => None end.

Definition visit_log {Inst} (v : visit Inst) : option log_record :=
  match v with
  | Yields _ _ => None
  | Skips qid posdocid negdocid => Some (LogSkippingTrainingPair qid posdocid negdocid)
  end.

(** [posdocid] is one of the relevant and [negdocid] one of the
    non-relevant documents of the query in [s]. *)
Definition drawn_for (s : sampler) (qid posdocid negdocid : string) : Prop :=
  ∃ rel neg,
    dict_get qid (qid_to_reldocs s) = Some rel ∧ posdocid ∈ rel ∧
    dict_get qid (qid_to_negdocs s) = Some neg ∧ negdocid ∈ neg.

(** The visit is right for its query: the instance was built by
    [id2vec] for a triple of the query with the label [1, 0]; a skipped
    triple is a triple of the query for which [id2vec] raised
    MissingDocError. *)
Definition visit_ok {Inst} {X : Extractor Inst} (s : sampler) (v : visit Inst) : Prop :=
  match v with
  | Yields qid inst =>
      ∃ posdocid negdocid,
        drawn_for s qid posdocid negdocid ∧
        id2vec qid posdocid (Some negdocid) [1; 0]%Z = Returned inst
  | Skips qid posdocid negdocid =>
      drawn_for s qid posdocid negdocid ∧
      ∃ mq md, id2vec qid posdocid (Some negdocid) [1; 0]%Z
               = Raised (MissingDocError mq md)
  end.

(** On the triples of the sampler, the extractor either has the
    features or reports a missing document. *)
Definition returns_or_misses {Inst} (X : Extractor Inst) (s : sampler) : Prop :=
  ∀ qid posdocid negdocid,
    drawn_for s qid posdocid negdocid →
    (∃ inst, id2vec qid posdocid (Some negdocid) [1; 0]%Z = Returned inst) ∨
    (∃ mq md, id2vec qid posdocid (Some negdocid) [1; 0]%Z
              = Raised (MissingDocError mq md)).

(** The (query, document) pairs in the order one pass of the pair
    sampler over [qids] visits them. *)
Definition pair_order (s : sampler) (qids : list string) : list (string * string) :=
  flat_map (λ qid, pair qid <$> (default [] (dict_get qid (qid_to_reldocs s)) ++
                                 default [] (dict_get qid (qid_to_negdocs s)))) qids.

End GeneratorSpec.

(* ===================================================================== *)
(** ** Further concrete inputs                                            *)
(* ===================================================================== *)

Module MoreExamples.
Import Sampler.

(** A sampler of two queries, as [prepare] leaves it. *)
Definition pool2 : list (string * list string) :=
  [("q1", ["d1"; "d2"; "d3"]); ("q2", ["d4"; "d1"])].

Definition qrels2 : gmap string (gmap string Z) :=
  {[ "q1" := {[ "d1" := 1%Z; "d3" := 2%Z ]}; "q2" := {[ "d1" := 1%Z ]} ]}.

Definition sampler2 : sampler :=
  {| qid_to_docids := pool2;
     qid_to_reldocs := [("q1", ["d1"; "d3"]); ("q2", ["d1"])];
     qid_to_negdocs := [("q1", ["d2"]); ("q2", ["d4"])];
     total_samples := 4 |}.

(** A pool none of whose queries is judged. *)
Definition pool_unjudged : list (string * list string) := [("q9", ["d1"])].

(** Ten batches, named by their number. *)
Definition ten_batches : list nat := seq 0 10.

(** A loss.txt with an empty line at its end, one with an empty line in
    the middle, and one with a line of three fields. *)
Definition lines_trailing_blank : list (list Trainer.field) :=
  Trainer.loss_text [Trainer.Finite 1; Trainer.Finite 2] ++ [[]; []].

Definition lines_inner_blank : list (list Trainer.field) :=
  [[Trainer.IntText 0; Trainer.FloatText (Trainer.Finite 1)]; [];
   [Trainer.IntText 1; Trainer.FloatText (Trainer.Finite 2)]].

Definition lines_garbled : list (list Trainer.field) :=
  [[Trainer.IntText 0; Trainer.FloatText (Trainer.Finite 1)];
   [Trainer.IntText 1; Trainer.FloatText (Trainer.Finite 2); Trainer.OtherText "x"]].

(** A tiny collection: two documents and one topic. *)
Definition get_doc2 (docid : string) : list string :=
  if decide (docid = "d1") then ["a"; "b"; "c"; "d"; "e"]
  else if decide (docid = "d2") then ["x"]
  else [].

Definition topics2 : gmap string string := {[ "q" := "b d" ]}.

(** A state of the passage extractor in which the document d2 is
    stored without any passage. *)
Definition extractor_d2_empty : BertPassage.extractor :=
  {| BertPassage.cfg := Examples.small_config;
     BertPassage.qid2toks := {[ "q1" := ["a"] ]};
     BertPassage.docid2passages := {[ "d1" := [["x"]; ["[PAD]"]]; "d2" := [] ]} |}.

(** A state of the passage extractor that knows the query and the two
    documents of [sampler1]. *)
Definition extractor_q1 : BertPassage.extractor :=
  {| BertPassage.cfg := Examples.small_config;
     BertPassage.qid2toks := {[ "q1" := ["a"] ]};
     BertPassage.docid2passages :=
       {[ "d1" := [["x"]; ["[PAD]"]]; "d2" := [["y"; "z"]; ["y"]] ]} |}.

(** The checkpoint of iteration 9 without its optimizer file. *)
Definition world9_no_optimizer : Reranker.world Z nat :=
  {| Reranker.state_dict := Examples.model0;
     Reranker.optimizer := 0;
     Reranker.weight_files := Reranker.weight_files Examples.world9;
     Reranker.optimizer_files := λ _, None |}.

(** What the run of [setup2] from [disk0] leaves on disk. *)
Definition trained2 : Trainer.disk Z nat :=
  match Trainer.train Examples.setup2 Examples.disk0 with
  | Returned (d, _) => d
  | Raised _ => Examples.disk0
  end.

End MoreExamples.

(* ===================================================================== *)
(** ** Facts about ordered dicts                                          *)
(* ===================================================================== *)

Section dict_facts.
Context {V : Type}.
Implicit Types (d : list (string * V)) (k : string) (v : V).

Lemma dict_get_app_fresh k d1 d2 :
  k ∉ d1.*1 → dict_get k (d1 ++ d2) = dict_get k d2.
Proof.
  induction d1 as [|[k' v'] d1 IH]; simpl; [done|].
  intros Hk. apply not_elem_of_cons in Hk as [Hne Hk].
  destruct (decide (k' = k)); [congruence | auto].
Qed.

Lemma dict_del_app_fresh k v d1 d2 :
  k ∉ d1.*1 → dict_del k (d1 ++ (k, v) :: d2) = Some (d1 ++ d2).
Proof.
  induction d1 as [|[k' v'] d1 IH]; simpl.
  - intros _. by rewrite decide_True.
  - intros Hk. apply not_elem_of_cons in Hk as [Hne Hk].
    rewrite decide_False by congruence. by rewrite IH.
Qed.

Lemma dict_get_elem k v d :
  NoDup d.*1 → (k, v) ∈ d → dict_get k d = Some v.
Proof.
  induction d as [|[k' v'] d IH]; simpl; intros Hnd Hin.
  - by apply elem_of_nil in Hin.
  - apply NoDup_cons in Hnd as [Hfresh Hnd].
    apply elem_of_cons in Hin as [Heq|Hin].
    + inversion Heq; subst. by rewrite decide_True.
    + destruct (decide (k' = k)) as [->|]; [|auto].
      exfalso. apply Hfresh. by apply (list_elem_of_fmap_2 fst) in Hin.
Qed.

Lemma dict_get_Some k v d : dict_get k d = Some v → (k, v) ∈ d.
Proof.
  induction d as [|[k' v'] d IH]; simpl; [done|].
  destruct (decide (k' = k)) as [->|].
  - intros [= ->]. apply elem_of_cons; by left.
  - intros H. apply elem_of_cons; right; auto.
Qed.
End dict_facts.

Lemma NoDup_keys_filter {V} (P : string * V → Prop) `{!∀ e, Decision (P e)}
    (d : list (string * V)) :
  NoDup d.*1 → NoDup (filter P d).*1.
Proof.
  intros Hnd. eapply sublist_NoDup; [exact Hnd|].
  apply fmap_sublist, sublist_filter.
Qed.

(* ===================================================================== *)
(** ** Sampler.prepare and Sampler.clean                                  *)
(* ===================================================================== *)

Section clean_facts.
Import Sampler SamplerSpec.
Variables fr fn : string * list string → list string.
Local Abbreviation rel_side := (rel_side fr).
Local Abbreviation neg_side := (neg_side fn).
Local Abbreviation both_sides := (both_sides fr fn).

Lemma rel_side_keys l : (rel_side l).*1 = l.*1.
Proof. unfold rel_side. rewrite <- list_fmap_compose. done. Qed.

Lemma neg_side_keys l : (neg_side l).*1 = l.*1.
Proof. unfold neg_side. rewrite <- list_fmap_compose. done. Qed.

(** The loop invariant of [clean]: the entries already visited and kept
    ([visited]) precede the entries still to visit ([rest]) in all three
    mappings. *)
Lemma clean_loop_spec rest : ∀ visited ts total log,
  NoDup (visited ++ rest).*1 →
  ∃ log',
    clean_loop rest.*1
      {| qid_to_docids := visited ++ rest;
         qid_to_reldocs := rel_side visited ++ rel_side rest;
         qid_to_negdocs := neg_side visited ++ neg_side rest;
         total_samples := ts |} total log
    = Returned
        ({| qid_to_docids := visited ++ filter both_sides rest;
            qid_to_reldocs := rel_side (visited ++ filter both_sides rest);
            qid_to_negdocs := neg_side (visited ++ filter both_sides rest);
            total_samples := ts |},
         total + sum_list ((λ e, length (fr e) * length (fn e)) <$> rest),
         log').
Proof.
  induction rest as [|[q ds] rest IH]; intros visited ts total log Hnd.
  - exists log. simpl. rewrite !app_nil_r, Nat.add_0_r. done.
  - assert (Hq : q ∉ visited.*1).
    { rewrite fmap_app in Hnd. apply NoDup_app in Hnd as (_ & Hdis & _).
      intros Hin. apply (Hdis q Hin). simpl. apply elem_of_cons; by left. }
    assert (Hnd' : NoDup (visited ++ rest).*1).
    { rewrite fmap_app in *. apply NoDup_app in Hnd as (H1 & H2 & H3).
      apply NoDup_app. split_and!; [done| |].
      - intros x Hx Hx'. apply (H2 x Hx). simpl. apply elem_of_cons; by right.
      - simpl in H3. by apply NoDup_cons in H3 as [_ ?]. }
    simpl clean_loop. cbn [qid_to_reldocs qid_to_negdocs qid_to_docids total_samples].
    rewrite (dict_get_app_fresh q (rel_side visited)) by by rewrite rel_side_keys.
    rewrite (dict_get_app_fresh q (neg_side visited)) by by rewrite neg_side_keys.
    simpl. rewrite !decide_True by done.
    destruct ((length (fr (q, ds)) =? 0) || (length (fn (q, ds)) =? 0)) eqn:Hz.
    + rewrite (dict_del_app_fresh q _ (rel_side visited)) by by rewrite rel_side_keys.
      rewrite (dict_del_app_fresh q _ visited) by done.
      rewrite (dict_del_app_fresh q _ (neg_side visited)) by by rewrite neg_side_keys.
      destruct (IH visited ts (total + length (fr (q, ds)) * length (fn (q, ds)))
                  (log ++ [LogRemovingQid q (length (fr (q, ds))) (length (fn (q, ds)))])
                  Hnd') as [log' Heq].
      exists log'. rewrite filter_cons_False.
      * etrans; [exact Heq|]. do 3 f_equal. symmetry. apply Nat.add_assoc.
      * intros [H1 H2]. apply orb_true_iff in Hz as [Hz|Hz]; apply Nat.eqb_eq in Hz.
        -- by apply H1, nil_length_inv.
        -- by apply H2, nil_length_inv.
    + destruct (IH (visited ++ [(q, ds)]) ts
                  (total + length (fr (q, ds)) * length (fn (q, ds))) log)
        as [log' Heq].
      { by rewrite <- app_assoc. }
      exists log'. rewrite filter_cons_True.
      * unfold rel_side, neg_side in *. rewrite !fmap_app in Heq. simpl in Heq.
        rewrite <- !app_assoc in Heq. simpl in Heq.
        etrans; [exact Heq|]. rewrite !fmap_app. simpl.
        do 3 f_equal. symmetry. apply Nat.add_assoc.
      * apply orb_false_iff in Hz as [H1 H2].
        apply Nat.eqb_neq in H1, H2. split; intros E; rewrite E in *; done.
Qed.
End clean_facts.

Section prepare_facts.
Import Sampler SamplerSpec.
Variables (qrels : gmap string (gmap string Z)) (lvl : Z).

Lemma comprehension_in_qrels f pool :
  comprehension qrels f (in_qrels qrels pool)
  = Returned ((λ e, (e.1, f (judged qrels e.1) e.2)) <$> in_qrels qrels pool).
Proof.
  unfold in_qrels. induction pool as [|[q ds] pool IH]; [done|].
  rewrite filter_cons. destruct (decide _) as [[j Hj]|]; [|done].
  simpl in Hj. cbn [comprehension]. rewrite Hj, IH. simpl.
  unfold judged. by rewrite Hj.
Qed.

(** [prepare] returns, and what it returns is known in closed form. *)
Lemma prepare_returns pool :
  NoDup pool.*1 →
  ∃ log,
    prepare pool qrels lvl
    = Returned
        ({| qid_to_docids := retained pool qrels lvl;
            qid_to_reldocs := rel_side (rel_entry qrels lvl) (retained pool qrels lvl);
            qid_to_negdocs := neg_side (neg_entry qrels lvl) (retained pool qrels lvl);
            total_samples :=
              1 + sum_list ((λ e, length (rel_entry qrels lvl e) *
                                  length (neg_entry qrels lvl e))
                            <$> in_qrels qrels pool) |}, log).
Proof.
  intros Hnd. unfold prepare. rewrite !comprehension_in_qrels.
  assert (Hnd' : NoDup ([] ++ in_qrels qrels pool).*1).
  { simpl. by apply NoDup_keys_filter. }
  destruct (clean_loop_spec (rel_entry qrels lvl) (neg_entry qrels lvl)
              (in_qrels qrels pool) [] 0 1 [] Hnd') as [log Heq].
  exists log. unfold clean, dict_keys. cbn [qid_to_docids].
  simpl in Heq. unfold rel_side, neg_side, rel_entry, neg_entry in *.
  by rewrite Heq.
Qed.

(** Queries dropped by the cleaning contribute nothing to the count. *)
Lemma sum_dropped_zero (h : string * list string → nat) l :
  (∀ e, ¬ keeps qrels lvl e → h e = 0) →
  sum_list (h <$> filter (keeps qrels lvl) l) = sum_list (h <$> l).
Proof.
  intros Hz. induction l as [|e l IH]; [done|].
  rewrite filter_cons. destruct (decide _) as [|Hn].
  - simpl. f_equal. exact IH.
  - simpl. rewrite (Hz e Hn). exact IH.
Qed.

Lemma triple_count_sides l :
  triple_count (rel_side (rel_entry qrels lvl) l) (neg_side (neg_entry qrels lvl) l)
  = sum_list ((λ e, length (rel_entry qrels lvl e) * length (neg_entry qrels lvl e)) <$> l).
Proof.
  unfold triple_count. induction l as [|e l IH]; [done|].
  simpl. f_equal. exact IH.
Qed.

Lemma retained_elem pool e :
  e ∈ retained pool qrels lvl ↔
  e ∈ pool ∧ is_Some (qrels !! e.1) ∧ keeps qrels lvl e.
Proof.
  unfold retained, in_qrels. rewrite !list_elem_of_filter. tauto.
Qed.

Lemma retained_NoDup pool : NoDup pool.*1 → NoDup (retained pool qrels lvl).*1.
Proof. intros. unfold retained, in_qrels. by do 2 apply NoDup_keys_filter. Qed.

End prepare_facts.

Lemma dict_get_side (g : string * list string → list string) k l :
  dict_get k ((λ e, (e.1, g e)) <$> l) = (λ v, g (k, v)) <$> dict_get k l.
Proof.
  induction l as [|[k' v'] l IH]; [done|].
  simpl. destruct (decide (k' = k)) as [->|]; [done | exact IH].
Qed.

Section prepare_theorems.
Import Sampler SamplerSpec.

(** C7.  After [Sampler.prepare] (which ends with the cleaning pass) the
    three mappings have the same queries; every retained query has at
    least one relevant and at least one non-relevant candidate, these
    being the candidates graded at least, respectively below, the
    relevance level; and [total_samples] is 1 plus the sum over the
    queries of |relevant| × |non-relevant|. *)
Theorem prepare_keeps_valid_queries pool (qrels : gmap string (gmap string Z)) lvl :
  NoDup pool.*1 →
  ∃ s log,
    prepare pool qrels lvl = Returned (s, log) ∧
    dict_keys (qid_to_reldocs s) = dict_keys (qid_to_docids s) ∧
    dict_keys (qid_to_negdocs s) = dict_keys (qid_to_docids s) ∧
    (∀ qid, qid ∈ dict_keys (qid_to_docids s) →
       ∃ docids jd rel neg,
         dict_get qid pool = Some docids ∧
         dict_get qid (qid_to_docids s) = Some docids ∧
         qrels !! qid = Some jd ∧
         dict_get qid (qid_to_reldocs s) = Some rel ∧
         dict_get qid (qid_to_negdocs s) = Some neg ∧
         rel = reldocs_of jd lvl docids ∧
         neg = negdocs_of jd lvl docids ∧
         1 ≤ length rel ∧ 1 ≤ length neg) ∧
    get_total_samples s = 1 + triple_count (qid_to_reldocs s) (qid_to_negdocs s).
Proof.
  intros Hnd. destruct (prepare_returns qrels lvl pool Hnd) as [log Hprep].
  eexists _, log. split; [exact Hprep|]. cbn [qid_to_docids qid_to_reldocs qid_to_negdocs].
  split_and!.
  - unfold dict_keys, rel_side. by rewrite <- list_fmap_compose.
  - unfold dict_keys, neg_side. by rewrite <- list_fmap_compose.
  - intros qid Hq. unfold dict_keys in Hq.
    apply list_elem_of_fmap in Hq as ([q ds] & -> & He). simpl.
    pose proof He as He'. apply retained_elem in He' as (Hpool & [jd Hjd] & Hrel & Hneg).
    simpl in Hjd.
    exists ds, jd, (reldocs_of jd lvl ds), (negdocs_of jd lvl ds).
    assert (Hj : judged qrels q = jd) by (unfold judged; by rewrite Hjd).
    unfold rel_entry, neg_entry in Hrel, Hneg. simpl in Hrel, Hneg. rewrite Hj in Hrel, Hneg.
    split_and!; try done.
    + by apply dict_get_elem.
    + apply dict_get_elem; [by apply retained_NoDup | done].
    + unfold rel_side. rewrite dict_get_side.
      rewrite (dict_get_elem q ds) by (by apply retained_NoDup || done).
      simpl. unfold rel_entry. simpl. by rewrite Hj.
    + unfold neg_side. rewrite dict_get_side.
      rewrite (dict_get_elem q ds) by (by apply retained_NoDup || done).
      simpl. unfold neg_entry. simpl. by rewrite Hj.
    + destruct (reldocs_of jd lvl ds); [done | simpl; lia].
    + destruct (negdocs_of jd lvl ds); [done | simpl; lia].
  - unfold get_total_samples. cbn [total_samples]. f_equal.
    rewrite triple_count_sides. unfold retained. rewrite sum_dropped_zero; [done|].
    intros e Hn. unfold keeps, both_sides in Hn.
    destruct (rel_entry qrels lvl e); [done|].
    destruct (neg_entry qrels lvl e); [simpl; lia|].
    exfalso. apply Hn. done.
Qed.

End prepare_theorems.

(* ===================================================================== *)
(** ** The generators                                                     *)
(* ===================================================================== *)

Section generator_facts.
Import Sampler SamplerSpec.
Context {Inst : Type} {X : Extractor Inst}.

Lemma pred_docs_all s qid rel docids : ∀ acc,
  dict_get qid (qid_to_reldocs s) = Some rel →
  (∀ d, d ∈ docids → ∃ inst, id2vec qid d None (pred_label rel d) = Returned inst) →
  ∃ new,
    pred_docs s qid docids acc
    = {| yielded := yielded acc ++ new; logged := logged acc; raised := raised acc |} ∧
    Forall2 (emitted_for s) new (pair qid <$> docids).
Proof.
  intros acc Hrel. revert acc.
  induction docids as [|d docids IH]; intros acc Hok.
  - exists []. simpl. rewrite app_nil_r. split; [by destruct acc | constructor].
  - destruct (Hok d) as [inst Hinst]; [apply elem_of_cons; by left|].
    simpl. rewrite Hrel. unfold pred_label in Hinst. rewrite Hinst.
    destruct (IH (gen_yield acc inst)) as (new & Heq & Hall).
    { intros d' Hd'. apply Hok. apply elem_of_cons; by right. }
    exists (inst :: new). split.
    + rewrite Heq. simpl. by rewrite <- app_assoc.
    + constructor; [|done].
      unfold emitted_for, relevant_set, pred_label. simpl. by rewrite Hrel.
Qed.

Lemma pred_items_all s items : ∀ acc,
  raised acc = None →
  (∀ e, e ∈ items → is_Some (dict_get e.1 (qid_to_reldocs s))) →
  (∀ p lbl, p ∈ pairs_of items → ∃ inst, id2vec p.1 p.2 None lbl = Returned inst) →
  ∃ new,
    pred_items s items acc
    = {| yielded := yielded acc ++ new; logged := logged acc; raised := None |} ∧
    Forall2 (emitted_for s) new (pairs_of items).
Proof.
  induction items as [|[q ds] items IH]; intros acc Hacc Hrel Hok.
  - exists []. simpl. rewrite app_nil_r. split; [|constructor].
    destruct acc; simpl in *; by subst.
  - destruct (Hrel (q, ds)) as [rel Hq]; [apply elem_of_cons; by left|]. simpl in Hq.
    destruct (pred_docs_all s q rel ds acc Hq) as (new1 & Heq1 & Hall1).
    { intros d Hd. apply (Hok (q, d)). unfold pairs_of. simpl.
      apply elem_of_app. left. by apply list_elem_of_fmap_2. }
    cbn [pred_items]. rewrite Heq1. cbn [raised]. rewrite Hacc.
    destruct (IH {| yielded := yielded acc ++ new1; logged := logged acc;
                    raised := None |}) as (new2 & Heq2 & Hall2); [done | |  |].
    { intros e He. apply Hrel. apply elem_of_cons; by right. }
    { intros p lbl Hp. apply Hok. unfold pairs_of. simpl.
      apply elem_of_app. by right. }
    exists (new1 ++ new2). split.
    + rewrite Heq2. simpl. by rewrite <- app_assoc.
    + unfold pairs_of. simpl. by apply Forall2_app.
Qed.

(** A missing document ends the prediction generator on the spot. *)
Lemma pred_docs_missing s qid rel docid docids acc mq md :
  dict_get qid (qid_to_reldocs s) = Some rel →
  id2vec qid docid None (pred_label rel docid) = Raised (MissingDocError mq md) →
  pred_docs s qid (docid :: docids) acc
  = gen_raise (gen_log acc (LogNoneFeatures qid docid)) (MissingDocError mq md).
Proof.
  intros Hrel Hraise. simpl. rewrite Hrel.
  unfold pred_label in Hraise. by rewrite Hraise.
Qed.

(** The triplet loop never ends on a missing document. *)
Lemma choose_not_missing d qid g e g' :
  choose d qid g = (Raised e, g') → is_missing_doc e = false.
Proof.
  unfold choose, choice. destruct (dict_get qid d) as [docs|]; [|by intros [= <- _]].
  destruct docs as [|x docs]; [by intros [= <- _]|].
  destruct (randbelow _ g) as [j g1]. destruct (_ !! j); [done|].
  by intros [= <- _].
Qed.

Lemma triplet_qids_not_missing s qids : ∀ g acc e,
  (∀ e0, raised acc = Some e0 → is_missing_doc e0 = false) →
  raised (triplet_qids s qids g acc).1 = Some e → is_missing_doc e = false.
Proof.
  induction qids as [|qid qids IH]; intros g acc e Hacc; simpl; [by apply Hacc|].
  destruct (choose (qid_to_reldocs s) qid g) as [[pos|e1] g1] eqn:H1.
  2:{ simpl. intros [= <-]. by eapply choose_not_missing. }
  destruct (choose (qid_to_negdocs s) qid g1) as [[neg|e2] g2] eqn:H2.
  2:{ simpl. intros [= <-]. by eapply choose_not_missing. }
  destruct (id2vec qid pos (Some neg) [1%Z; 0%Z]) as [inst|e3] eqn:H3.
  - apply IH. simpl. exact Hacc.
  - destruct (is_missing_doc e3) eqn:Hm.
    + apply IH. simpl. exact Hacc.
    + simpl. by intros [= <-].
Qed.

Lemma triplet_rounds_not_missing s rounds : ∀ all_qids g acc e,
  (∀ e0, raised acc = Some e0 → is_missing_doc e0 = false) →
  raised (triplet_rounds s rounds all_qids g acc).1 = Some e → is_missing_doc e = false.
Proof.
  induction rounds as [|rounds IH]; intros all_qids g acc e Hacc; simpl; [by apply Hacc|].
  destruct (shuffle all_qids g) as [qs g1].
  destruct (triplet_qids s qs g1 acc) as [acc' g2] eqn:Hq.
  assert (Hacc' : ∀ e0, raised acc' = Some e0 → is_missing_doc e0 = false).
  { intros e0 He0. eapply (triplet_qids_not_missing s qs g1 acc); [done|].
    by rewrite Hq. }
  destruct (raised acc') as [e1|] eqn:Hr.
  - simpl. rewrite Hr. intros [= <-]. by apply Hacc'.
  - apply IH. intros e0. by rewrite Hr.
Qed.

End generator_facts.

Section sampler_theorems.
Import Sampler SamplerSpec Examples.

Lemma pool1_keys_NoDup : NoDup pool1.*1.
Proof. apply (bool_decide_unpack _). vm_compute. exact I. Qed.

Lemma prepare_pool1 :
  prepare pool1 qrels1 1
  = Returned (sampler1, [LogRemovingQid "q2" 1 0]).
Proof. vm_compute. reflexivity. Qed.

Lemma prepare_keeps_valid_queries_witness :
  NoDup pool1.*1 ∧
  ∃ s log,
    prepare pool1 qrels1 1 = Returned (s, log) ∧
    (∀ qid, qid ∈ dict_keys (qid_to_docids s) →
       ∃ rel neg,
         dict_get qid (qid_to_reldocs s) = Some rel ∧
         dict_get qid (qid_to_negdocs s) = Some neg ∧
         1 ≤ length rel ∧ 1 ≤ length neg) ∧
    get_total_samples s = 1 + triple_count (qid_to_reldocs s) (qid_to_negdocs s).
Proof.
  split; [exact pool1_keys_NoDup|].
  destruct (prepare_keeps_valid_queries pool1 qrels1 1 pool1_keys_NoDup)
    as (s & log & Hp & _ & _ & Hq & Ht).
  exists s, log. split_and!; [done| |done].
  intros qid Hin. destruct (Hq qid Hin) as (ds & jd & rel & neg & H); exists rel, neg.
  tauto.
Defined.

(** C2 (as amended).  The prediction sampler makes one finite pass over
    the candidate lists, taken whole (not relevance-filtered), of the
    queries that [prepare] retains, i.e. the judged queries with at
    least one relevant and one non-relevant candidate: when the
    extractor has features for these candidates, the generator ends
    without an exception and has emitted exactly one instance per
    (query id, doc id) occurrence, in order, labelled [0,1] if the doc id
    is in the query's relevant set and [1,0] otherwise. *)
Theorem pred_sampler_single_pass {Inst} {X : Extractor Inst} pool
    (qrels : gmap string (gmap string Z)) lvl :
  NoDup pool.*1 →
  (∀ p lbl, p ∈ pairs_of (retained pool qrels lvl) →
            ∃ inst, id2vec p.1 p.2 None lbl = Returned inst) →
  ∃ s log,
    prepare pool qrels lvl = Returned (s, log) ∧
    qid_to_docids s = retained pool qrels lvl ∧
    get_qid_docid_pairs s = pairs_of (retained pool qrels lvl) ∧
    raised (pred_generate_samples s) = None ∧
    Forall2 (λ inst p,
               id2vec p.1 p.2 None
                 (if decide (p.2 ∈ relevant_set s p.1) then [0; 1]%Z else [1; 0]%Z)
               = Returned inst)
      (yielded (pred_generate_samples s)) (pairs_of (retained pool qrels lvl)).
Proof.
  intros Hnd Hok. destruct (prepare_returns qrels lvl pool Hnd) as [log Hprep].
  eexists _, log. split; [exact Hprep|].
  set (s := {| qid_to_docids := retained pool qrels lvl |}).
  split; [done|]. split; [done|].
  destruct (pred_items_all s (retained pool qrels lvl) gen_start) as (new & Heq & Hall).
  - done.
  - intros [q ds] He. simpl. unfold s. cbn [qid_to_reldocs]. unfold rel_side.
    rewrite dict_get_side.
    rewrite (dict_get_elem q ds); [by eexists| by apply retained_NoDup | done].
  - exact Hok.
  - unfold pred_generate_samples. cbn [qid_to_docids s]. fold s.
    rewrite Heq. simpl. split; [done|]. exact Hall.
Qed.

Lemma pred_sampler_single_pass_witness :
  NoDup pool1.*1 ∧
  ∃ s log,
    prepare pool1 qrels1 1 = Returned (s, log) ∧
    raised (pred_generate_samples (X := echo) s) = None ∧
    yielded (pred_generate_samples (X := echo) s)
    = [("q1", "d1", None, [0; 1]%Z); ("q1", "d2", None, [1; 0]%Z)].
Proof.
  split; [exact pool1_keys_NoDup|].
  destruct (pred_sampler_single_pass (X := echo) pool1 qrels1 1 pool1_keys_NoDup)
    as (s & log & Hp & _ & _ & Hr & _).
  { intros p lbl _. eexists. reflexivity. }
  exists s, log. split_and!; [done..|].
  rewrite prepare_pool1 in Hp. injection Hp as <- _. vm_compute. reflexivity.
Defined.

(** C2 (as stated) fails: (q2, d1) and (q3, d3) are pairs of the
    candidate pool passed to [prepare], yet the generator emits only the
    two instances of q1, so the emitted instances are not in one-to-one
    correspondence with the pairs of the pool. *)
Lemma pred_sampler_skips_dropped_queries :
  ¬ ∃ s log,
      prepare pool1 qrels1 1 = Returned (s, log) ∧
      Forall2 (λ inst p,
                 id2vec (Extractor := echo) p.1 p.2 None
                   (if decide (p.2 ∈ relevant_set s p.1) then [0; 1]%Z else [1; 0]%Z)
                 = Returned inst)
        (yielded (pred_generate_samples (X := echo) s)) (pairs_of pool1).
Proof.
  intros (s & log & Hp & Hall).
  rewrite prepare_pool1 in Hp. injection Hp as <- _.
  apply Forall2_length in Hall. vm_compute in Hall. discriminate.
Qed.

End sampler_theorems.

Section missing_doc_theorems.
Import Sampler SamplerSpec Examples MoreExamples.

(** C8.  The two policies, each under its own condition.  Training:
    whenever the extractor raises MissingDocError for the triple drawn
    for a query, the triplet sampler logs a warning, yields nothing for
    that triple and goes on with the next query of the round; and no
    number of rounds of the triplet generator ends with a
    MissingDocError.  Prediction: whenever the extractor raises
    MissingDocError for a candidate, the prediction sampler logs an
    error and the generator ends with that very exception, the
    remaining candidates and queries being left unvisited. *)
Theorem missing_doc_policy {Inst} {X : Extractor Inst} (s : sampler) :
  (∀ qid qids posdocid negdocid g g1 g2 (acc : generated Inst) mq md,
     choose (qid_to_reldocs s) qid g = (Returned posdocid, g1) →
     choose (qid_to_negdocs s) qid g1 = (Returned negdocid, g2) →
     id2vec qid posdocid (Some negdocid) [1; 0]%Z = Raised (MissingDocError mq md) →
     triplet_qids s (qid :: qids) g acc
     = triplet_qids s qids g2
         (gen_log acc (LogSkippingTrainingPair qid posdocid negdocid))) ∧
  (∀ rounds seeded e,
     raised (triplet_generate_samples s seeded rounds).1 = Some e →
     is_missing_doc e = false) ∧
  (∀ qid rel docid docids items (acc : generated Inst) mq md,
     dict_get qid (qid_to_reldocs s) = Some rel →
     id2vec qid docid None (if decide (docid ∈ rel) then [0; 1]%Z else [1; 0]%Z)
       = Raised (MissingDocError mq md) →
     pred_docs s qid (docid :: docids) acc
       = gen_raise (gen_log acc (LogNoneFeatures qid docid)) (MissingDocError mq md) ∧
     pred_items s ((qid, docid :: docids) :: items) acc
       = gen_raise (gen_log acc (LogNoneFeatures qid docid)) (MissingDocError mq md)).
Proof.
  split_and!.
  - intros qid qids posdocid negdocid g g1 g2 acc mq md Hpos Hneg Htriple.
    cbn [triplet_qids]. by rewrite Hpos, Hneg, Htriple.
  - intros rounds seeded e. unfold triplet_generate_samples.
    destruct (decide (length _ = 0)); [simpl; intros [= <-]; done|].
    by apply triplet_rounds_not_missing.
  - intros qid rel docid docids items acc mq md Hrel Hpair.
    pose proof (pred_docs_missing s qid rel docid docids acc mq md Hrel Hpair) as Hdocs.
    split; [exact Hdocs|].
    cbn [pred_items]. by rewrite Hdocs.
Qed.

(** The triplet part on the passage extractor with a negative document
    stored without passages, the prediction part on an extractor that
    lacks a candidate. *)
Lemma missing_doc_policy_witness :
  triplet_qids (X := BertPassage.bertpassage_extractor vocab extractor_d2_empty) sampler1
      ["q1"; "q1"] [0; 0; 0; 0] gen_start
    = ({| yielded := [];
          logged := [LogSkippingTrainingPair "q1" "d1" "d2";
                     LogSkippingTrainingPair "q1" "d1" "d2"];
          raised := None |}, []) ∧
  pred_generate_samples (X := lacking "d2") sampler1
    = {| yielded := [("q1", "d1", None, [0; 1]%Z)];
         logged := [LogNoneFeatures "q1" "d2"];
         raised := Some (MissingDocError "q1" "d2") |}.
Proof.
  split.
  - destruct (missing_doc_policy (X := BertPassage.bertpassage_extractor vocab extractor_d2_empty)
                sampler1) as (Ht & _ & _).
    rewrite (Ht "q1" ["q1"] "d1" "d2" [0; 0; 0; 0] [0; 0; 0] [0; 0] gen_start "q1" "d2");
      [|reflexivity..].
    rewrite (Ht "q1" [] "d1" "d2" [0; 0] [0] [] _ "q1" "d2"); [|reflexivity..].
    reflexivity.
  - destruct (missing_doc_policy (X := lacking "d2") sampler1) as (_ & _ & Hp).
    destruct (Hp "q1" ["d1"] "d2" [] []
                {| yielded := [("q1", "d1", None, [0; 1]%Z)]; logged := [];
                   raised := None |} "q1" "d2") as [_ Hitems]; [reflexivity..|].
    unfold pred_generate_samples. etrans; [|exact Hitems]. vm_compute. reflexivity.
Defined.

End missing_doc_theorems.

(* ===================================================================== *)
(** ** The [random] module                                                *)
(* ===================================================================== *)

Lemma randbelow_lt n g : 0 < n → (randbelow n g).1 < n.
Proof.
  intros Hn. destruct g as [|r g]; simpl; [done|].
  apply Nat.mod_upper_bound. lia.
Qed.

(** [random.sample] returns k elements taken at distinct positions. *)
Lemma sample_loop_spec {A} k : ∀ (pool : list A) g,
  k ≤ length pool →
  length (sample_loop k pool g).1 = k ∧
  ∃ rest, (sample_loop k pool g).1 ++ rest ≡ₚ pool.
Proof.
  induction k as [|k IH]; intros pool g Hk.
  - simpl. split; [done|]. by exists pool.
  - simpl. pose proof (randbelow_lt (length pool) g ltac:(lia)) as Hj.
    destruct (randbelow (length pool) g) as [j g1]. simpl in Hj.
    destruct (pool !! j) as [x|] eqn:Hx.
    2:{ apply lookup_ge_None in Hx. lia. }
    assert (Hlen : length (delete j pool) = length pool - 1).
    { apply length_delete. by eexists. }
    destruct (IH (delete j pool) g1 ltac:(lia)) as (Hl & rest & Hperm).
    destruct (sample_loop k (delete j pool) g1) as [r g2]. simpl in *.
    split; [by rewrite Hl|]. exists rest.
    rewrite Hperm. symmetry. by apply delete_Permutation.
Qed.

Lemma sample_spec {A} (population : list A) k g :
  k ≤ length population →
  ∃ r g', sample population k g = (Returned r, g') ∧ length r = k ∧
          ∃ rest, r ++ rest ≡ₚ population.
Proof.
  intros Hk. unfold sample. rewrite decide_True by done.
  pose proof (sample_loop_spec k population g Hk) as (Hl & Hrest).
  destruct (sample_loop k population g) as [r g']. eauto.
Qed.

(* ===================================================================== *)
(** ** BertPassage.get_passages_for_doc                                   *)
(* ===================================================================== *)

Section passages_facts.
Import BertPassage BertPassageSpec.
Variable tokenize : string → list string.

Lemma range_from_below fuel : ∀ start stop step,
  Forall (λ i, i < stop) (range_from fuel start stop step).
Proof.
  induction fuel as [|fuel IH]; intros start stop step; cbn [range_from]; [constructor|].
  destruct (decide (start < stop)); constructor; [done | apply IH].
Qed.

Lemma range0_short stop step : 0 < stop → stop ≤ step → range0 stop step = [0].
Proof.
  intros H0 Hs. unfold range0. destruct stop as [|stop]; [lia|].
  cbn [range_from]. rewrite decide_True by lia. f_equal.
  destruct stop; cbn [range_from]; [done|]. rewrite decide_False by lia. done.
Qed.

(** Inside the loop the guard [i >= len(doc)] never holds, so neither
    the [break] nor the assertion next to it is reached. *)
Lemma passages_loop_in_range c doc idxs : ∀ passages,
  Forall (λ i, i < length doc) idxs →
  passages_loop tokenize c doc idxs passages
  = Returned (passages ++ (window tokenize c doc <$> idxs)).
Proof.
  induction idxs as [|i idxs IH]; intros passages Hall; simpl.
  - by rewrite app_nil_r.
  - apply Forall_cons in Hall as [Hi Hall].
    rewrite decide_False by lia. rewrite IH by done.
    by rewrite <- app_assoc.
Qed.

Lemma passages_loop_real c doc :
  passages_loop tokenize c doc (range0 (length doc) (stride c)) []
  = Returned (real_passages tokenize c doc).
Proof.
  rewrite passages_loop_in_range; [done|]. apply range_from_below.
Qed.

Lemma keep_first_last_spec c (real : list (list string)) g :
  2 ≤ numpassages c → numpassages c < length real →
  ∃ first final middle rest g',
    keep_first_last c real g = (Returned ([first] ++ middle ++ [final]), g') ∧
    head real = Some first ∧ last real = Some final ∧
    length middle = numpassages c - 2 ∧
    middle ++ rest ≡ₚ interior real.
Proof.
  intros Hnp Hn. unfold keep_first_last.
  destruct real as [|first tl] eqn:Hreal; [simpl in Hn; lia|].
  rewrite <- Hreal in *. assert (Hhead : head real = Some first) by by rewrite Hreal.
  rewrite Hhead. rewrite decide_False by lia.
  assert (Hlen : numpassages c - 2 ≤ length (slice real 1 (length real - 1))).
  { unfold slice. rewrite length_take, length_drop. lia. }
  destruct (sample_spec (slice real 1 (length real - 1)) (numpassages c - 2) g Hlen)
    as (middle & g' & -> & Hmid & rest & Hperm).
  destruct (last real) as [final|] eqn:Hlast.
  2:{ apply last_None in Hlast. congruence. }
  exists first, final, middle, rest, g'. done.
Qed.

(** C3.  For the empty document the loop over [range(0, 0, stride)] has
    no pass, so the assertion inside it is not evaluated: the function
    returns [numpassages] padding passages (or fails on a zero stride
    with the ValueError of [range]); it does not raise an
    AssertionError. *)
Theorem empty_document_is_padded c g :
  get_passages_for_doc tokenize c [] g
  = (if decide (stride c = 0) then Raised ValueError
     else Returned (replicate (numpassages c) [pad_tok]), g).
Proof.
  unfold get_passages_for_doc. destruct (decide (stride c = 0)); [done|].
  simpl. rewrite Nat.sub_0_r.
  by rewrite decide_True by apply length_replicate.
Qed.

(** C5 (as amended).  With a positive stride and [numpassages >= 2],
    for every non-empty document [get_passages_for_doc] returns exactly
    [numpassages] passages.  When the document yields more real passages
    than that, the list is the first real passage, then [numpassages - 2]
    passages taken at distinct positions of the interior, then the last
    real passage.  Otherwise it is the real passages followed by
    padding passages; in particular a document of at most [stride]
    words gives one real passage followed by [numpassages - 1] padding
    passages. *)
Theorem get_passages_for_doc_shape c doc g :
  stride c ≠ 0 → 2 ≤ numpassages c → doc ≠ [] →
  ∃ passages g',
    get_passages_for_doc tokenize c doc g = (Returned passages, g') ∧
    length passages = numpassages c ∧
    (numpassages c < length (real_passages tokenize c doc) →
       ∃ first final middle rest,
         head (real_passages tokenize c doc) = Some first ∧
         last (real_passages tokenize c doc) = Some final ∧
         passages = [first] ++ middle ++ [final] ∧
         length middle = numpassages c - 2 ∧
         middle ++ rest ≡ₚ interior (real_passages tokenize c doc)) ∧
    (length (real_passages tokenize c doc) ≤ numpassages c →
       passages = real_passages tokenize c doc ++
                  replicate (numpassages c - length (real_passages tokenize c doc))
                    [pad_tok]) ∧
    (length doc ≤ stride c →
       passages = window tokenize c doc 0 :: replicate (numpassages c - 1) [pad_tok]).
Proof.
  intros Hstride Hnp Hdoc.
  assert (Hshort : length doc ≤ stride c → real_passages tokenize c doc = [window tokenize c doc 0]).
  { intros Hle. unfold real_passages. rewrite range0_short; [done| |done].
    destruct doc; [done | simpl; lia]. }
  unfold get_passages_for_doc. rewrite decide_False by done.
  rewrite passages_loop_real.
  destruct (decide (numpassages c < length (real_passages tokenize c doc))) as [Hmany|Hfew].
  - destruct (keep_first_last_spec c (real_passages tokenize c doc) g Hnp Hmany)
      as (first & final & middle & rest & g' & -> & Hhead & Hlast & Hmid & Hperm).
    assert (Hlen : length ([first] ++ middle ++ [final]) = numpassages c).
    { simpl. rewrite length_app. simpl. lia. }
    rewrite decide_True by done.
    eexists _, g'. split_and!; [done|done| |lia|].
    + intros _. exists first, final, middle, rest. done.
    + intros Hle. rewrite Hshort in Hmany by done. simpl in Hmany. lia.
  - assert (Hlen : length (real_passages tokenize c doc ++
               replicate (numpassages c - length (real_passages tokenize c doc)) [pad_tok])
             = numpassages c).
    { rewrite length_app, length_replicate. lia. }
    rewrite decide_True by done.
    eexists _, g. split_and!; [done|done|lia|done|].
    intros Hle. by rewrite Hshort.
Qed.

(** Whatever the document, the function never ends on one of its two
    assertions: the first is out of reach, the second always holds
    where it is evaluated. *)
Lemma get_passages_for_doc_no_assertion c doc g :
  (get_passages_for_doc tokenize c doc g).1 ≠ Raised AssertionError.
Proof.
  unfold get_passages_for_doc. destruct (decide (stride c = 0)); [done|].
  rewrite passages_loop_real.
  destruct (decide (numpassages c < length (real_passages tokenize c doc))) as [Hmany|Hfew].
  - unfold keep_first_last.
    destruct (head (real_passages tokenize c doc)) as [first|]; [|done].
    destruct (decide (numpassages c < 2)); [done|].
    unfold sample. destruct (decide _) as [Hk|]; [|done].
    pose proof (sample_loop_spec (numpassages c - 2)
                  (slice (real_passages tokenize c doc) 1
                     (length (real_passages tokenize c doc) - 1)) g Hk) as [Hlen _].
    destruct (sample_loop _ _ g) as [middle g']. simpl in Hlen.
    destruct (last (real_passages tokenize c doc)) as [final|]; [|done].
    rewrite decide_True; [done|].
    simpl. rewrite length_app. simpl. lia.
  - rewrite decide_True; [done|]. rewrite length_app, length_replicate. lia.
Qed.

(** What is returned has [numpassages] passages, and so has every entry
    of the passage store that [_build_vocab] fills. *)
Lemma get_passages_for_doc_length c doc g passages g' :
  get_passages_for_doc tokenize c doc g = (Returned passages, g') →
  length passages = numpassages c.
Proof.
  unfold get_passages_for_doc. destruct (decide (stride c = 0)); [done|].
  destruct (passages_loop _ _ _ _ _) as [real|]; [|done].
  destruct (if decide (numpassages c < length real) then _ else _) as [[chosen|] g1];
    [|done].
  destruct (decide (length chosen = numpassages c)); [|done].
  by intros [= <- _].
Qed.

Lemma build_passages_length c get_doc docids : ∀ acc g acc' g',
  (∀ docid ps, acc !! docid = Some ps → length ps = numpassages c) →
  build_passages tokenize c get_doc docids acc g = (Returned acc', g') →
  ∀ docid ps, acc' !! docid = Some ps → length ps = numpassages c.
Proof.
  induction docids as [|docid0 docids IH]; intros acc g acc' g' Hacc; simpl.
  - by intros [= <- _].
  - destruct (get_passages_for_doc tokenize c (get_doc docid0) g)
      as [[passages|] g1] eqn:Hget; [|done].
    apply IH. intros docid ps.
    destruct (decide (docid0 = docid)) as [->|Hne].
    + rewrite lookup_insert_eq. intros [= <-].
      by eapply get_passages_for_doc_length.
    + rewrite lookup_insert_ne by done. apply Hacc.
Qed.

End passages_facts.

(* ===================================================================== *)
(** ** BertPassage.id2vec                                                 *)
(* ===================================================================== *)

Section id2vec_facts.
Import BertPassage BertPassageSpec.
Variable tokenize : string → list string.
Variable token_id : string → Z.

Lemma raw_input_line_length q p :
  length (raw_input_line q p) = length q + length p + 3.
Proof. unfold raw_input_line. simpl. rewrite !length_app. simpl. rewrite length_app. simpl. lia. Qed.

Lemma set_last {A} (l : list A) x :
  l ≠ [] → <[length l - 1 := x]> l = take (length l - 1) l ++ [x].
Proof.
  intros Hl. assert (0 < length l) by (destruct l; [done | simpl; lia]).
  rewrite insert_take_drop by lia. f_equal. f_equal.
  apply drop_ge. lia.
Qed.

Lemma truncate_line_spec c q p :
  1 ≤ maxseqlen c →
  truncate_line c (raw_input_line q p) = Returned (final_line c q p).
Proof.
  intros Hm. unfold truncate_line, final_line.
  destruct (decide (maxseqlen c < length (raw_input_line q p))) as [Hlong|]; [|done].
  assert (Hlen : length (take (maxseqlen c) (raw_input_line q p)) = maxseqlen c).
  { rewrite length_take. lia. }
  destruct (take (maxseqlen c) (raw_input_line q p)) as [|t cut] eqn:Hcut.
  { simpl in Hlen. lia. }
  rewrite <- Hcut. rewrite set_last by (rewrite Hcut; done).
  rewrite <- Hcut in Hlen. rewrite Hlen, take_take. do 3 f_equal. lia.
Qed.

Lemma final_line_length c q p :
  1 ≤ maxseqlen c →
  length (final_line c q p) = length (raw_input_line q p) `min` maxseqlen c.
Proof.
  intros Hm. unfold final_line. destruct (decide _).
  - rewrite length_app, length_take. change (length ["[SEP]"]) with 1. lia.
  - lia.
Qed.

Lemma encode_passage_spec c q p :
  1 ≤ maxseqlen c →
  encode_passage token_id c q p
  = Returned (ids_row token_id c q p, mask_row c q p, seg_row c q).
Proof.
  intros Hm. unfold encode_passage. rewrite truncate_line_spec by done.
  pose proof (final_line_length c q p Hm) as Hlen.
  assert (Hpad : length (padlist (final_line c q p) (maxseqlen c) pad_tok) = maxseqlen c).
  { unfold padlist. rewrite length_app, length_replicate. lia. }
  rewrite Hpad. unfold ids_row, mask_row, seg_row, convert_tokens_to_ids, padlist.
  by rewrite Hlen.
Qed.

Lemma encode_passages_spec c q ps :
  1 ≤ maxseqlen c →
  encode_passages token_id c q ps
  = Returned (ids_row token_id c q <$> ps, mask_row c q <$> ps,
              (λ _, seg_row c q) <$> ps).
Proof.
  intros Hm. induction ps as [|p ps IH]; [done|].
  cbn [encode_passages]. rewrite encode_passage_spec by done. by rewrite IH.
Qed.

Lemma ids_row_length c q p : 1 ≤ maxseqlen c → length (ids_row token_id c q p) = maxseqlen c.
Proof.
  intros Hm. unfold ids_row. rewrite length_fmap, length_app, length_replicate.
  rewrite final_line_length by done. lia.
Qed.

Lemma mask_row_length c q p : length (mask_row c q p) = maxseqlen c.
Proof. unfold mask_row. rewrite length_app, !length_replicate. lia. Qed.

Lemma seg_row_length c q : length (seg_row c q) = maxseqlen c `max` (length q + 2).
Proof. unfold seg_row. rewrite length_app, !length_replicate. lia. Qed.

Lemma sumZ_replicate n (v : Z) : sumZ (replicate n v) = (Z.of_nat n * v)%Z.
Proof. induction n as [|n IH]; simpl; [done|]. rewrite IH. lia. Qed.

Lemma sumZ_app l1 l2 : sumZ (l1 ++ l2) = (sumZ l1 + sumZ l2)%Z.
Proof. induction l1 as [|a l1 IH]; simpl; [done|]. rewrite IH. lia. Qed.

Lemma mask_row_sum c q p :
  sumZ (mask_row c q p)
  = Z.of_nat (length (raw_input_line q p) `min` maxseqlen c).
Proof. unfold mask_row. rewrite sumZ_app, !sumZ_replicate. lia. Qed.

Lemma has_shape_fmap {A} (f : A → list Z) (l : list A) n :
  (∀ a, length (f a) = n) → has_shape (f <$> l) (length l) n.
Proof.
  intros Hf. split; [by rewrite length_fmap|].
  apply Forall_fmap, Forall_forall. intros a _. apply Hf.
Qed.

Lemma has_shape_zeros rows cols : has_shape (np_zeros rows cols) rows cols.
Proof.
  split; [apply length_replicate|].
  apply Forall_replicate. apply length_replicate.
Qed.

Lemma count_nonzero_zeros rows cols : Reranker.count_nonzero (np_zeros rows cols) = 0.
Proof.
  unfold Reranker.count_nonzero, np_zeros.
  induction rows as [|rows IH]; [done|].
  simpl. rewrite filter_app, length_app, IH, Nat.add_0_r.
  clear IH. induction cols as [|cols IH]; [done|].
  simpl. rewrite filter_cons_False by (intros H; by apply H). exact IH.
Qed.

End id2vec_facts.

Section passages_examples.
Import BertPassage BertPassageSpec Examples.

Lemma get_passages_for_doc_shape_witness :
  stride small_config ≠ 0 ∧ 2 ≤ numpassages small_config ∧ doc9 ≠ [] ∧
  ∃ passages g',
    get_passages_for_doc whole_passage small_config doc9 [7; 7] = (Returned passages, g') ∧
    length passages = numpassages small_config ∧
    head passages = Some ["a b c"] ∧ last passages = Some ["i"].
Proof.
  assert (H1 : stride small_config ≠ 0) by (simpl; lia).
  assert (H2 : 2 ≤ numpassages small_config) by (simpl; lia).
  assert (H3 : doc9 ≠ []) by done.
  split_and!; [done..|].
  destruct (get_passages_for_doc_shape whole_passage small_config doc9 [7; 7] H1 H2 H3)
    as (passages & g' & Hget & Hlen & _).
  exists passages, g'. split_and!; [done..| |].
  - vm_compute in Hget. by injection Hget as <- _.
  - vm_compute in Hget. by injection Hget as <- _.
Defined.

(** C5 (as stated) fails: a document of 120 words is shorter than one
    window of 150 words, yet with the default stride of 100 it has a
    second real passage, starting at word 100; the result is not one
    real passage followed by 15 padding passages. *)
Lemma window_shorter_document_two_passages :
  length doc120 < passagelen default_config ∧
  ¬ ∃ real g',
      get_passages_for_doc whole_passage default_config doc120 []
      = (Returned (real :: replicate (numpassages default_config - 1) [pad_tok]), g').
Proof.
  split; [vm_compute; lia|].
  intros (real & g' & H). vm_compute in H. congruence.
Qed.

(** With [numpassages = 1] a document of two real passages makes
    [random.sample] fail: the sample size would be -1. *)
Lemma single_passage_config_raises :
  get_passages_for_doc whole_passage single_config ["a"; "b"; "c"] []
  = (Raised ValueError, []).
Proof. reflexivity. Qed.

Lemma range0_examples :
  range0 5 2 = [0; 2; 4] ∧ range0 4 2 = [0; 2] ∧ range0 120 100 = [0; 100] ∧
  range0 0 100 = [].
Proof. split_and!; reflexivity. Qed.

End passages_examples.

Section id2vec_theorems.
Import BertPassage BertPassageSpec Examples.
Variable token_id : string → Z.

(** The shapes and contents of what [id2vec] returns for a triple.  For
    a query, a positive and a negative document known to the extractor,
    each stored with [numpassages >= 1] passages, and [maxseqlen >= 1],
    [id2vec] returns token-id and mask tensors of shape [numpassages,
    maxseqlen] and segment tensors of shape [numpassages,
    max(maxseqlen, len(query) + 2)], which is [numpassages, maxseqlen]
    when the query with its two special tokens fits into [maxseqlen].
    The token row of a passage is the line [CLS] + query + [SEP] +
    passage + [SEP], cut to [maxseqlen] with [SEP] as its last token
    when it is longer, right-padded otherwise; the sum of its mask row
    is min(length of the uncut line, maxseqlen). *)
Theorem id2vec_triple_shapes (x : extractor) qid posid negid lbl
    query_toks pos_passages neg_passages :
  1 ≤ maxseqlen (cfg x) →
  1 ≤ numpassages (cfg x) →
  qid2toks x !! qid = Some query_toks →
  docid2passages x !! posid = Some pos_passages →
  length pos_passages = numpassages (cfg x) →
  negid ≠ "" →
  docid2passages x !! negid = Some neg_passages →
  length neg_passages = numpassages (cfg x) →
  ∃ d,
    id2vec token_id x qid posid (Some negid) (Some lbl) = Returned d ∧
    has_shape (posdoc d) (numpassages (cfg x)) (maxseqlen (cfg x)) ∧
    has_shape (posdoc_mask d) (numpassages (cfg x)) (maxseqlen (cfg x)) ∧
    has_shape (negdoc d) (numpassages (cfg x)) (maxseqlen (cfg x)) ∧
    has_shape (negdoc_mask d) (numpassages (cfg x)) (maxseqlen (cfg x)) ∧
    has_shape (posdoc_seg d) (numpassages (cfg x))
      (maxseqlen (cfg x) `max` (length query_toks + 2)) ∧
    has_shape (negdoc_seg d) (numpassages (cfg x))
      (maxseqlen (cfg x) `max` (length query_toks + 2)) ∧
    (length query_toks + 2 ≤ maxseqlen (cfg x) →
       has_shape (posdoc_seg d) (numpassages (cfg x)) (maxseqlen (cfg x)) ∧
       has_shape (negdoc_seg d) (numpassages (cfg x)) (maxseqlen (cfg x))) ∧
    posdoc d = ids_row token_id (cfg x) query_toks <$> pos_passages ∧
    negdoc d = ids_row token_id (cfg x) query_toks <$> neg_passages ∧
    Forall2 (λ row p, sumZ row
               = Z.of_nat (length (raw_input_line query_toks p) `min` maxseqlen (cfg x)))
      (posdoc_mask d) pos_passages ∧
    Forall2 (λ row p, sumZ row
               = Z.of_nat (length (raw_input_line query_toks p) `min` maxseqlen (cfg x)))
      (negdoc_mask d) neg_passages.
Proof.
  intros Hm Hnp Hq Hpos Hposlen Hneg Hnegdoc Hneglen.
  unfold id2vec. rewrite Hq, Hpos. rewrite encode_passages_spec by done.
  unfold truthy. rewrite decide_False by done. rewrite Hnegdoc.
  rewrite encode_passages_spec by done.
  destruct neg_passages as [|np0 nps] eqn:Hnps; [simpl in Hneglen; lia|].
  rewrite <- Hnps in *. clear Hnps.
  destruct (ids_row token_id (cfg x) query_toks <$> neg_passages) as [|r0 rs] eqn:Hids.
  { apply fmap_nil_inv in Hids. subst. simpl in Hneglen. lia. }
  rewrite <- Hids. eexists. split; [reflexivity|].
  cbn [posdoc posdoc_mask posdoc_seg negdoc negdoc_mask negdoc_seg].
  assert (Hseg : ∀ ps : list (list string), length ps = numpassages (cfg x) →
            has_shape ((λ _, seg_row (cfg x) query_toks) <$> ps) (numpassages (cfg x))
              (maxseqlen (cfg x) `max` (length query_toks + 2))).
  { intros ps <-. apply has_shape_fmap. intros _. apply seg_row_length. }
  split_and!.
  - rewrite <- Hposlen. apply has_shape_fmap. intros p. by apply ids_row_length.
  - rewrite <- Hposlen. apply has_shape_fmap. intros p. apply mask_row_length.
  - rewrite <- Hneglen. apply has_shape_fmap. intros p. by apply ids_row_length.
  - rewrite <- Hneglen. apply has_shape_fmap. intros p. apply mask_row_length.
  - by apply Hseg.
  - by apply Hseg.
  - intros Hfit.
    pose proof (Hseg pos_passages Hposlen) as Hp.
    pose proof (Hseg neg_passages Hneglen) as Hn.
    rewrite Nat.max_l in Hp, Hn by lia. done.
  - done.
  - done.
  - apply Forall2_fmap_l, Forall_Forall2_diag, Forall_forall.
    intros p _. apply mask_row_sum.
  - apply Forall2_fmap_l, Forall_Forall2_diag, Forall_forall.
    intros p _. apply mask_row_sum.
Qed.

End id2vec_theorems.

Section id2vec_examples.
Import BertPassage BertPassageSpec Examples.

Lemma id2vec_triple_shapes_witness :
  ∃ d,
    id2vec vocab small_extractor "q" "d1" (Some "d2") (Some [1; 0]%Z) = Returned d ∧
    has_shape (posdoc d) 2 6 ∧ has_shape (posdoc_mask d) 2 6 ∧
    has_shape (posdoc_seg d) 2 6 ∧
    has_shape (negdoc d) 2 6 ∧ has_shape (negdoc_mask d) 2 6 ∧
    has_shape (negdoc_seg d) 2 6 ∧
    posdoc d = [[101; 1001; 102; 1001; 102; 0]; [101; 1001; 102; 0; 102; 0]]%Z ∧
    negdoc d = [[101; 1001; 102; 1001; 1001; 102]; [101; 1001; 102; 1001; 102; 0]]%Z.
Proof.
  destruct (id2vec_triple_shapes vocab small_extractor "q" "d1" "d2" [1; 0]%Z
              ["a"] [["x"]; ["[PAD]"]] [["y"; "z"]; ["y"]])
    as (d & Hd & H1 & H2 & H3 & H4 & _ & _ & Hseg & Hpos & Hneg & _);
    [simpl; lia | simpl; lia | reflexivity | reflexivity | reflexivity | done
    | reflexivity | reflexivity |].
  destruct Hseg as [H5 H6]; [simpl; lia|].
  exists d. split_and!; [done..| |].
  - rewrite Hpos. vm_compute. reflexivity.
  - rewrite Hneg. vm_compute. reflexivity.
Defined.

(** C6.  A triple on which the claim fails: with [maxseqlen = 6] and a
    query of five tokens, [id2vec] returns, and the rows of the segment
    tensors have the seven zeros of the query part; their shape is
    [2, 7] and not [numpassages, maxseqlen] = [2, 6], whereas the
    token-id and mask tensors of the same call have shape [2, 6]. *)
Theorem long_query_segment_shape :
  ∃ d,
    id2vec vocab small_extractor "long" "d1" (Some "d2") (Some [1; 0]%Z) = Returned d ∧
    posdoc_seg d = [[0; 0; 0; 0; 0; 0; 0]; [0; 0; 0; 0; 0; 0; 0]]%Z ∧
    negdoc_seg d = [[0; 0; 0; 0; 0; 0; 0]; [0; 0; 0; 0; 0; 0; 0]]%Z ∧
    ¬ has_shape (posdoc_seg d) (numpassages (cfg small_extractor))
        (maxseqlen (cfg small_extractor)) ∧
    ¬ has_shape (negdoc_seg d) (numpassages (cfg small_extractor))
        (maxseqlen (cfg small_extractor)) ∧
    has_shape (posdoc d) 2 6 ∧ has_shape (posdoc_mask d) 2 6.
Proof.
  eexists. split; [vm_compute; reflexivity|].
  split; [reflexivity|]. split; [reflexivity|].
  split_and!.
  - intros [_ Hrows]. apply Forall_cons in Hrows as [Hrow _].
    vm_compute in Hrow. discriminate.
  - intros [_ Hrows]. apply Forall_cons in Hrows as [Hrow _].
    vm_compute in Hrow. discriminate.
  - split; [reflexivity|]. repeat constructor.
  - split; [reflexivity|]. repeat constructor.
Qed.

End id2vec_examples.

Section no_negative_theorems.
Import BertPassage BertPassageSpec Examples.

(** C10.  For a query and a positive document known to the extractor
    (and [maxseqlen >= 1]), [id2vec] called with no negative doc id,
    [None] or the empty string, returns the empty string as [negdocid]
    and all-zero [negdoc], [negdoc_mask] and [negdoc_seg] tensors of
    shape [numpassages, maxseqlen].  [KerasModel.call] scores the
    positive document alone when the negdoc tensor it receives has no
    nonzero entry, and the (positive, negative) pair otherwise; so it
    scores the positive document alone on what [id2vec] returns here. *)
Theorem id2vec_without_negative token_id (x : extractor) qid posid negid lbl
    query_toks pos_passages :
  1 ≤ maxseqlen (cfg x) →
  qid2toks x !! qid = Some query_toks →
  docid2passages x !! posid = Some pos_passages →
  negid = None ∨ negid = Some "" →
  ∃ d,
    id2vec token_id x qid posid negid (Some lbl) = Returned d ∧
    negdocid d = "" ∧
    negdoc d = np_zeros (numpassages (cfg x)) (maxseqlen (cfg x)) ∧
    negdoc_mask d = np_zeros (numpassages (cfg x)) (maxseqlen (cfg x)) ∧
    negdoc_seg d = np_zeros (numpassages (cfg x)) (maxseqlen (cfg x)) ∧
    has_shape (negdoc d) (numpassages (cfg x)) (maxseqlen (cfg x)) ∧
    Forall (Forall (λ v, v = 0%Z)) (negdoc d) ∧
    (∀ (Query Extra S : Type) (model : list (list Z) → Query → list Extra → S)
       posdoc' negdoc' query additional,
       (Reranker.count_nonzero negdoc' = 0 →
          Reranker.call model posdoc' negdoc' query additional
          = Reranker.PosOnly (model posdoc' query additional)) ∧
       (Reranker.count_nonzero negdoc' ≠ 0 →
          Reranker.call model posdoc' negdoc' query additional
          = Reranker.PosAndNeg (model posdoc' query additional)
              (model negdoc' query additional))) ∧
    (∀ (Query Extra S : Type) (model : list (list Z) → Query → list Extra → S)
       query additional,
       Reranker.call model (posdoc d) (negdoc d) query additional
       = Reranker.PosOnly (model (posdoc d) query additional)).
Proof.
  intros Hm Hq Hpos Hneg. unfold id2vec. rewrite Hq, Hpos.
  rewrite encode_passages_spec by done.
  assert (Hfalse : truthy negid = None) by (destruct Hneg as [-> | ->]; done).
  rewrite Hfalse. eexists. split; [reflexivity|].
  cbn [negdocid negdoc negdoc_mask negdoc_seg posdoc].
  split_and!; try done.
  - apply has_shape_zeros.
  - unfold np_zeros. apply Forall_replicate, Forall_replicate. done.
  - intros Query Extra S model posdoc' negdoc' query additional.
    unfold Reranker.call, Reranker.score_pos, Reranker.score_pos_and_neg.
    split; intros Hc; [by rewrite decide_True | by rewrite decide_False].
  - intros Query Extra S model query additional. unfold Reranker.call.
    by rewrite decide_True by apply count_nonzero_zeros.
Qed.

Lemma id2vec_without_negative_witness :
  ∃ d,
    id2vec vocab small_extractor "q" "d1" (Some "") (Some [0; 1]%Z) = Returned d ∧
    negdocid d = "" ∧
    negdoc d = [[0; 0; 0; 0; 0; 0]; [0; 0; 0; 0; 0; 0]]%Z ∧
    Reranker.call (λ doc (_ : unit) (_ : list unit), doc) (posdoc d) (negdoc d) () []
    = Reranker.PosOnly (posdoc d).
Proof.
  destruct (id2vec_without_negative vocab small_extractor "q" "d1" (Some "") [0; 1]%Z
              ["a"] [["x"]; ["[PAD]"]])
    as (d & Hd & Hid & Hz & _ & _ & _ & _ & _ & Hcall);
    [simpl; lia | reflexivity | reflexivity | by right |].
  exists d. split_and!; [done | done | by rewrite Hz | apply Hcall].
Defined.

End no_negative_theorems.

(* ===================================================================== *)
(** ** Reranker.save_weights and Reranker.load_weights                    *)
(* ===================================================================== *)

Section weights_facts.
Import Reranker.
Context {tensor opt_state : Type}.
Implicit Types (m d : gmap string tensor) (w : world tensor opt_state).

Lemma missing_keys_elem m d k :
  k ∈ missing_keys m d ↔
  is_Some (m !! k) ∧ persisted_key k = true ∧ d !! k = None.
Proof.
  unfold missing_keys.
  rewrite elem_of_difference, elem_of_filter, elem_of_dom, not_elem_of_dom.
  rewrite Is_true_true. tauto.
Qed.

Lemma missing_keys_pos m d :
  0 < size (missing_keys m d) ↔ ∃ k, k ∈ missing_keys m d.
Proof.
  split.
  - apply size_pos_elem_of.
  - intros [k Hk]. destruct (decide (size (missing_keys m d) = 0)) as [Hz|]; [|lia].
    apply size_empty_iff in Hz. exfalso.
    apply (not_elem_of_empty (C := gset string) k). by rewrite <- Hz.
Qed.

(** A load that finds both files and no missing key goes through. *)
Lemma load_weights_ok w fn d o :
  weight_files w fn = Some d →
  optimizer_files w fn = Some o →
  (∀ k, is_Some (state_dict w !! k) → persisted_key k = true → is_Some (d !! k)) →
  load_weights fn w
  = (None, {| state_dict := load_state_dict d (state_dict w);
              optimizer := o;
              weight_files := weight_files w;
              optimizer_files := optimizer_files w |}).
Proof.
  intros Hd Ho Hall. unfold load_weights. rewrite Hd.
  rewrite decide_False; [by rewrite Ho|].
  rewrite missing_keys_pos. intros [k Hk].
  apply missing_keys_elem in Hk as (H1 & H2 & H3).
  destruct (Hall k H1 H2) as [v Hv]. congruence.
Qed.

(** C9 (as amended).  [save_weights] writes to the weights file
    exactly the entries of the model's state dict whose key contains
    neither "embedding.weight" nor "_nosave_", with their values, writes
    the optimizer's state to the optimizer file, and leaves model and
    optimizer as they are; this needs nothing on disk.  From a
    checkpoint whose weights file and optimizer file both exist,
    [load_weights] raises if and only if some key of the current model,
    after the same exclusions, is absent from the persisted dict; the
    exception is then the RuntimeError naming the missing keys, and
    model, optimizer and files are left exactly as they were; when it
    does not raise, the model has the persisted values and the optimizer
    the persisted state.  Without the weights file [load_weights]
    raises FileNotFoundError and loads nothing.  With the weights file
    but without the optimizer file it raises in any case: the
    RuntimeError, with nothing loaded, when a key is missing, and
    otherwise FileNotFoundError after the model's parameters have been
    overwritten. *)
Theorem weights_persistence w :
  (∀ fn, ∃ saved,
     weight_files (save_weights fn w) fn = Some saved ∧
     (∀ k v, saved !! k = Some v ↔
             state_dict w !! k = Some v ∧
             contains "embedding.weight" k = false ∧
             contains "_nosave_" k = false) ∧
     optimizer_files (save_weights fn w) fn = Some (optimizer w) ∧
     state_dict (save_weights fn w) = state_dict w ∧
     optimizer (save_weights fn w) = optimizer w) ∧
  (∀ fn d o,
     weight_files w fn = Some d →
     optimizer_files w fn = Some o →
     (is_Some (load_weights fn w).1 ↔
      ∃ k, is_Some (state_dict w !! k) ∧
           contains "embedding.weight" k = false ∧
           contains "_nosave_" k = false ∧
           d !! k = None) ∧
     (∀ e, (load_weights fn w).1 = Some e →
           e = RuntimeError "loading state_dict with keys that do not match current model"
                 (missing_keys (state_dict w) d) ∧
           (load_weights fn w).2 = w) ∧
     ((load_weights fn w).1 = None →
      (load_weights fn w).2
      = {| state_dict := load_state_dict d (state_dict w);
           optimizer := o;
           weight_files := weight_files w;
           optimizer_files := optimizer_files w |})) ∧
  (∀ fn, weight_files w fn = None →
         load_weights fn w = (Some (FileNotFoundError "weights"), w)) ∧
  (∀ fn d,
     weight_files w fn = Some d →
     optimizer_files w fn = None →
     ((∃ k, is_Some (state_dict w !! k) ∧
            contains "embedding.weight" k = false ∧
            contains "_nosave_" k = false ∧
            d !! k = None) →
      load_weights fn w
      = (Some (RuntimeError "loading state_dict with keys that do not match current model"
                 (missing_keys (state_dict w) d)), w)) ∧
     ((¬ ∃ k, is_Some (state_dict w !! k) ∧
              contains "embedding.weight" k = false ∧
              contains "_nosave_" k = false ∧
              d !! k = None) →
      load_weights fn w
      = (Some (FileNotFoundError "optimizer"),
         {| state_dict := load_state_dict d (state_dict w);
            optimizer := optimizer w;
            weight_files := weight_files w;
            optimizer_files := optimizer_files w |}))).
Proof.
  assert (Hkey : ∀ k, persisted_key k = true ↔
            contains "embedding.weight" k = false ∧ contains "_nosave_" k = false).
  { intros k. unfold persisted_key. rewrite andb_true_iff, !negb_true_iff. done. }
  assert (Hmiss : ∀ d, 0 < size (missing_keys (state_dict w) d) ↔
            ∃ k, is_Some (state_dict w !! k) ∧
                 contains "embedding.weight" k = false ∧
                 contains "_nosave_" k = false ∧
                 d !! k = None).
  { intros d. rewrite missing_keys_pos. split.
    - intros [k Hk]. apply missing_keys_elem in Hk as (H1 & H2 & H3).
      exists k. apply Hkey in H2. tauto.
    - intros (k & H1 & H2 & H3 & H4). exists k. apply missing_keys_elem.
      split_and!; [done| |done]. apply Hkey. done. }
  split_and!.
  - intros fn. eexists. split_and!.
    + unfold save_weights, write_file. cbn [weight_files]. by rewrite decide_True.
    + intros k v. rewrite map_lookup_filter_Some. simpl.
      rewrite Is_true_true, Hkey. tauto.
    + unfold save_weights, write_file. cbn [optimizer_files]. by rewrite decide_True.
    + done.
    + done.
  - intros fn d o Hd Ho. unfold load_weights. rewrite Hd, Ho.
    destruct (decide (0 < size (missing_keys (state_dict w) d))) as [Hpos|Hnone].
    + simpl. split_and!.
      * split; [intros _; by apply Hmiss | by eexists].
      * intros e [= <-]. done.
      * done.
    + simpl. split_and!.
      * split; [by intros [? ?]|]. intros Hk. exfalso. by apply Hnone, Hmiss.
      * done.
      * done.
  - intros fn Hd. unfold load_weights. by rewrite Hd.
  - intros fn d Hd Ho. unfold load_weights. rewrite Hd, Ho. split.
    + intros Hk. rewrite decide_True; [done|]. by apply Hmiss.
    + intros Hk. rewrite decide_False; [done|]. intros Hpos. by apply Hk, Hmiss.
Qed.

End weights_facts.

(* ===================================================================== *)
(** ** PytorchTrainer.load_loss_file and fastforward_training             *)
(* ===================================================================== *)

Section fastforward_facts.
Import Reranker Trainer TrainerSpec.
Context {tensor opt_state : Type}.
Implicit Types (d : disk tensor opt_state).

Lemma load_loss_lines_indexed flds : ∀ losses n acc tail,
  Forall2 reads_as flds losses →
  load_loss_lines (Z.of_nat n)
    (imap (λ idx fld, [IntText (Z.of_nat (n + idx)); fld]) flds ++ tail) acc
  = load_loss_lines (Z.of_nat (n + length flds)) tail (acc ++ losses).
Proof.
  induction flds as [|fld flds IH]; intros losses n acc tail Hall.
  - apply Forall2_nil_inv_l in Hall as ->. simpl.
    by rewrite Nat.add_0_r, app_nil_r.
  - apply Forall2_cons_inv_l in Hall as (x & losses' & Hx & Hall & ->).
    rewrite imap_cons. cbn [app load_loss_lines py_int].
    rewrite Nat.add_0_r. rewrite decide_False by (intros H; by apply H).
    unfold reads_as in Hx. rewrite Hx.
    replace (Z.of_nat n + 1)%Z with (Z.of_nat (S n)) by lia.
    rewrite (imap_ext _ (λ idx fld0, [IntText (Z.of_nat (S n + idx)); fld0])).
    2:{ intros i y _. simpl. do 3 f_equal. lia. }
    rewrite (IH losses' (S n) (acc ++ [x]) tail Hall).
    rewrite <- app_assoc. simpl. do 2 f_equal. lia.
Qed.

(** Reading back a gapless history gives the losses in order. *)
Lemma load_loss_file_indexed flds losses :
  Forall2 reads_as flds losses →
  load_loss_file (Some (indexed_lines flds)) = Returned losses.
Proof.
  intros Hall. unfold load_loss_file, indexed_lines.
  pose proof (load_loss_lines_indexed flds losses 0 [] [] Hall) as H.
  rewrite app_nil_r in H. simpl in H. exact H.
Qed.

Lemma load_loss_file_roundtrip (train_loss : list float) :
  load_loss_file (Some (loss_text train_loss)) = Returned train_loss.
Proof.
  unfold loss_text.
  replace (imap (λ idx loss, [IntText (Z.of_nat idx); FloatText loss]) train_loss)
    with (indexed_lines (FloatText <$> train_loss)).
  - apply load_loss_file_indexed. apply Forall2_fmap_l, Forall_Forall2_diag, Forall_forall.
    intros x _. done.
  - unfold indexed_lines. by rewrite imap_fmap.
Qed.

(** A line whose index is not its position makes the file malformed. *)
Lemma load_loss_file_gap flds losses j fld rest :
  Forall2 reads_as flds losses →
  j ≠ Z.of_nat (length flds) →
  load_loss_file (Some (indexed_lines flds ++ [IntText j; fld] :: rest)) = Raised IOError.
Proof.
  intros Hall Hj. unfold load_loss_file, indexed_lines.
  pose proof (load_loss_lines_indexed flds losses 0 [] ([IntText j; fld] :: rest) Hall) as H.
  etrans; [exact H|]. cbn [load_loss_lines py_int]. by rewrite decide_True.
Qed.

End fastforward_facts.

Section fastforward_theorems.
Import Reranker Trainer TrainerSpec Examples.

Lemma fastforward_training_reads {tensor opt_state} (d : disk tensor opt_state) lines :
  weights_path_exists d = true →
  loss_fn d = Some lines →
  fastforward_training d
  = match load_loss_file (Some lines) with
    | Raised e => if is_ioerror e then (Returned 0%Z, d) else (Raised e, d)
    | Returned loss =>
        match load_weights (IterWeights (Z.of_nat (length loss) - 1)) (rr d) with
        | (None, w') => (Returned (Z.of_nat (length loss) - 1 + 1)%Z, with_rr d w')
        | (Some _, w') => (Returned 0%Z, with_rr d w')
        end
    end.
Proof.
  intros Hdir Hloss. unfold fastforward_training. rewrite Hdir, Hloss.
  rewrite bool_decide_eq_true_2 by by eexists. reflexivity.
Qed.

(** C4.  [fastforward_training]:
    - when loss.txt has the gapless lines 0 .. n-1 (n = 10 for the
      iterations 0..9) and the weights of iteration n-1 load (both files
      present, no expected key missing), the method returns n after
      loading these weights into the model and the saved state into the
      optimizer;
    - when a line of loss.txt carries an index that is not its position
      (the file skips an index), it returns 0 and loads nothing;
    - when the weights directory or loss.txt is absent, it returns 0 and
      loads nothing;
    - when loss.txt is well formed and loading the weights raises, it
      returns 0. *)
Theorem fastforward_training_resume {tensor opt_state : Type} :
  (∀ (d : disk tensor opt_state) flds losses wd o,
     weights_path_exists d = true →
     loss_fn d = Some (indexed_lines flds) →
     Forall2 reads_as flds losses →
     weight_files (rr d) (IterWeights (Z.of_nat (length losses) - 1)) = Some wd →
     optimizer_files (rr d) (IterWeights (Z.of_nat (length losses) - 1)) = Some o →
     size (missing_keys (state_dict (rr d)) wd) = 0 →
     fastforward_training d
     = (Returned (Z.of_nat (length losses)),
        with_rr d {| state_dict := load_state_dict wd (state_dict (rr d));
                     optimizer := o;
                     weight_files := weight_files (rr d);
                     optimizer_files := optimizer_files (rr d) |})) ∧
  (∀ (d : disk tensor opt_state) flds losses j fld rest,
     weights_path_exists d = true →
     loss_fn d = Some (indexed_lines flds ++ [IntText j; fld] :: rest) →
     Forall2 reads_as flds losses →
     j ≠ Z.of_nat (length flds) →
     fastforward_training d = (Returned 0%Z, d)) ∧
  (∀ (d : disk tensor opt_state),
     weights_path_exists d = false ∨ loss_fn d = None →
     fastforward_training d = (Returned 0%Z, d)) ∧
  (∀ (d : disk tensor opt_state) flds losses e,
     weights_path_exists d = true →
     loss_fn d = Some (indexed_lines flds) →
     Forall2 reads_as flds losses →
     (load_weights (IterWeights (Z.of_nat (length losses) - 1)) (rr d)).1 = Some e →
     (fastforward_training d).1 = Returned 0%Z).
Proof.
  split_and!.
  - intros d flds losses wd o Hdir Hloss Hall Hwd Ho Hmiss.
    rewrite (fastforward_training_reads d _ Hdir Hloss).
    rewrite (load_loss_file_indexed flds losses Hall).
    rewrite (load_weights_ok (rr d) _ wd o); [|done|done|].
    + do 2 f_equal. lia.
    + intros k H1 H2. destruct (wd !! k) eqn:Hk; [by eexists|]. exfalso.
      assert (Hin : k ∈ missing_keys (state_dict (rr d)) wd)
        by by apply missing_keys_elem.
      apply size_empty_iff in Hmiss.
      apply (not_elem_of_empty (C := gset string) k). by rewrite <- Hmiss.
  - intros d flds losses j fld rest Hdir Hloss Hall Hj.
    rewrite (fastforward_training_reads d _ Hdir Hloss).
    by rewrite (load_loss_file_gap flds losses j fld rest Hall Hj).
  - intros d [Hdir|Hloss]; unfold fastforward_training.
    + by rewrite Hdir.
    + rewrite Hloss. rewrite bool_decide_eq_false_2 by (by intros [? ?]).
      by rewrite andb_false_r.
  - intros d flds losses e Hdir Hloss Hall Hfail.
    rewrite (fastforward_training_reads d _ Hdir Hloss).
    rewrite (load_loss_file_indexed flds losses Hall).
    destruct (load_weights _ (rr d)) as [[e'|] w']; [done|].
    simpl in Hfail. done.
Qed.

End fastforward_theorems.

Section fastforward_examples.
Import Reranker Trainer TrainerSpec Examples.

Lemma fastforward_training_resume_witness :
  (fastforward_training disk9).1 = Returned 10%Z ∧
  state_dict (rr (fastforward_training disk9).2) !! "fc.weight" = Some 9%Z ∧
  state_dict (rr (fastforward_training disk9).2) !! "embedding.weight" = Some 7%Z ∧
  optimizer (rr (fastforward_training disk9).2) = 9 ∧
  fastforward_training disk_gap = (Returned 0%Z, disk_gap) ∧
  fastforward_training disk_no_loss = (Returned 0%Z, disk_no_loss) ∧
  (fastforward_training disk_bad_weights).1 = Returned 0%Z.
Proof.
  destruct (fastforward_training_resume (tensor := Z) (opt_state := nat))
    as (Hresume & Hgap & Habsent & Hfail).
  assert (Hreads : ∀ l : list float, Forall2 reads_as (FloatText <$> l) l).
  { intros l. apply Forall2_fmap_l, Forall_Forall2_diag, Forall_forall. by intros x _. }
  split_and!.
  - rewrite (Hresume disk9 (FloatText <$> losses10) losses10 saved9 9);
      [reflexivity | reflexivity | reflexivity | apply Hreads | reflexivity
      | reflexivity | vm_compute; reflexivity].
  - rewrite (Hresume disk9 (FloatText <$> losses10) losses10 saved9 9);
      [vm_compute; reflexivity | reflexivity | reflexivity | apply Hreads | reflexivity
      | reflexivity | vm_compute; reflexivity].
  - rewrite (Hresume disk9 (FloatText <$> losses10) losses10 saved9 9);
      [vm_compute; reflexivity | reflexivity | reflexivity | apply Hreads | reflexivity
      | reflexivity | vm_compute; reflexivity].
  - rewrite (Hresume disk9 (FloatText <$> losses10) losses10 saved9 9);
      [reflexivity | reflexivity | reflexivity | apply Hreads | reflexivity
      | reflexivity | vm_compute; reflexivity].
  - apply (Hgap disk_gap (FloatText <$> take 5 losses10) (take 5 losses10) 6%Z
             (FloatText (Finite 6))
             [[IntText 7; FloatText (Finite 7)]]);
      [reflexivity | reflexivity | apply Hreads | vm_compute; discriminate].
  - apply Habsent. by right.
  - apply (Hfail disk_bad_weights (FloatText <$> losses10) losses10
             (RuntimeError "loading state_dict with keys that do not match current model"
                {[ "fc.weight" ]}));
      [reflexivity | reflexivity | apply Hreads | vm_compute; reflexivity].
Defined.

End fastforward_examples.

Section weights_examples.
Import Reranker Trainer Examples MoreExamples.

Lemma weights_persistence_witness :
  (∃ saved,
     weight_files (save_weights DevBest world9) DevBest = Some saved ∧
     saved !! "fc.weight" = Some 0%Z ∧
     saved !! "embedding.weight" = None) ∧
  ¬ is_Some (load_weights (IterWeights 9) world9).1.
Proof.
  destruct (weights_persistence world9) as (Hsave & Hload & _ & _).
  destruct (Hsave DevBest) as (saved & Hfile & Hkeys & _).
  destruct (Hload (IterWeights 9) saved9 9) as (Hraise & _ & _); [reflexivity..|].
  split.
  - exists saved. split_and!; [done| |].
    + apply Hkeys. split_and!; reflexivity.
    + destruct (saved !! "embedding.weight") as [v|] eqn:Hv; [|done].
      apply Hkeys in Hv as (_ & Hc & _). vm_compute in Hc. discriminate.
  - rewrite Hraise. intros (k & [v Hk] & He & Hn & Hd).
    unfold world9, model0 in Hk. cbn [state_dict] in Hk.
    apply lookup_insert_Some in Hk as [[<- _]|[_ Hk]].
    + vm_compute in Hd. discriminate.
    + apply lookup_singleton_Some in Hk as [<- _]. vm_compute in He. discriminate.
Defined.

(** C9 (as stated) fails.  The weights file of iteration 9 is in place
    and holds every key the model expects after the exclusions, but its
    optimizer file is absent: [load_weights] raises although no key is
    missing, and the model's parameters have been overwritten when it
    does. *)
Lemma load_weights_without_optimizer_file :
  weight_files world9_no_optimizer (IterWeights 9) = Some saved9 ∧
  is_Some (load_weights (IterWeights 9) world9_no_optimizer).1 ∧
  (¬ ∃ k, is_Some (state_dict world9_no_optimizer !! k) ∧
          contains "embedding.weight" k = false ∧
          contains "_nosave_" k = false ∧
          saved9 !! k = None) ∧
  state_dict world9_no_optimizer !! "fc.weight" = Some 0%Z ∧
  state_dict (load_weights (IterWeights 9) world9_no_optimizer).2 !! "fc.weight"
  = Some 9%Z.
Proof.
  split_and!.
  - reflexivity.
  - vm_compute. by eexists.
  - intros (k & [v Hk] & He & Hn & Hd).
    unfold world9_no_optimizer, model0 in Hk. cbn [state_dict] in Hk.
    apply lookup_insert_Some in Hk as [[<- _]|[_ Hk]].
    + vm_compute in Hd. discriminate.
    + apply lookup_singleton_Some in Hk as [<- _]. vm_compute in He. discriminate.
  - reflexivity.
  - vm_compute. reflexivity.
Qed.

End weights_examples.

(* ===================================================================== *)
(** ** The "best" checkpoint                                              *)
(* ===================================================================== *)

Section dev_best_facts.
Import Reranker Trainer Examples.

(** TrecCheckpointCallback keeps track of the best metric: an epoch
    whose metric is not above it leaves dev.best alone, an epoch whose
    metric is above it saves the model and raises the bar. *)
Lemma on_epoch_end_tracks_best {weights} (cb : callback weights) model_weights m :
  (float_gt m (best_metric cb) = false → on_epoch_end cb model_weights m = cb) ∧
  (float_gt m (best_metric cb) = true →
     on_epoch_end cb model_weights m
     = {| best_metric := m; dev_best := Some model_weights |}).
Proof. unfold on_epoch_end. split; intros ->; done. Qed.

(** In PytorchTrainer.train the bar stays at [-np.inf]: every validated
    iteration whose metric is above [-inf] writes dev.best, with the
    weights it has just written for the iteration. *)
Lemma train_iteration_saves_dev_best {tensor opt_state} (t : setup tensor opt_state)
    niter (d : disk tensor opt_state) train_loss d' train_loss' metric :
  train_iteration t NegInf niter d train_loss = Returned (d', train_loss') →
  (niter `mod` validatefreq t)%Z = 0%Z →
  dev_metric t (state_dict (rr d')) = Returned metric →
  float_gt metric NegInf = true →
  is_Some (weight_files (rr d') DevBest) ∧
  weight_files (rr d') DevBest = weight_files (rr d') (IterWeights niter).
Proof.
  unfold train_iteration.
  destruct (single_train_iteration t _ _) as [[[iter_loss m] o]|e]; [|done].
  destruct (decide (validatefreq t = 0%Z)); [done|].
  intros Hret Hmod. rewrite decide_True in Hret by done.
  cbn [state_dict save_weights] in Hret.
  destruct (dev_metric t m) as [x|e] eqn:Hx; [|done].
  injection Hret as <- _. destruct (float_gt x NegInf) eqn:Hgt.
  - intros _ _. unfold save_weights, write_file. simpl.
    rewrite decide_True by done. split; [by eexists|done].
  - simpl. rewrite Hx. intros [= <-]. by rewrite Hgt.
Qed.

(** C1.  A run of PytorchTrainer.train on which the claim fails: two
    iterations, each validated; the dev metric is 1/2 after iteration 0
    and 3/10 after iteration 1.  The second validation does not improve
    on the best value seen, and yet dev.best afterwards holds the
    weights of iteration 1, not those of iteration 0. *)
Theorem dev_best_overwritten_without_improvement :
  ∃ d train_loss best,
    train setup2 disk0 = Returned (d, train_loss) ∧
    (∃ w0, weight_files (rr d) (IterWeights 0) = Some w0 ∧
           w0 !! "fc.weight" = Some 1%Z ∧
           dev_metric setup2 w0 = Returned (Finite (1 # 2))) ∧
    (∃ w1, weight_files (rr d) (IterWeights 1) = Some w1 ∧
           w1 !! "fc.weight" = Some 2%Z ∧
           dev_metric setup2 w1 = Returned (Finite (3 # 10))) ∧
    float_gt (Finite (3 # 10)) (Finite (1 # 2)) = false ∧
    weight_files (rr d) DevBest = Some best ∧
    best !! "fc.weight" = Some 2%Z.
Proof.
  eexists _, _, _. split; [vm_compute; reflexivity|].
  split_and!.
  - eexists. split_and!; [vm_compute; reflexivity | vm_compute; reflexivity | reflexivity].
  - eexists. split_and!; [vm_compute; reflexivity | vm_compute; reflexivity | reflexivity].
  - reflexivity.
  - vm_compute. reflexivity.
  - vm_compute. reflexivity.
Qed.

End dev_best_facts.

(* ===================================================================== *)
(** ** Further properties of the samplers                                 *)
(* ===================================================================== *)

Section sampler_more.
Import Sampler SamplerSpec PairSampler Examples MoreExamples.

Lemma neg_is_complement jd lvl docids :
  negdocs_of jd lvl docids = filter (λ d, ¬ (lvl ≤ grade jd d)%Z) docids.
Proof. unfold negdocs_of. apply list_filter_iff. intros d. lia. Qed.

(** What a dict entry of a prepared sampler looks like. *)
Lemma prepared_entry (qrels : gmap string (gmap string Z)) lvl pool qid docids :
  NoDup pool.*1 →
  dict_get qid (retained pool qrels lvl) = Some docids →
  ∃ jd,
    qrels !! qid = Some jd ∧
    dict_get qid pool = Some docids ∧
    dict_get qid (rel_side (rel_entry qrels lvl) (retained pool qrels lvl))
      = Some (reldocs_of jd lvl docids) ∧
    dict_get qid (neg_side (neg_entry qrels lvl) (retained pool qrels lvl))
      = Some (negdocs_of jd lvl docids) ∧
    reldocs_of jd lvl docids ≠ [] ∧ negdocs_of jd lvl docids ≠ [].
Proof.
  intros Hnd Hget. pose proof (dict_get_Some _ _ _ Hget) as Hin.
  apply retained_elem in Hin as (Hpool & [jd Hjd] & Hrel & Hneg). simpl in Hjd.
  assert (Hj : judged qrels qid = jd) by (unfold judged; by rewrite Hjd).
  unfold rel_entry, neg_entry in Hrel, Hneg. simpl in Hrel, Hneg.
  rewrite Hj in Hrel, Hneg.
  exists jd. split_and!; try done.
  - by apply dict_get_elem.
  - unfold rel_side. rewrite dict_get_side, Hget. simpl.
    unfold rel_entry. simpl. by rewrite Hj.
  - unfold neg_side. rewrite dict_get_side, Hget. simpl.
    unfold neg_entry. simpl. by rewrite Hj.
Qed.

(** X1.  After [prepare], the relevant and the non-relevant documents
    of a retained query split its candidate list: together they are the
    candidates (each occurrence once), no document is on both sides,
    the relevant ones are those graded at least the relevance level and
    the others those graded below it (a candidate without a grade counts
    as grade 0). *)
Theorem prepare_splits_candidates pool (qrels : gmap string (gmap string Z)) lvl :
  NoDup pool.*1 →
  ∃ s log,
    prepare pool qrels lvl = Returned (s, log) ∧
    ∀ qid docids,
      dict_get qid (qid_to_docids s) = Some docids →
      ∃ jd rel neg,
        qrels !! qid = Some jd ∧
        dict_get qid (qid_to_reldocs s) = Some rel ∧
        dict_get qid (qid_to_negdocs s) = Some neg ∧
        rel ++ neg ≡ₚ docids ∧
        length rel + length neg = length docids ∧
        (∀ d, d ∈ rel ↔ d ∈ docids ∧ (lvl ≤ default 0 (jd !! d))%Z) ∧
        (∀ d, d ∈ neg ↔ d ∈ docids ∧ (default 0 (jd !! d) < lvl)%Z) ∧
        (∀ d, d ∈ rel → d ∉ neg).
Proof.
  intros Hnd. destruct (prepare_returns qrels lvl pool Hnd) as [log Hprep].
  eexists _, log. split; [exact Hprep|].
  cbn [qid_to_docids qid_to_reldocs qid_to_negdocs].
  intros qid docids Hget.
  destruct (prepared_entry qrels lvl pool qid docids Hnd Hget)
    as (jd & Hjd & _ & Hrel & Hneg & _).
  exists jd, (reldocs_of jd lvl docids), (negdocs_of jd lvl docids).
  assert (Hperm : reldocs_of jd lvl docids ++ negdocs_of jd lvl docids ≡ₚ docids).
  { rewrite neg_is_complement. unfold reldocs_of. apply filter_app_complement. }
  split_and!; try done.
  - rewrite <- length_app. by rewrite Hperm.
  - intros d. unfold reldocs_of, grade. rewrite list_elem_of_filter. tauto.
  - intros d. unfold negdocs_of, grade. rewrite list_elem_of_filter. tauto.
  - intros d. unfold reldocs_of, negdocs_of. rewrite !list_elem_of_filter. lia.
Qed.

Lemma prepare_splits_candidates_witness :
  NoDup pool1.*1 ∧
  ∃ s log,
    prepare pool1 qrels1 1 = Returned (s, log) ∧
    ∃ rel neg,
      dict_get "q1" (qid_to_reldocs s) = Some rel ∧
      dict_get "q1" (qid_to_negdocs s) = Some neg ∧
      rel ++ neg ≡ₚ ["d1"; "d2"].
Proof.
  split; [exact pool1_keys_NoDup|].
  destruct (prepare_splits_candidates pool1 qrels1 1 pool1_keys_NoDup)
    as (s & log & Hp & Hsplit).
  exists s, log. split; [done|].
  destruct (Hsplit "q1" ["d1"; "d2"]) as (jd & rel & neg & _ & Hr & Hn & Hperm & _).
  { rewrite prepare_pool1 in Hp. injection Hp as <- _. reflexivity. }
  by exists rel, neg.
Defined.

(** A second cleaning pass finds nothing to remove. *)
Lemma clean_loop_keeps fr fn rest : ∀ visited ts total log,
  NoDup (visited ++ rest).*1 →
  Forall (both_sides fr fn) rest →
  clean_loop rest.*1
    {| qid_to_docids := visited ++ rest;
       qid_to_reldocs := rel_side fr (visited ++ rest);
       qid_to_negdocs := neg_side fn (visited ++ rest);
       total_samples := ts |} total log
  = Returned
      ({| qid_to_docids := visited ++ rest;
          qid_to_reldocs := rel_side fr (visited ++ rest);
          qid_to_negdocs := neg_side fn (visited ++ rest);
          total_samples := ts |},
       total + sum_list ((λ e, length (fr e) * length (fn e)) <$> rest),
       log).
Proof.
  induction rest as [|[q ds] rest IH]; intros visited ts total log Hnd Hall.
  - simpl. by rewrite Nat.add_0_r.
  - apply Forall_cons in Hall as [[Hr Hn] Hall].
    assert (Hq : q ∉ visited.*1).
    { rewrite fmap_app in Hnd. apply NoDup_app in Hnd as (_ & Hdis & _).
      intros Hin. apply (Hdis q Hin). simpl. apply elem_of_cons; by left. }
    cbn [fmap list_fmap clean_loop fst qid_to_reldocs qid_to_negdocs].
    unfold rel_side, neg_side. rewrite !fmap_app. cbn [fmap list_fmap fst].
    rewrite (dict_get_app_fresh q ((λ e, (e.1, fr e)) <$> visited))
      by (rewrite <- list_fmap_compose; exact Hq).
    rewrite (dict_get_app_fresh q ((λ e, (e.1, fn e)) <$> visited))
      by (rewrite <- list_fmap_compose; exact Hq).
    cbn [dict_get]. rewrite !decide_True by done.
    destruct (fr (q, ds)) as [|r0 rs] eqn:Er; [done|].
    destruct (fn (q, ds)) as [|n0 ns] eqn:En; [done|].
    cbn [length Nat.eqb orb].
    specialize (IH (visited ++ [(q, ds)]) ts
                  (total + S (length rs) * S (length ns)) log).
    rewrite <- !app_assoc in IH. cbn [app] in IH.
    unfold rel_side, neg_side in IH. rewrite !fmap_app in IH.
    cbn [fmap list_fmap fst] in IH. rewrite Er, En in IH.
    etrans; [apply IH; [rewrite fmap_app in Hnd; exact Hnd | done]|].
    do 3 f_equal. symmetry. apply Nat.add_assoc.
Qed.

(** X2.  The cleaning pass is idempotent: on the sampler that [prepare]
    returns, [clean] removes no query, logs nothing and computes the
    same [total_samples] again. *)
Theorem clean_is_idempotent pool (qrels : gmap string (gmap string Z)) lvl :
  NoDup pool.*1 →
  ∃ s log,
    prepare pool qrels lvl = Returned (s, log) ∧
    clean s = Returned (s, []).
Proof.
  intros Hnd. destruct (prepare_returns qrels lvl pool Hnd) as [log Hprep].
  eexists _, log. split; [exact Hprep|].
  unfold clean, dict_keys. cbn [qid_to_docids].
  pose proof (clean_loop_keeps (rel_entry qrels lvl) (neg_entry qrels lvl)
                (retained pool qrels lvl) []) as Hkeep.
  cbn [app] in Hkeep. rewrite Hkeep.
  - cbn [qid_to_docids qid_to_reldocs qid_to_negdocs]. do 3 f_equal.
    unfold retained. rewrite sum_dropped_zero; [done|].
    intros e Hn. unfold keeps, both_sides in Hn.
    destruct (rel_entry qrels lvl e); [done|].
    destruct (neg_entry qrels lvl e); [simpl; lia|].
    exfalso. by apply Hn.
  - by apply retained_NoDup.
  - apply Forall_forall. intros e He. by apply retained_elem in He as (_ & _ & ?).
Qed.

End sampler_more.

Section generator_more.
Import Sampler SamplerSpec PairSampler GeneratorSpec.
Context {Inst : Type} {X : Extractor Inst}.

Lemma choice_elem {A} (seq : list A) g :
  seq ≠ [] → ∃ x g', choice seq g = (Returned x, g') ∧ x ∈ seq.
Proof.
  intros Hne. unfold choice. destruct seq as [|a seq]; [done|].
  pose proof (randbelow_lt (length (a :: seq)) g ltac:(simpl; lia)) as Hj.
  destruct (randbelow (length (a :: seq)) g) as [j g']. simpl in Hj.
  destruct ((a :: seq) !! j) as [x|] eqn:Hx.
  - exists x, g'. split; [done|]. by eapply list_elem_of_lookup_2.
  - apply lookup_ge_None in Hx. simpl in Hx. lia.
Qed.

Lemma shuffle_loop_Permutation {A} i : ∀ (x : list A) g,
  (shuffle_loop i x g).1 ≡ₚ x.
Proof.
  induction i as [|i IH]; intros x g; [done|].
  cbn [shuffle_loop]. destruct (randbelow (S (S i)) g) as [j g'].
  destruct (x !! S i) as [xi|] eqn:Hi; [|apply IH].
  destruct (x !! j) as [xj|] eqn:Hj; [|apply IH].
  rewrite IH. by apply Permutation_insert_swap.
Qed.

Lemma shuffle_Permutation {A} (x : list A) g : (shuffle x g).1 ≡ₚ x.
Proof. apply shuffle_loop_Permutation. Qed.

Lemma sorted_qids_Permutation qids : sorted_qids qids ≡ₚ qids.
Proof. apply merge_sort_Permutation. Qed.

Lemma dict_get_key {V} (d : list (string * V)) k :
  k ∈ d.*1 → ∃ v, dict_get k d = Some v.
Proof.
  induction d as [|[k' v'] d IH]; simpl; intros Hin.
  - by apply elem_of_nil in Hin.
  - destruct (decide (k' = k)); [by eexists|].
    apply elem_of_cons in Hin as [?|Hin]; [congruence | auto].
Qed.

(** One pass of the triplet loop over queries that all have documents
    of both kinds: one visit per query, in the order of the pass. *)
Lemma triplet_qids_visits (s : sampler) qids : ∀ g acc,
  returns_or_misses X s →
  Forall (has_both s) qids →
  ∃ (vs : list (visit Inst)) g',
    triplet_qids s qids g acc
    = ({| yielded := yielded acc ++ omap visit_inst vs;
          logged := logged acc ++ omap visit_log vs;
          raised := raised acc |}, g') ∧
    visit_qid <$> vs = qids ∧
    Forall (visit_ok s) vs.
Proof.
  intros g acc Hx. revert g acc.
  induction qids as [|qid qids IH]; intros g acc Hall.
  - exists [], g. cbn [omap list_omap]. rewrite !app_nil_r.
    split_and!; [by destruct acc|done|constructor].
  - apply Forall_cons in Hall as [(rel & neg & Hrel & Hrne & Hneg & Hnne) Hall].
    cbn [triplet_qids]. unfold choose. rewrite Hrel.
    destruct (choice_elem rel g Hrne) as (pos & g1 & -> & Hpos).
    rewrite Hneg. destruct (choice_elem neg g1 Hnne) as (negd & g2 & -> & Hnegd).
    assert (Hdrawn : drawn_for s qid pos negd) by by exists rel, neg.
    destruct (Hx qid pos negd Hdrawn) as [[inst Hinst]|(mq & md & Hmiss)].
    + rewrite Hinst.
      destruct (IH g2 (gen_yield acc inst) Hall) as (vs & g' & -> & Hqs & Hok).
      exists (Yields qid inst :: vs), g'. cbn [gen_yield yielded logged raised].
      split_and!.
      * cbn [omap list_omap visit_inst visit_log]. fold (omap visit_inst vs).
        fold (omap visit_log vs). by rewrite <- app_assoc.
      * cbn [fmap list_fmap visit_qid]. by f_equal.
      * constructor; [|done]. by exists pos, negd.
    + rewrite Hmiss. cbn [is_missing_doc].
      destruct (IH g2 (gen_log acc (LogSkippingTrainingPair qid pos negd)) Hall)
        as (vs & g' & -> & Hqs & Hok).
      exists (Skips qid pos negd :: vs), g'. cbn [gen_log yielded logged raised].
      split_and!.
      * cbn [omap list_omap visit_inst visit_log]. fold (omap visit_inst vs).
        fold (omap visit_log vs). by rewrite <- app_assoc.
      * cbn [fmap list_fmap visit_qid]. by f_equal.
      * constructor; [|done]. split; [done|]. by exists mq, md.
Qed.

Lemma triplet_rounds_visits (s : sampler) rounds : ∀ qids g acc,
  returns_or_misses X s →
  raised acc = None →
  Forall (has_both s) qids →
  ∃ (visits : list (list (visit Inst))) g',
    triplet_rounds s rounds qids g acc
    = ({| yielded := yielded acc ++ omap visit_inst (concat visits);
          logged := logged acc ++ omap visit_log (concat visits);
          raised := None |}, g') ∧
    length visits = rounds ∧
    Forall (λ round, visit_qid <$> round ≡ₚ qids) visits ∧
    Forall (visit_ok s) (concat visits).
Proof.
  induction rounds as [|rounds IH]; intros qids g acc Hx Hacc Hall.
  - exists [], g. cbn [concat omap list_omap]. rewrite !app_nil_r. simpl.
    split_and!; [destruct acc; simpl in *; by subst | done | constructor | constructor].
  - cbn [triplet_rounds]. pose proof (shuffle_Permutation qids g) as Hperm.
    destruct (shuffle qids g) as [qs g1]. simpl in Hperm.
    assert (Hall' : Forall (has_both s) qs) by by rewrite Hperm.
    destruct (triplet_qids_visits s qs g1 acc Hx Hall')
      as (vs & g2 & -> & Hqs & Hok1).
    cbn [raised]. rewrite Hacc.
    destruct (IH qs g2 {| yielded := yielded acc ++ omap visit_inst vs;
                          logged := logged acc ++ omap visit_log vs;
                          raised := None |}
                Hx eq_refl Hall')
      as (visits & g3 & -> & Hlen & Hperms & Hok2).
    exists (vs :: visits), g3. cbn [yielded logged concat].
    rewrite !omap_app, <- !app_assoc. split_and!.
    + done.
    + simpl. by rewrite Hlen.
    + constructor; [by rewrite Hqs|].
      eapply Forall_impl; [exact Hperms|]. intros round Hr. simpl in Hr.
      by rewrite Hr.
    + by apply Forall_app.
Qed.

End generator_more.

Section generator_theorems.
Import Sampler SamplerSpec PairSampler GeneratorSpec Examples MoreExamples.

Lemma prepared_has_both (qrels : gmap string (gmap string Z)) lvl pool :
  NoDup pool.*1 →
  Forall (has_both
            {| qid_to_docids := retained pool qrels lvl;
               qid_to_reldocs := rel_side (rel_entry qrels lvl) (retained pool qrels lvl);
               qid_to_negdocs := neg_side (neg_entry qrels lvl) (retained pool qrels lvl);
               total_samples :=
                 1 + sum_list ((λ e, length (rel_entry qrels lvl e) *
                                     length (neg_entry qrels lvl e))
                               <$> in_qrels qrels pool) |})
    (retained pool qrels lvl).*1.
Proof.
  intros Hnd. apply Forall_forall. intros qid Hq.
  destruct (dict_get_key _ _ Hq) as [docids Hget].
  destruct (prepared_entry qrels lvl pool qid docids Hnd Hget)
    as (jd & _ & _ & Hrel & Hneg & Hr & Hn).
  by exists (reldocs_of jd lvl docids), (negdocs_of jd lvl docids).
Qed.

(** X3.  On a sampler that [prepare] has returned with at least one
    query, and an extractor that, on the triples of this sampler, either
    returns features or reports a missing document, the triplet
    generator never ends: after any number of rounds no exception is
    pending, and what it has done is, round after round, one visit per
    query of the sampler, in the order of the round's shuffle: either
    the instance [id2vec] built for the query, one of its relevant
    documents and one of its non-relevant documents, with label [1, 0],
    or the warning for the triple of this query that [id2vec] reported
    missing.  The instances yielded and the warnings logged are exactly
    those of the visits, in order. *)
Theorem triplet_sampler_visits_every_query {Inst} {X : Extractor Inst}
    pool (qrels : gmap string (gmap string Z)) lvl s log seeded rounds :
  NoDup pool.*1 →
  prepare pool qrels lvl = Returned (s, log) →
  qid_to_docids s ≠ [] →
  returns_or_misses X s →
  ∃ visits : list (list (visit Inst)),
    length visits = rounds ∧
    Forall (λ round, visit_qid <$> round ≡ₚ dict_keys (qid_to_docids s)) visits ∧
    Forall (visit_ok s) (concat visits) ∧
    (triplet_generate_samples s seeded rounds).1
    = {| yielded := omap visit_inst (concat visits);
         logged := omap visit_log (concat visits);
         raised := None |}.
Proof.
  intros Hnd Hprep0 Hne Hx.
  destruct (prepare_returns qrels lvl pool Hnd) as [log0 Hprep].
  rewrite Hprep in Hprep0. injection Hprep0 as <- <-.
  set (s := {| qid_to_docids := retained pool qrels lvl |}) in *.
  unfold triplet_generate_samples.
  assert (Hkeys : dict_keys (qid_to_reldocs s) = (retained pool qrels lvl).*1).
  { unfold dict_keys, s, rel_side. cbn [qid_to_reldocs]. by rewrite <- list_fmap_compose. }
  rewrite Hkeys.
  pose proof (sorted_qids_Permutation (retained pool qrels lvl).*1) as Hperm.
  assert (Hlen : length (sorted_qids (retained pool qrels lvl).*1)
                 = length (retained pool qrels lvl)).
  { by rewrite Hperm, length_fmap. }
  rewrite decide_False.
  2:{ rewrite Hlen. cbn [qid_to_docids s] in Hne.
      destruct (retained pool qrels lvl); [done | simpl; lia]. }
  destruct (triplet_rounds_visits s rounds (sorted_qids (retained pool qrels lvl).*1)
              seeded gen_start Hx eq_refl) as (visits & g' & -> & Hcount & Hperms & Hok).
  { rewrite Hperm. by apply prepared_has_both. }
  exists visits. split_and!; [done| |done|done].
  eapply Forall_impl; [exact Hperms|]. intros round Hr. simpl in Hr.
  rewrite Hr, Hperm. done.
Qed.

Lemma triplet_sampler_visits_every_query_witness :
  raised (triplet_generate_samples
            (X := BertPassage.bertpassage_extractor vocab extractor_q1)
            sampler1 [3; 1; 4; 1; 5; 9] 3).1 = None ∧
  length (yielded (triplet_generate_samples
                     (X := BertPassage.bertpassage_extractor vocab extractor_q1)
                     sampler1 [3; 1; 4; 1; 5; 9] 3).1) = 3 ∧
  logged (triplet_generate_samples
            (X := BertPassage.bertpassage_extractor vocab extractor_q1)
            sampler1 [3; 1; 4; 1; 5; 9] 3).1 = [].
Proof.
  destruct (triplet_sampler_visits_every_query
              (X := BertPassage.bertpassage_extractor vocab extractor_q1)
              pool1 qrels1 1 sampler1 [LogRemovingQid "q2" 1 0]
              [3; 1; 4; 1; 5; 9] 3 pool1_keys_NoDup prepare_pool1)
    as (visits & _ & _ & _ & Heq).
  { done. }
  { intros qid pos neg (rel & neg' & Hrel & Hpos & Hneg & Hnegin).
    unfold sampler1 in Hrel, Hneg. cbn in Hrel, Hneg.
    destruct (decide ("q1" = qid)) as [<-|]; [|done].
    injection Hrel as <-. injection Hneg as <-.
    apply list_elem_of_singleton in Hpos as ->.
    apply list_elem_of_singleton in Hnegin as ->.
    left. eexists. vm_compute. reflexivity. }
  split_and!; [by rewrite Heq | vm_compute; reflexivity | vm_compute; reflexivity].
Defined.

Lemma clean_is_idempotent_witness :
  NoDup pool1.*1 ∧
  ∃ s log, prepare pool1 qrels1 1 = Returned (s, log) ∧ clean s = Returned (s, []).
Proof.
  split; [exact pool1_keys_NoDup|].
  exact (clean_is_idempotent pool1 qrels1 1 pool1_keys_NoDup).
Defined.

(** X4.  When [prepare] retains no query (here stated through the
    candidate lists that survive it), the two training generators raise
    their RuntimeError before drawing anything from the random source
    and before yielding, while the prediction generator simply ends
    without an instance and without an exception. *)
Theorem generators_on_empty_sampler {Inst} {X : Extractor Inst}
    pool (qrels : gmap string (gmap string Z)) lvl :
  NoDup pool.*1 →
  retained pool qrels lvl = [] →
  ∃ s log,
    prepare pool qrels lvl = Returned (s, log) ∧
    (∀ seeded rounds,
       triplet_generate_samples s seeded rounds
       = ({| yielded := []; logged := [];
             raised := Some (RuntimeError "TrainDataset has no valid qids" ∅) |},
          seeded)) ∧
    (∀ seeded rounds,
       pair_generate_samples s seeded rounds
       = ({| yielded := []; logged := [];
             raised := Some (RuntimeError "TrainDataset has no valid training pairs" ∅) |},
          seeded)) ∧
    pred_generate_samples s = {| yielded := []; logged := []; raised := None |}.
Proof.
  intros Hnd Hempty. destruct (prepare_returns qrels lvl pool Hnd) as [log Hprep].
  eexists _, log. split; [exact Hprep|]. rewrite Hempty.
  split_and!; reflexivity.
Qed.

Lemma generators_on_empty_sampler_witness :
  ∃ s log,
    prepare pool_unjudged qrels1 1 = Returned (s, log) ∧
    raised (triplet_generate_samples (X := echo) s [1; 2] 5).1
    = Some (RuntimeError "TrainDataset has no valid qids" ∅).
Proof.
  destruct (generators_on_empty_sampler (X := echo) pool_unjudged qrels1 1)
    as (s & log & Hp & Ht & _).
  { apply (bool_decide_unpack _). vm_compute. exact I. }
  { reflexivity. }
  exists s, log. split; [done|]. by rewrite Ht.
Defined.

End generator_theorems.

Section pair_sampler_facts.
Import Sampler SamplerSpec PairSampler GeneratorSpec Examples MoreExamples.
Context {Inst : Type} {X : Extractor Inst}.

Lemma pair_docs_all (P : string → Prop) qid lbl docids : ∀ acc,
  (∀ d, d ∈ docids → P d ∧ ∃ inst, id2vec qid d None lbl = Returned inst) →
  ∃ new,
    pair_docs qid lbl docids acc
    = {| yielded := yielded acc ++ new; logged := logged acc; raised := raised acc |} ∧
    Forall2 (λ inst d, P d ∧ id2vec qid d None lbl = Returned inst) new docids.
Proof.
  induction docids as [|d docids IH]; intros acc Hok.
  - exists []. rewrite app_nil_r. split; [by destruct acc | constructor].
  - destruct (Hok d) as [HP [inst Hinst]]; [apply elem_of_cons; by left|].
    cbn [pair_docs]. rewrite Hinst.
    destruct (IH (gen_yield acc inst)) as (new & -> & Hall).
    { intros d' Hd'. apply Hok. apply elem_of_cons; by right. }
    exists (inst :: new). cbn [gen_yield yielded logged raised].
    rewrite <- app_assoc. split; [done | by constructor].
Qed.

(** One pass of the pair loop: for each query its relevant documents,
    then its non-relevant ones, each with the label of its side. *)
Lemma pair_qids_all (s : sampler) qids : ∀ acc,
  raised acc = None →
  Forall (λ qid, ∃ rel neg,
            dict_get qid (qid_to_reldocs s) = Some rel ∧
            dict_get qid (qid_to_negdocs s) = Some neg ∧
            ∀ d, d ∈ neg → d ∉ rel) qids →
  (∀ p lbl, p ∈ pair_order s qids → ∃ inst, id2vec p.1 p.2 None lbl = Returned inst) →
  ∃ new,
    pair_qids s qids acc
    = {| yielded := yielded acc ++ new; logged := logged acc; raised := None |} ∧
    Forall2 (emitted_for s) new (pair_order s qids).
Proof.
  induction qids as [|qid qids IH]; intros acc Hacc Hall Hok.
  - exists []. rewrite app_nil_r. split; [|constructor].
    destruct acc; simpl in *; by subst.
  - apply Forall_cons in Hall as [(rel & neg & Hrel & Hneg & Hdisj) Hall].
    assert (Hhere : ∀ d lbl, d ∈ rel ++ neg → ∃ inst, id2vec qid d None lbl = Returned inst).
    { intros d lbl Hd. apply (Hok (qid, d)). unfold pair_order. cbn [flat_map].
      rewrite Hrel, Hneg. apply elem_of_app. left. by apply list_elem_of_fmap_2. }
    cbn [pair_qids]. rewrite Hrel.
    destruct (pair_docs_all (λ d, d ∈ rel) qid [0; 1]%Z rel acc) as (new1 & -> & Hall1).
    { intros d Hd. split; [done|]. apply Hhere. apply elem_of_app. by left. }
    cbn [raised]. rewrite Hacc, Hneg.
    destruct (pair_docs_all (λ d, d ∉ rel) qid [1; 0]%Z neg
                {| yielded := yielded acc ++ new1; logged := logged acc; raised := None |})
      as (new2 & -> & Hall2).
    { intros d Hd. split; [by apply Hdisj|]. apply Hhere. apply elem_of_app. by right. }
    cbn [raised yielded logged].
    destruct (IH {| yielded := (yielded acc ++ new1) ++ new2; logged := logged acc;
                    raised := None |} eq_refl Hall) as (new3 & -> & Hall3).
    { intros p lbl Hp. apply Hok. unfold pair_order. cbn [flat_map].
      apply elem_of_app. by right. }
    exists (new1 ++ new2 ++ new3). cbn [yielded logged]. rewrite <- !app_assoc.
    split; [done|]. unfold pair_order. cbn [flat_map]. rewrite Hrel, Hneg. cbn [default].
    rewrite fmap_app, <- app_assoc.
    apply Forall2_app; [|apply Forall2_app; [|exact Hall3]].
    + apply Forall2_fmap_r. eapply Forall2_impl; [exact Hall1|].
      intros inst d [Hd Hinst]. unfold emitted_for, relevant_set, pred_label, compose.
      cbn [fst snd]. rewrite Hrel. cbn [default]. by rewrite decide_True.
    + apply Forall2_fmap_r. eapply Forall2_impl; [exact Hall2|].
      intros inst d [Hd Hinst]. unfold emitted_for, relevant_set, pred_label, compose.
      cbn [fst snd]. rewrite Hrel. cbn [default]. by rewrite decide_False.
Qed.

Lemma flat_map_Permutation_pointwise {A B} (f g : A → list B) (l : list A) :
  Forall (λ a, f a ≡ₚ g a) l → flat_map f l ≡ₚ flat_map g l.
Proof.
  induction 1 as [|a l Ha Hall IH]; [done|].
  cbn [flat_map]. by rewrite Ha, IH.
Qed.

Lemma flat_map_keys {V B} (f : string → list B) (l : list (string * V)) :
  flat_map f l.*1 = flat_map (λ e, f e.1) l.
Proof. induction l as [|e l IH]; [done|]. cbn [fmap list_fmap flat_map]. by f_equal. Qed.

End pair_sampler_facts.

Section pair_sampler_theorems.
Import Sampler SamplerSpec PairSampler GeneratorSpec Examples MoreExamples.

(** X5.  One round of the pair sampler over a sampler that [prepare]
    leaves with at least one query, with an extractor that has features
    for its candidates: the generator raises nothing, and what it yields
    is, up to the order of the round, one instance per (query,
    candidate) occurrence of the retained candidate lists, labelled
    [0, 1] for a relevant and [1, 0] for a non-relevant candidate: the
    same labelled instances as one pass of the prediction sampler. *)
Theorem pair_sampler_round_covers_candidates {Inst} {X : Extractor Inst}
    pool (qrels : gmap string (gmap string Z)) lvl seeded :
  NoDup pool.*1 →
  retained pool qrels lvl ≠ [] →
  (∀ p lbl, p ∈ pairs_of (retained pool qrels lvl) →
            ∃ inst, id2vec p.1 p.2 None lbl = Returned inst) →
  ∃ s log order,
    prepare pool qrels lvl = Returned (s, log) ∧
    raised (pair_generate_samples s seeded 1).1 = None ∧
    order ≡ₚ get_qid_docid_pairs s ∧
    Forall2 (λ inst p,
               id2vec p.1 p.2 None
                 (if decide (p.2 ∈ relevant_set s p.1) then [0; 1]%Z else [1; 0]%Z)
               = Returned inst)
      (yielded (pair_generate_samples s seeded 1).1) order.
Proof.
  intros Hnd Hne Hok. destruct (prepare_returns qrels lvl pool Hnd) as [log Hprep].
  set (s := {| qid_to_docids := retained pool qrels lvl;
               qid_to_reldocs := rel_side (rel_entry qrels lvl) (retained pool qrels lvl);
               qid_to_negdocs := neg_side (neg_entry qrels lvl) (retained pool qrels lvl);
               total_samples :=
                 1 + sum_list ((λ e, length (rel_entry qrels lvl e) *
                                     length (neg_entry qrels lvl e))
                               <$> in_qrels qrels pool) |}) in *.
  assert (Hkeys : dict_keys (qid_to_reldocs s) = (retained pool qrels lvl).*1).
  { unfold dict_keys, s, rel_side. cbn [qid_to_reldocs]. by rewrite <- list_fmap_compose. }
  assert (Hentry : ∀ e, e ∈ retained pool qrels lvl →
            ∃ jd, dict_get e.1 (qid_to_reldocs s) = Some (reldocs_of jd lvl e.2) ∧
                  dict_get e.1 (qid_to_negdocs s) = Some (negdocs_of jd lvl e.2)).
  { intros [q ds] He. cbn [fst snd].
    assert (Hget : dict_get q (retained pool qrels lvl) = Some ds)
      by (apply dict_get_elem; [by apply retained_NoDup | done]).
    destruct (prepared_entry qrels lvl pool q ds Hnd Hget) as (jd & _ & _ & Hr & Hn & _).
    by exists jd. }
  assert (Hsides : Forall (λ qid, ∃ rel neg,
              dict_get qid (qid_to_reldocs s) = Some rel ∧
              dict_get qid (qid_to_negdocs s) = Some neg ∧
              ∀ d, d ∈ neg → d ∉ rel) (retained pool qrels lvl).*1).
  { apply Forall_fmap, Forall_forall. intros e He.
    destruct (Hentry e He) as (jd & Hr & Hn). cbn [compose].
    exists (reldocs_of jd lvl e.2), (negdocs_of jd lvl e.2). split_and!; [done..|].
    intros d. unfold reldocs_of, negdocs_of. rewrite !list_elem_of_filter. lia. }
  assert (Horder : pair_order s (retained pool qrels lvl).*1
                   ≡ₚ pairs_of (retained pool qrels lvl)).
  { unfold pair_order, pairs_of. rewrite flat_map_keys.
    apply flat_map_Permutation_pointwise, Forall_forall. intros e He.
    destruct (Hentry e He) as (jd & -> & ->). cbn [default].
    apply fmap_Permutation. rewrite neg_is_complement. unfold reldocs_of.
    apply filter_app_complement. }
  assert (Hmain : ∃ order,
            raised (pair_generate_samples s seeded 1).1 = None ∧
            order ≡ₚ pairs_of (retained pool qrels lvl) ∧
            Forall2 (emitted_for s) (yielded (pair_generate_samples s seeded 1).1) order).
  { unfold pair_generate_samples. rewrite Hkeys.
    pose proof (sorted_qids_Permutation (retained pool qrels lvl).*1) as Hsorted.
    rewrite decide_False.
    2:{ rewrite Hsorted, length_fmap.
        destruct (retained pool qrels lvl); [done | simpl; lia]. }
    cbn [pair_rounds].
    pose proof (shuffle_Permutation (sorted_qids (retained pool qrels lvl).*1) seeded)
      as Hshuf.
    destruct (shuffle (sorted_qids (retained pool qrels lvl).*1) seeded) as [qs g1].
    cbn [fst] in Hshuf. rewrite Hsorted in Hshuf.
    assert (Hqs : pair_order s qs ≡ₚ pairs_of (retained pool qrels lvl)).
    { rewrite <- Horder. unfold pair_order. by apply Permutation_flat_map. }
    destruct (pair_qids_all s qs gen_start eq_refl) as (new & Heq & Hall).
    { by rewrite Hshuf. }
    { intros p lbl Hp. apply Hok. by rewrite <- Hqs. }
    exists (pair_order s qs). rewrite Heq. cbn [raised yielded gen_start app fst].
    split_and!; [done | exact Hqs | exact Hall]. }
  destruct Hmain as (order & Hraised & Hperm & Hall).
  exists s, log, order. split_and!; [exact Hprep | exact Hraised | exact Hperm | exact Hall].
Qed.

Lemma pair_sampler_round_covers_candidates_witness :
  ∃ s log,
    prepare pool1 qrels1 1 = Returned (s, log) ∧
    (pair_generate_samples (X := echo) s [5; 7] 1).1
    = {| yielded := [("q1", "d1", None, [0; 1]%Z); ("q1", "d2", None, [1; 0]%Z)];
         logged := []; raised := None |}.
Proof.
  destruct (pair_sampler_round_covers_candidates (X := echo) pool1 qrels1 1 [5; 7]
              pool1_keys_NoDup) as (s & log & order & Hp & _).
  { vm_compute. discriminate. }
  { intros p lbl _. eexists. reflexivity. }
  exists s, log. split; [done|].
  rewrite prepare_pool1 in Hp. injection Hp as <- _. vm_compute. reflexivity.
Defined.

End pair_sampler_theorems.

(* ===================================================================== *)
(** ** TrecCheckpointCallback.get_preds_in_trec_format                    *)
(* ===================================================================== *)

Section trec_facts.
Import Sampler TrainIteration TrainIterationSpec Examples MoreExamples.
Context {Score : Type}.
Variable to_float16 : Score → Score.

Lemma score_of_store (acc : gmap string (gmap string Score)) q d v q' d' :
  score_of (store acc q d v) q' d'
  = if decide (q = q' ∧ d = d') then Some v else score_of acc q' d'.
Proof.
  unfold score_of, store. destruct (decide (q = q')) as [<-|Hq].
  - rewrite lookup_insert_eq. cbn [mbind option_bind].
    destruct (decide (d = d')) as [<-|Hd].
    + rewrite lookup_insert_eq. by rewrite decide_True.
    + rewrite lookup_insert_ne by done. rewrite decide_False by tauto.
      destruct (acc !! q); [done|]. cbn [default mbind option_bind]. apply lookup_empty.
  - rewrite lookup_insert_ne by done. by rewrite decide_False by tauto.
Qed.

Lemma preds_loop_spec pairs : ∀ i (acc : gmap string (gmap string Score)) predictions,
  NoDup pairs →
  (∀ j, j < length pairs →
        ∃ row v, predictions !! (i + j) = Some row ∧ row !! 0 = Some v) →
  ∃ r,
    preds_loop to_float16 i pairs predictions acc = Returned r ∧
    (∀ j q d, pairs !! j = Some (q, d) →
       score_of r q d = to_float16 <$> (predictions !! (i + j) ≫= (.!! 0))) ∧
    (∀ q d, (q, d) ∉ pairs → score_of r q d = score_of acc q d).
Proof.
  induction pairs as [|[q0 d0] pairs IH]; intros i acc predictions Hnd Hrows.
  - exists acc. split_and!; [done| |done]. intros j q d Hj. by rewrite lookup_nil in Hj.
  - apply NoDup_cons in Hnd as [Hfresh Hnd].
    destruct (Hrows 0) as (row & v & Hrow & Hv); [simpl; lia|].
    rewrite Nat.add_0_r in Hrow. cbn [preds_loop]. rewrite Hrow, Hv.
    destruct (IH (S i) (store acc q0 d0 (to_float16 v)) predictions Hnd)
      as (r & -> & Hin & Hout).
    { intros j Hj. destruct (Hrows (S j)) as (row' & v' & H1 & H2); [simpl; lia|].
      exists row', v'. split; [|done]. rewrite <- H1. f_equal. lia. }
    exists r. split_and!; [done| |].
    + intros [|j] q d Hj.
      * cbn in Hj. injection Hj as <- <-. rewrite Hout by done.
        rewrite score_of_store, decide_True by done.
        rewrite Nat.add_0_r, Hrow. cbn. by rewrite Hv.
      * cbn in Hj. rewrite (Hin j q d Hj). do 3 f_equal. lia.
    + intros q d Hnot. apply not_elem_of_cons in Hnot as [Hne Hnot].
      rewrite Hout by done. rewrite score_of_store, decide_False; [done|].
      intros [-> ->]. by apply Hne.
Qed.

(** X6.  With one non-empty prediction row per (qid, docid) pair of the
    dev data, and no pair occurring twice, [get_preds_in_trec_format]
    returns a run in which the score filed under the j-th pair is the
    first entry of the j-th prediction row, reduced to float16, and in
    which nothing is filed under any other (qid, docid). *)
Theorem preds_in_trec_format_aligned (predictions : list (list Score)) (dev_data : sampler) :
  NoDup (get_qid_docid_pairs dev_data) →
  length (get_qid_docid_pairs dev_data) ≤ length predictions →
  Forall (λ row, row ≠ []) predictions →
  ∃ run,
    get_preds_in_trec_format to_float16 predictions dev_data = Returned run ∧
    (∀ j qid docid row v,
       get_qid_docid_pairs dev_data !! j = Some (qid, docid) →
       predictions !! j = Some row → row !! 0 = Some v →
       score_of run qid docid = Some (to_float16 v)) ∧
    (∀ qid docid, is_Some (score_of run qid docid) →
                  (qid, docid) ∈ get_qid_docid_pairs dev_data).
Proof.
  intros Hnd Hlen Hrows. unfold get_preds_in_trec_format.
  destruct (preds_loop_spec (get_qid_docid_pairs dev_data) 0 ∅ predictions Hnd)
    as (run & -> & Hin & Hout).
  { intros j Hj. destruct (predictions !! j) as [row|] eqn:Hrow.
    - pose proof (list_elem_of_lookup_2 _ _ _ Hrow) as Hmem.
      rewrite Forall_forall in Hrows. specialize (Hrows row Hmem).
      destruct row as [|v row]; [done|]. by exists (v :: row), v.
    - apply lookup_ge_None in Hrow. lia. }
  exists run. split_and!; [done| |].
  - intros j qid docid row v Hj Hrow Hv. rewrite (Hin j qid docid Hj).
    cbn [Nat.add]. rewrite Hrow. cbn. by rewrite Hv.
  - intros qid docid Hsome.
    destruct (decide ((qid, docid) ∈ get_qid_docid_pairs dev_data)) as [|Hnot]; [done|].
    rewrite (Hout qid docid Hnot) in Hsome. unfold score_of in Hsome.
    rewrite lookup_empty in Hsome. by destruct Hsome.
Qed.

(** Too few prediction rows: the loop runs out of rows. *)
Lemma preds_loop_short pairs : ∀ i (acc : gmap string (gmap string Score)) predictions,
  i ≤ length predictions →
  length predictions < i + length pairs →
  Forall (λ row, row ≠ []) predictions →
  preds_loop to_float16 i pairs predictions acc = Raised IndexError.
Proof.
  induction pairs as [|[q d] pairs IH]; intros i acc predictions Hi Hlen Hrows.
  - simpl in Hlen. lia.
  - cbn [preds_loop]. destruct (predictions !! i) as [row|] eqn:Hrow; [|done].
    pose proof (list_elem_of_lookup_2 _ _ _ Hrow) as Hmem.
    rewrite Forall_forall in Hrows. pose proof (Hrows row Hmem) as Hne.
    destruct row as [|v row]; [done|]. cbn.
    apply lookup_lt_Some in Hrow.
    apply IH; [lia | simpl in Hlen; lia | by apply Forall_forall].
Qed.

End trec_facts.

Section trec_examples.
Import Sampler TrainIteration TrainIterationSpec Examples MoreExamples.

Lemma preds_in_trec_format_aligned_witness :
  ∃ run,
    get_preds_in_trec_format (λ x : Z, x) [[10]; [20]; [30]; [40]; [50]]%Z sampler2
      = Returned run ∧
    score_of run "q1" "d3" = Some 30%Z ∧
    score_of run "q2" "d1" = Some 50%Z ∧
    score_of run "q2" "d2" = None.
Proof.
  destruct (preds_in_trec_format_aligned (λ x : Z, x) [[10]; [20]; [30]; [40]; [50]]%Z
              sampler2) as (run & Hrun & Hin & Hout).
  { apply (bool_decide_unpack _). vm_compute. exact I. }
  { simpl. lia. }
  { repeat constructor; done. }
  exists run. split_and!; [done| | |].
  - by apply (Hin 2 "q1" "d3" [30%Z] 30%Z).
  - by apply (Hin 4 "q2" "d1" [50%Z] 50%Z).
  - destruct (score_of run "q2" "d2") as [v|] eqn:Hs; [|done].
    assert (Hmem : ("q2", "d2") ∈ get_qid_docid_pairs sampler2) by (apply Hout; by eexists).
    vm_compute in Hmem. exfalso.
    repeat (apply elem_of_cons in Hmem as [Hmem|Hmem]; [discriminate|]).
    by apply elem_of_nil in Hmem.
Defined.

End trec_examples.

(* ===================================================================== *)
(** ** Further properties of BertPassage                                  *)
(* ===================================================================== *)

Section passages_more.
Import BertPassage BertPassageSpec Examples MoreExamples.
Variable tokenize : string → list string.

Lemma div_up_step n s :
  0 < s → 0 < n → (n + s - 1) `div` s = S ((n - s + s - 1) `div` s).
Proof.
  intros Hs Hn. destruct (decide (s ≤ n)) as [Hle|Hlt].
  - replace (n + s - 1) with ((n - s + s - 1) + 1 * s) by lia.
    rewrite Nat.div_add by lia. lia.
  - replace (n - s) with 0 by lia. rewrite (Nat.div_small (0 + s - 1)) by lia.
    symmetry. apply (Nat.div_unique _ _ _ (n - 1)); lia.
Qed.

(** [range(start, stop, step)] has ceil((stop - start) / step)
    elements, the k-th being start + k * step. *)
Lemma range_from_closed step : 0 < step → ∀ fuel start stop,
  (stop - start + step - 1) `div` step ≤ fuel →
  range_from fuel start stop step
  = (λ k, start + k * step) <$> seq 0 ((stop - start + step - 1) `div` step).
Proof.
  intros Hs. induction fuel as [|fuel IH]; intros start stop Hfuel.
  - cbn [range_from]. replace ((stop - start + step - 1) `div` step) with 0 by lia. done.
  - cbn [range_from]. destruct (decide (start < stop)) as [Hlt|Hge].
    + rewrite (div_up_step (stop - start) step) in * by lia.
      replace (stop - start - step) with (stop - (start + step)) in * by lia.
      cbn [seq fmap list_fmap]. f_equal; [lia|].
      rewrite IH by lia. rewrite <- fmap_S_seq, <- list_fmap_compose.
      apply list_fmap_ext. intros _ k _. simpl. lia.
    + replace (stop - start) with 0 by lia.
      rewrite Nat.div_small by lia. done.
Qed.

Lemma range0_closed stop step :
  0 < step →
  range0 stop step = (λ k, k * step) <$> seq 0 ((stop + step - 1) `div` step).
Proof.
  intros Hs. unfold range0. rewrite range_from_closed; [|done|].
  - rewrite Nat.sub_0_r. done.
  - rewrite Nat.sub_0_r. destruct stop as [|stop].
    + rewrite Nat.div_small by lia. done.
    + apply Nat.Div0.div_le_upper_bound. nia.
Qed.

Lemma get_passages_for_doc_fits c doc g :
  stride c ≠ 0 →
  length (real_passages tokenize c doc) ≤ numpassages c →
  get_passages_for_doc tokenize c doc g
  = (Returned (real_passages tokenize c doc ++
               replicate (numpassages c - length (real_passages tokenize c doc))
                 [pad_tok]), g).
Proof.
  intros Hs Hfit. unfold get_passages_for_doc. rewrite decide_False by done.
  rewrite passages_loop_real. rewrite decide_False by lia.
  rewrite decide_True; [done|]. rewrite length_app, length_replicate. lia.
Qed.

(** X7.  A document of n words has ceil(n / stride) real passages, the
    i-th being the tokenized window that starts at word i * stride.
    When that many passages fit into [numpassages], the function
    returns them in order followed by padding passages, and draws
    nothing from the random source. *)
Theorem passages_of_fitting_document c doc g :
  stride c ≠ 0 →
  (length doc + stride c - 1) `div` stride c ≤ numpassages c →
  ∃ real,
    get_passages_for_doc tokenize c doc g
    = (Returned (real ++ replicate (numpassages c - length real) [pad_tok]), g) ∧
    length real = (length doc + stride c - 1) `div` stride c ∧
    ∀ i, i < length real →
      real !! i = Some (tokenize (join " " (slice doc (i * stride c)
                                              (i * stride c + passagelen c)))).
Proof.
  intros Hs Hfit.
  assert (Hreal : real_passages tokenize c doc
            = (λ k, window tokenize c doc (k * stride c))
              <$> seq 0 ((length doc + stride c - 1) `div` stride c)).
  { unfold real_passages. rewrite range0_closed by lia.
    by rewrite <- list_fmap_compose. }
  assert (Hlen : length (real_passages tokenize c doc)
                 = (length doc + stride c - 1) `div` stride c).
  { by rewrite Hreal, length_fmap, length_seq. }
  exists (real_passages tokenize c doc). split_and!; [|done|].
  - apply get_passages_for_doc_fits; [done | by rewrite Hlen].
  - intros i Hi. rewrite Hreal, list_lookup_fmap.
    rewrite lookup_seq_lt by (by rewrite <- Hlen). done.
Qed.

(** X8.  The only way [get_passages_for_doc] fails is the ValueError of
    a zero stride or of a negative sample size ([numpassages < 2] with
    more real passages than [numpassages]); in every other case it
    returns exactly [numpassages] passages.  Neither of its two
    assertions can fail. *)
Theorem get_passages_for_doc_outcomes c doc g :
  (stride c = 0 ∨
   (numpassages c < 2 ∧ numpassages c < length (real_passages tokenize c doc)) →
   get_passages_for_doc tokenize c doc g = (Raised ValueError, g)) ∧
  (stride c ≠ 0 →
   2 ≤ numpassages c ∨ length (real_passages tokenize c doc) ≤ numpassages c →
   ∃ passages g',
     get_passages_for_doc tokenize c doc g = (Returned passages, g') ∧
     length passages = numpassages c).
Proof.
  split.
  - intros [Hz|[Hnp Hmany]]; unfold get_passages_for_doc.
    + by rewrite decide_True.
    + destruct (decide (stride c = 0)); [done|].
      rewrite passages_loop_real, decide_True by done.
      unfold keep_first_last.
      destruct (head (real_passages tokenize c doc)) eqn:Hh.
      * by rewrite decide_True.
      * apply head_None in Hh. rewrite Hh in Hmany. simpl in Hmany. lia.
  - intros Hs [Hnp|Hfit].
    + destruct (decide (numpassages c < length (real_passages tokenize c doc)))
        as [Hmany|Hfew].
      * unfold get_passages_for_doc. rewrite decide_False by done.
        rewrite passages_loop_real, decide_True by done.
        destruct (keep_first_last_spec c (real_passages tokenize c doc) g Hnp Hmany)
          as (first & final & middle & rest & g' & -> & _ & _ & Hmid & _).
        assert (Hlen : length ([first] ++ middle ++ [final]) = numpassages c).
        { simpl. rewrite length_app. simpl. lia. }
        rewrite decide_True by done. by eexists _, _.
      * rewrite get_passages_for_doc_fits by (done || lia).
        eexists _, _. split; [done|]. rewrite length_app, length_replicate. lia.
    + rewrite get_passages_for_doc_fits by done.
      eexists _, _. split; [done|]. rewrite length_app, length_replicate. lia.
Qed.

End passages_more.

Section passages_more_examples.
Import BertPassage BertPassageSpec Examples MoreExamples.

Lemma passages_of_fitting_document_witness :
  get_passages_for_doc whole_passage default_config doc120 [4; 2]
  = (Returned (whole_passage (join " " (take 150 doc120)) ::
               whole_passage (join " " (drop 100 doc120)) ::
               replicate 14 ["[PAD]"]), [4; 2]).
Proof.
  destruct (passages_of_fitting_document whole_passage default_config doc120 [4; 2])
    as (real & Hget & Hlen & Hwin); [simpl; lia | vm_compute; lia |].
  rewrite Hget. f_equal. f_equal.
  change ((length doc120 + stride default_config - 1) `div` stride default_config)
    with 2 in Hlen.
  destruct real as [|r0 [|r1 [|r2 real]]]; try (simpl in Hlen; lia).
  pose proof (Hwin 0 ltac:(simpl; lia)) as H0.
  pose proof (Hwin 1 ltac:(simpl; lia)) as H1.
  cbn [lookup list_lookup] in H0, H1. injection H0 as ->. injection H1 as ->.
  vm_compute. reflexivity.
Defined.

Lemma get_passages_for_doc_outcomes_witness :
  get_passages_for_doc whole_passage single_config ["a"; "b"; "c"] [1]
    = (Raised ValueError, [1]) ∧
  ∃ passages g',
    get_passages_for_doc whole_passage small_config doc9 [1] = (Returned passages, g') ∧
    length passages = 2.
Proof.
  destruct (get_passages_for_doc_outcomes whole_passage single_config ["a"; "b"; "c"] [1])
    as [Hfail _].
  destruct (get_passages_for_doc_outcomes whole_passage small_config doc9 [1])
    as [_ Hok].
  split.
  - apply Hfail. right. vm_compute. lia.
  - apply Hok; [simpl; lia | left; simpl; lia].
Defined.

End passages_more_examples.

(* ===================================================================== *)
(** ** BertPassage._build_vocab and id2vec on what it builds              *)
(* ===================================================================== *)

Section build_facts.
Import BertPassage BertPassageSpec BertPassageBuild Examples MoreExamples.
Variable tokenize : string → list string.

Lemma get_passages_for_doc_returns c doc g :
  stride c ≠ 0 → 2 ≤ numpassages c →
  ∃ passages g',
    get_passages_for_doc tokenize c doc g = (Returned passages, g') ∧
    length passages = numpassages c.
Proof.
  intros Hs Hnp. unfold get_passages_for_doc. rewrite decide_False by done.
  rewrite passages_loop_real.
  destruct (decide (numpassages c < length (real_passages tokenize c doc)))
    as [Hmany|Hfew].
  - destruct (keep_first_last_spec c (real_passages tokenize c doc) g Hnp Hmany)
      as (first & final & middle & rest & g' & -> & _ & _ & Hmid & _).
    assert (Hlen : length ([first] ++ middle ++ [final]) = numpassages c).
    { simpl. rewrite length_app. simpl. lia. }
    rewrite decide_True by done. by eexists _, _.
  - rewrite decide_True by (rewrite length_app, length_replicate; lia).
    eexists _, _. split; [done|]. rewrite length_app, length_replicate. lia.
Qed.

Lemma build_passages_returns c get_doc docids : ∀ acc g,
  stride c ≠ 0 → 2 ≤ numpassages c →
  ∃ acc' g',
    build_passages tokenize c get_doc docids acc g = (Returned acc', g') ∧
    (∀ docid, is_Some (acc' !! docid) ↔ docid ∈ docids ∨ is_Some (acc !! docid)) ∧
    (∀ docid ps, acc' !! docid = Some ps →
       length ps = numpassages c ∨ acc !! docid = Some ps).
Proof.
  induction docids as [|docid0 docids IH]; intros acc g Hs Hnp.
  - exists acc, g. split_and!; [done| |by right].
    intros docid. rewrite elem_of_nil. tauto.
  - cbn [build_passages].
    destruct (get_passages_for_doc_returns c (get_doc docid0) g Hs Hnp)
      as (ps0 & g1 & -> & Hlen).
    destruct (IH (<[docid0 := ps0]> acc) g1 Hs Hnp) as (acc' & g' & -> & Hdom & Hall).
    exists acc', g'. split_and!; [done| |].
    + intros docid. rewrite Hdom, elem_of_cons.
      destruct (decide (docid0 = docid)) as [->|Hne].
      * rewrite lookup_insert_eq. split; [intros _; left; by left|]. intros _. right. by eexists.
      * rewrite lookup_insert_ne by done. split; [tauto|]. intros [[?|?]|?]; [congruence|tauto..].
    + intros docid ps Hps. destruct (Hall docid ps Hps) as [?|Hins]; [by left|].
      destruct (decide (docid0 = docid)) as [->|Hne].
      * rewrite lookup_insert_eq in Hins. injection Hins as <-. by left.
      * rewrite lookup_insert_ne in Hins by done. by right.
Qed.

Lemma build_qid2toks_returns topics qids : ∀ acc,
  (∀ qid, qid ∈ qids → is_Some (topics !! qid)) →
  ∃ toks,
    build_qid2toks tokenize topics qids acc = Returned toks ∧
    ∀ qid, toks !! qid
           = if decide (qid ∈ qids) then tokenize <$> topics !! qid else acc !! qid.
Proof.
  induction qids as [|qid0 qids IH]; intros acc Hall.
  - exists acc. split; [done|]. intros qid. rewrite decide_False; [done|]. apply not_elem_of_nil.
  - destruct (Hall qid0) as [text Htext]; [apply elem_of_cons; by left|].
    cbn [build_qid2toks]. rewrite Htext.
    destruct (IH (<[qid0 := tokenize text]> acc)) as (toks & -> & Hlook).
    { intros qid Hq. apply Hall. apply elem_of_cons; by right. }
    exists toks. split; [done|]. intros qid. rewrite Hlook.
    destruct (decide (qid ∈ qids)) as [Hin|Hnin].
    + rewrite decide_True; [done|]. apply elem_of_cons; by right.
    + destruct (decide (qid0 = qid)) as [->|Hne].
      * rewrite lookup_insert_eq, decide_True by (apply elem_of_cons; by left).
        by rewrite Htext.
      * rewrite lookup_insert_ne by done. rewrite decide_False; [done|].
        intros Hc. apply elem_of_cons in Hc as [?|?]; [congruence|done].
Qed.

(** X9.  With a positive stride, [numpassages >= 2] and a topic for
    every query, [_build_vocab] returns; the state it builds holds
    exactly the given documents, each with exactly [numpassages]
    passages, and for every given query the tokens of its topic. *)
Theorem build_vocab_state c get_doc (topics : gmap string string) qids docids g :
  stride c ≠ 0 →
  2 ≤ numpassages c →
  (∀ qid, qid ∈ qids → is_Some (topics !! qid)) →
  ∃ x g',
    build_vocab tokenize c get_doc topics qids docids g = (Returned x, g') ∧
    cfg x = c ∧
    (∀ docid, is_Some (docid2passages x !! docid) ↔ docid ∈ docids) ∧
    (∀ docid ps, docid2passages x !! docid = Some ps → length ps = numpassages c) ∧
    (∀ qid, qid ∈ qids → qid2toks x !! qid = tokenize <$> topics !! qid) ∧
    (∀ qid, qid ∉ qids → qid2toks x !! qid = None).
Proof.
  intros Hs Hnp Htopics. unfold build_vocab.
  destruct (build_passages_returns c get_doc docids ∅ g Hs Hnp)
    as (passages & g' & -> & Hdom & Hlen).
  destruct (build_qid2toks_returns topics qids ∅ Htopics) as (toks & -> & Hlook).
  eexists _, g'. split; [reflexivity|]. cbn [cfg docid2passages qid2toks].
  split_and!; [done| | | |].
  - intros docid. rewrite Hdom, lookup_empty. split; [|tauto].
    intros [?|[? ?]]; done.
  - intros docid ps Hps. destruct (Hlen docid ps Hps) as [?|Hemp]; [done|].
    by rewrite lookup_empty in Hemp.
  - intros qid Hq. by rewrite Hlook, decide_True.
  - intros qid Hq. by rewrite Hlook, decide_False.
Qed.

End build_facts.

Section missing_doc_facts.
Import BertPassage BertPassageSpec BertPassageBuild Examples MoreExamples.
Variable token_id : string → Z.

(** X10.  [id2vec] raises MissingDocError in exactly one situation
    ([maxseqlen >= 1]): query and positive document are known, a
    negative id is given (not [None], not empty), and the negative
    document is stored with zero passages; the exception then names the
    query and that negative id.  Hence an extractor none of whose stored
    documents has zero passages never raises MissingDocError. *)
Theorem id2vec_missing_doc (x : extractor) qid posid negid lbl a b :
  1 ≤ maxseqlen (cfg x) →
  (id2vec token_id x qid posid negid (Some lbl) = Raised (MissingDocError a b) ↔
   a = qid ∧ truthy negid = Some b ∧
   is_Some (qid2toks x !! qid) ∧ is_Some (docid2passages x !! posid) ∧
   docid2passages x !! b = Some []) ∧
  ((∀ docid, docid2passages x !! docid ≠ Some []) →
   id2vec token_id x qid posid negid (Some lbl) ≠ Raised (MissingDocError a b)).
Proof.
  intros Hm.
  assert (Hiff : id2vec token_id x qid posid negid (Some lbl) = Raised (MissingDocError a b) ↔
     a = qid ∧ truthy negid = Some b ∧
     is_Some (qid2toks x !! qid) ∧ is_Some (docid2passages x !! posid) ∧
     docid2passages x !! b = Some []).
  { unfold id2vec.
    destruct (qid2toks x !! qid) as [q|] eqn:Hq.
    2:{ split; [done|]. by intros (_ & _ & [? ?] & _). }
    destruct (docid2passages x !! posid) as [ps|] eqn:Hp.
    2:{ split; [done|]. by intros (_ & _ & _ & [? ?] & _). }
    rewrite encode_passages_spec by done.
    destruct (truthy negid) as [n|] eqn:Hn.
    2:{ split; [done|]. by intros (_ & ? & _). }
    destruct (docid2passages x !! n) as [nps|] eqn:Hnps.
    2:{ split; [done|]. intros (_ & [= <-] & _ & _ & Hb). congruence. }
    rewrite encode_passages_spec by done.
    destruct nps as [|np0 nps].
    - cbn [fmap list_fmap]. split.
      + intros [= <- <-]. split_and!; [done|done|by eexists|by eexists|done].
      + intros (-> & [= <-] & _). done.
    - cbn [fmap list_fmap]. split; [done|].
      intros (_ & [= <-] & _ & _ & Hb). congruence. }
  split; [exact Hiff|].
  intros Hnonempty Hraise. apply Hiff in Hraise as (_ & _ & _ & _ & Hb).
  by apply (Hnonempty b).
Qed.

End missing_doc_facts.

Section build_examples.
Import BertPassage BertPassageSpec BertPassageBuild Examples MoreExamples.

Lemma build_vocab_state_witness :
  ∃ x g',
    build_vocab whole_passage small_config get_doc2 topics2 ["q"] ["d1"; "d2"] [0]
      = (Returned x, g') ∧
    docid2passages x !! "d1" = Some [["a b c"]; ["e"]] ∧
    docid2passages x !! "d2" = Some [["x"]; ["[PAD]"]] ∧
    qid2toks x !! "q" = Some ["b d"].
Proof.
  destruct (build_vocab_state whole_passage small_config get_doc2 topics2 ["q"]
              ["d1"; "d2"] [0]) as (x & g' & Hb & _);
    [simpl; lia | simpl; lia | |].
  { intros qid Hq. apply list_elem_of_singleton in Hq as ->. by eexists. }
  exists x, g'. split; [done|].
  vm_compute in Hb. injection Hb as <- _. split_and!; reflexivity.
Defined.

Lemma id2vec_missing_doc_witness :
  id2vec vocab
    {| cfg := small_config; qid2toks := {[ "q" := ["a"] ]};
       docid2passages := {[ "d1" := [["x"]]; "gone" := [] ]} |}
    "q" "d1" (Some "gone") (Some [1; 0]%Z)
  = Raised (MissingDocError "q" "gone").
Proof.
  apply (id2vec_missing_doc vocab); [simpl; lia|].
  split_and!; [done | done | by eexists | by eexists | done].
Defined.

End build_examples.

Section row_facts.
Import BertPassage BertPassageSpec Examples MoreExamples.
Variable token_id : string → Z.

Lemma raw_input_line_snoc q p :
  raw_input_line q p = ("[CLS]" :: q ++ "[SEP]" :: p) ++ ["[SEP]"].
Proof. unfold raw_input_line. simpl. by rewrite <- app_assoc. Qed.

Lemma final_line_ends c q p :
  2 ≤ maxseqlen c →
  final_line c q p !! 0 = Some "[CLS]" ∧
  final_line c q p !! (length (final_line c q p) - 1) = Some "[SEP]".
Proof.
  intros Hm. pose proof (raw_input_line_length q p) as Hraw.
  unfold final_line. destruct (decide (maxseqlen c < length (raw_input_line q p))) as [Hlong|Hfit].
  - assert (Htake : length (take (maxseqlen c - 1) (raw_input_line q p)) = maxseqlen c - 1).
    { rewrite length_take. lia. }
    split.
    + rewrite lookup_app_l by lia. rewrite lookup_take_lt by lia. done.
    + rewrite length_app, Htake. cbn [length].
      apply list_lookup_middle. lia.
  - split; [done|]. rewrite raw_input_line_snoc at 2.
    apply list_lookup_middle. rewrite raw_input_line_snoc, length_app. simpl. lia.
Qed.

(** X11.  The rows [id2vec] builds for the passages of a document
    ([maxseqlen >= 2]).  With k = min(length of the line, maxseqlen):
    a token row has [maxseqlen] entries, begins with the id of [CLS],
    has the id of [SEP] at position k - 1 and the id of [PAD] from
    position k on; the mask row is 1 on the first k positions and 0 on
    the others. *)
Theorem id2vec_row_layout (x : extractor) qid posid lbl query_toks pos_passages :
  2 ≤ maxseqlen (cfg x) →
  qid2toks x !! qid = Some query_toks →
  docid2passages x !! posid = Some pos_passages →
  ∃ d,
    id2vec token_id x qid posid None (Some lbl) = Returned d ∧
    Forall2 (λ row p,
               length row = maxseqlen (cfg x) ∧
               row !! 0 = Some (token_id "[CLS]") ∧
               row !! (length (raw_input_line query_toks p) `min` maxseqlen (cfg x) - 1)
                 = Some (token_id "[SEP]") ∧
               ∀ i, length (raw_input_line query_toks p) `min` maxseqlen (cfg x) ≤ i →
                    i < maxseqlen (cfg x) →
                    row !! i = Some (token_id "[PAD]"))
      (posdoc d) pos_passages ∧
    Forall2 (λ mrow p,
               ∀ i, i < maxseqlen (cfg x) →
                    mrow !! i
                    = Some (if decide (i < length (raw_input_line query_toks p)
                                             `min` maxseqlen (cfg x))
                            then 1%Z else 0%Z))
      (posdoc_mask d) pos_passages.
Proof.
  intros Hm Hq Hpos. unfold id2vec. rewrite Hq, Hpos.
  rewrite encode_passages_spec by lia. cbn [truthy].
  eexists. split; [reflexivity|]. cbn [posdoc posdoc_mask]. split.
  - apply Forall2_fmap_l, Forall_Forall2_diag, Forall_forall. intros p _.
    pose proof (final_line_length (cfg x) query_toks p ltac:(lia)) as Hlen.
    pose proof (final_line_ends (cfg x) query_toks p Hm) as [Hcls Hsep].
    pose proof (raw_input_line_length query_toks p) as Hraw.
    split_and!.
    + apply ids_row_length. lia.
    + unfold ids_row. rewrite list_lookup_fmap, lookup_app_l by lia. by rewrite Hcls.
    + unfold ids_row. rewrite list_lookup_fmap, lookup_app_l by lia.
      rewrite <- Hlen. by rewrite Hsep.
    + intros i Hk Hi. unfold ids_row. rewrite list_lookup_fmap, lookup_app_r by lia.
      rewrite lookup_replicate_2 by lia. done.
  - apply Forall2_fmap_l, Forall_Forall2_diag, Forall_forall. intros p _ i Hi.
    unfold mask_row. destruct (decide _) as [Hlt|Hge].
    + rewrite lookup_app_l by (rewrite length_replicate; lia).
      by apply lookup_replicate_2.
    + rewrite lookup_app_r by (rewrite length_replicate; lia).
      rewrite length_replicate. apply lookup_replicate_2. lia.
Qed.

End row_facts.

Section row_examples.
Import BertPassage BertPassageSpec Examples MoreExamples.

Lemma id2vec_row_layout_witness :
  ∃ d,
    id2vec vocab small_extractor "q" "d1" None (Some [0; 1]%Z) = Returned d ∧
    posdoc d = [[101; 1001; 102; 1001; 102; 0]; [101; 1001; 102; 0; 102; 0]]%Z ∧
    posdoc_mask d = [[1; 1; 1; 1; 1; 0]; [1; 1; 1; 1; 1; 0]]%Z.
Proof.
  destruct (id2vec_row_layout vocab small_extractor "q" "d1" [0; 1]%Z ["a"]
              [["x"]; ["[PAD]"]]) as (d & Hd & _);
    [simpl; lia | reflexivity | reflexivity |].
  exists d. split; [done|].
  vm_compute in Hd. injection Hd as <-. split; reflexivity.
Defined.

End row_examples.

(* ===================================================================== *)
(** ** Saving and loading weights, composed                               *)
(* ===================================================================== *)

Section weights_more.
Import Reranker Trainer TrainerSpec Examples MoreExamples.
Context {tensor opt_state : Type}.
Implicit Types (m d : gmap string tensor) (w : world tensor opt_state).

Lemma load_state_dict_lookup d m k :
  load_state_dict d m !! k = (λ v, default v (d !! k)) <$> m !! k.
Proof.
  unfold load_state_dict. rewrite map_lookup_imap.
  by destruct (m !! k).
Qed.

Lemma saved_lookup m k :
  filter (λ kv : string * tensor, Is_true (persisted_key kv.1)) m !! k
  = if persisted_key k then m !! k else None.
Proof.
  destruct (persisted_key k) eqn:Hk.
  - destruct (m !! k) as [v|] eqn:Hm.
    + apply map_lookup_filter_Some. split; [done|]. simpl. by rewrite Hk.
    + apply map_lookup_filter_None. left. done.
  - apply map_lookup_filter_None. right. intros v _ H. simpl in H. by rewrite Hk in H.
Qed.

(** X12.  Round trip of the weights.  After [save_weights] at some
    point of the training, [load_weights] from the same file into a
    model with the same parameters, whatever their current values and
    whatever the optimizer's state, raises nothing; afterwards every
    persisted parameter has the value it had when saved, every excluded
    parameter (embedding table, "_nosave_") keeps its current value,
    and the optimizer has the saved state. *)
Theorem save_then_load_restores w fn m' (o' : opt_state) :
  (∀ k, is_Some (m' !! k) ↔ is_Some (state_dict w !! k)) →
  ∃ w',
    load_weights fn
      {| state_dict := m'; optimizer := o';
         weight_files := weight_files (save_weights fn w);
         optimizer_files := optimizer_files (save_weights fn w) |}
    = (None, w') ∧
    optimizer w' = optimizer w ∧
    (∀ k, persisted_key k = true → state_dict w' !! k = state_dict w !! k) ∧
    (∀ k, persisted_key k = false → state_dict w' !! k = m' !! k) ∧
    weight_files w' = weight_files (save_weights fn w) ∧
    optimizer_files w' = optimizer_files (save_weights fn w).
Proof.
  intros Hdom. eexists. split.
  - apply load_weights_ok; cbn [weight_files optimizer_files state_dict save_weights].
    + unfold write_file. by rewrite decide_True.
    + unfold write_file. by rewrite decide_True.
    + intros k Hk Hp. rewrite saved_lookup, Hp. by apply Hdom.
  - cbn [optimizer state_dict weight_files optimizer_files]. split_and!; try done.
    + intros k Hp. rewrite load_state_dict_lookup, saved_lookup, Hp.
      destruct (Hdom k) as [H1 H2].
      destruct (m' !! k) as [v'|] eqn:Hm'.
      * destruct H1 as [v Hv]; [by eexists|]. rewrite Hv. done.
      * destruct (state_dict w !! k) as [v|] eqn:Hv; [|done].
        destruct H2 as [? ?]; [by eexists | done].
    + intros k Hp. rewrite load_state_dict_lookup, saved_lookup, Hp.
      by destruct (m' !! k).
Qed.

(** X13.  A checkpoint without its optimizer file: when loss.txt is
    well formed and the weights file of the last recorded iteration
    loads, but its optimizer file is absent, [fastforward_training]
    returns 0 and yet leaves the model with the weights of that
    checkpoint; the optimizer is untouched. *)
Theorem fastforward_without_optimizer_file (d : disk tensor opt_state) flds losses wd :
  weights_path_exists d = true →
  loss_fn d = Some (indexed_lines flds) →
  Forall2 reads_as flds losses →
  weight_files (rr d) (IterWeights (Z.of_nat (length losses) - 1)) = Some wd →
  optimizer_files (rr d) (IterWeights (Z.of_nat (length losses) - 1)) = None →
  size (missing_keys (state_dict (rr d)) wd) = 0 →
  fastforward_training d
  = (Returned 0%Z,
     with_rr d {| state_dict := load_state_dict wd (state_dict (rr d));
                  optimizer := optimizer (rr d);
                  weight_files := weight_files (rr d);
                  optimizer_files := optimizer_files (rr d) |}).
Proof.
  intros Hdir Hloss Hall Hwd Ho Hmiss.
  rewrite (fastforward_training_reads d _ Hdir Hloss).
  rewrite (load_loss_file_indexed flds losses Hall).
  unfold load_weights. rewrite Hwd, Ho.
  rewrite decide_False by lia. done.
Qed.

End weights_more.

Section weights_more_examples.
Import Reranker Trainer TrainerSpec Examples MoreExamples.

Lemma save_then_load_restores_witness :
  ∃ w',
    load_weights DevBest
      {| state_dict := {[ "fc.weight" := 5%Z; "embedding.weight" := 8%Z ]};
         optimizer := 3;
         weight_files := weight_files (save_weights DevBest world9);
         optimizer_files := optimizer_files (save_weights DevBest world9) |}
    = (None, w') ∧
    state_dict w' !! "fc.weight" = Some 0%Z ∧
    state_dict w' !! "embedding.weight" = Some 8%Z ∧
    optimizer w' = 0.
Proof.
  destruct (save_then_load_restores world9 DevBest
              {[ "fc.weight" := 5%Z; "embedding.weight" := 8%Z ]} 3)
    as (w' & Hload & Ho & Hp & Hn & _).
  { intros k. unfold world9, model0. cbn [state_dict].
    rewrite !lookup_insert_is_Some, !lookup_singleton_is_Some. tauto. }
  exists w'. split_and!; [done| | |done].
  - rewrite Hp by reflexivity. reflexivity.
  - rewrite Hn by reflexivity. reflexivity.
Defined.

Lemma fastforward_without_optimizer_file_witness :
  (fastforward_training
     {| rr := {| state_dict := model0; optimizer := 0;
                 weight_files := weight_files world9;
                 optimizer_files := λ _, None |};
        weights_path_exists := true;
        loss_fn := Some (loss_text losses10) |}).1 = Returned 0%Z.
Proof.
  rewrite (fastforward_without_optimizer_file _ (FloatText <$> losses10) losses10 saved9);
    [reflexivity | reflexivity | reflexivity | | reflexivity | reflexivity
    | vm_compute; reflexivity].
  apply Forall2_fmap_l, Forall_Forall2_diag, Forall_forall. by intros x _.
Defined.

End weights_more_examples.

(* ===================================================================== *)
(** ** loss.txt, read back                                                *)
(* ===================================================================== *)

Section loss_file_more.
Import Reranker Trainer TrainerSpec Examples MoreExamples.

Lemma load_loss_lines_blank n : ∀ k acc tail,
  load_loss_lines k (replicate n [] ++ tail) acc
  = load_loss_lines (k + Z.of_nat n) tail acc.
Proof.
  induction n as [|n IH]; intros k acc tail.
  - cbn [replicate app]. by replace (k + Z.of_nat 0)%Z with k by lia.
  - cbn [replicate app load_loss_lines]. rewrite IH.
    by replace (k + 1 + Z.of_nat n)%Z with (k + Z.of_nat (S n))%Z by lia.
Qed.

Lemma load_loss_file_prefix flds losses tail :
  Forall2 reads_as flds losses →
  load_loss_file (Some (indexed_lines flds ++ tail))
  = load_loss_lines (Z.of_nat (length flds)) tail losses.
Proof.
  intros Hall.
  exact (load_loss_lines_indexed flds losses 0 [] tail Hall).
Qed.

(** X14.  Round trip of loss.txt.  The text [train] writes for a list
    of losses, read by [load_loss_file], is that list again; empty
    lines after the last record, however many, change nothing. *)
Theorem loss_file_round_trip (train_loss : list float) (n : nat) :
  load_loss_file (Some (loss_text train_loss ++ replicate n [])) = Returned train_loss.
Proof.
  replace (loss_text train_loss) with (indexed_lines (FloatText <$> train_loss)).
  - rewrite (load_loss_file_prefix _ train_loss).
    + rewrite <- (app_nil_r (replicate n [])), load_loss_lines_blank. done.
    + apply Forall2_fmap_l, Forall_Forall2_diag, Forall_forall. by intros x _.
  - unfold indexed_lines, loss_text. by rewrite imap_fmap.
Qed.

(** X15.  A loss.txt that is well formed up to some line.  If what
    follows is one or more empty lines and then the record with the
    next number, [fastforward_training] returns 0 and changes nothing:
    the empty lines count as lines, so the record is out of place.  If
    what follows is a line that has neither zero nor two fields, or
    whose first field is not an integer, the ValueError leaves
    [fastforward_training]. *)
Theorem fastforward_on_malformed_loss_file {tensor opt_state}
    (d : disk tensor opt_state) flds losses tail :
  weights_path_exists d = true →
  Forall2 reads_as flds losses →
  loss_fn d = Some (indexed_lines flds ++ tail) →
  (∀ k fld rest,
     tail = replicate (S k) [] ++ [IntText (Z.of_nat (length flds)); fld] :: rest →
     fastforward_training d = (Returned 0%Z, d)) ∧
  (∀ line rest,
     tail = line :: rest → length line ≠ 0 → length line ≠ 2 →
     fastforward_training d = (Raised ValueError, d)) ∧
  (∀ f fld rest,
     tail = [f; fld] :: rest → (∀ z, f ≠ IntText z) →
     fastforward_training d = (Raised ValueError, d)).
Proof.
  intros Hdir Hall Hloss.
  rewrite (fastforward_training_reads d _ Hdir Hloss).
  rewrite (load_loss_file_prefix flds losses tail Hall).
  split_and!.
  - intros k fld rest ->. rewrite load_loss_lines_blank.
    cbn [load_loss_lines py_int]. rewrite decide_True by lia. done.
  - intros line rest -> H0 H2.
    destruct line as [|f1 [|f2 [|f3 line]]]; simpl in *; try done.
  - intros f fld rest -> Hf. destruct f as [z| |]; [by destruct (Hf z)|done|done].
Qed.

End loss_file_more.

Section loss_file_more_examples.
Import Reranker Trainer TrainerSpec Examples MoreExamples.

Lemma fastforward_on_malformed_loss_file_witness :
  fastforward_training
    {| rr := world9; weights_path_exists := true; loss_fn := Some lines_inner_blank |}
  = (Returned 0%Z,
     {| rr := world9; weights_path_exists := true; loss_fn := Some lines_inner_blank |}) ∧
  (fastforward_training
     {| rr := world9; weights_path_exists := true; loss_fn := Some lines_garbled |}).1
  = Raised ValueError.
Proof.
  split.
  - destruct (fastforward_on_malformed_loss_file
                {| rr := world9; weights_path_exists := true;
                   loss_fn := Some lines_inner_blank |}
                [FloatText (Finite 1)] [Finite 1]
                [[]; [IntText 1; FloatText (Finite 2)]])
      as (H & _ & _); [reflexivity | by repeat constructor | reflexivity |].
    exact (H 0 (FloatText (Finite 2)) [] eq_refl).
  - destruct (fastforward_on_malformed_loss_file
                {| rr := world9; weights_path_exists := true;
                   loss_fn := Some lines_garbled |}
                [FloatText (Finite 1)] [Finite 1]
                [[IntText 1; FloatText (Finite 2); OtherText "x"]])
      as (_ & H & _); [reflexivity | by repeat constructor | reflexivity |].
    rewrite (H _ [] eq_refl); [reflexivity | done | done].
Defined.

End loss_file_more_examples.

(* ===================================================================== *)
(** ** A whole training run                                               *)
(* ===================================================================== *)

Section train_facts.
Import Reranker Trainer TrainerSpec TrainerRuns.
Context {tensor opt_state : Type}.
Implicit Types (t : setup tensor opt_state) (d : disk tensor opt_state).

Lemma write_file_same {A} (files : path → option A) fn (c : A) :
  write_file files fn c fn = Some c.
Proof. unfold write_file. by rewrite decide_True. Qed.

Lemma write_file_other {A} (files : path → option A) fn fn' (c : A) :
  fn' ≠ fn → write_file files fn c fn' = files fn'.
Proof. intros H. unfold write_file. by rewrite decide_False. Qed.

Lemma write_file_is_Some {A} (files : path → option A) fn fn' (c : A) :
  is_Some (files fn') → is_Some (write_file files fn c fn').
Proof.
  intros H. unfold write_file. destruct (decide (fn' = fn)); [by eexists|exact H].
Qed.

Ltac iteration_files :=
  unfold checkpointed, save_weights;
  cbn [rr state_dict optimizer weight_files optimizer_files];
  split_and!;
  [ rewrite ?(write_file_other _ DevBest) by done; apply write_file_same
  | rewrite ?(write_file_other _ DevBest) by done; apply write_file_same
  | intros fn H; by repeat apply write_file_is_Some
  | intros fn H; by repeat apply write_file_is_Some ].

(** What an iteration that returns has done. *)
Lemma train_iteration_inv t bm niter d acc d1 acc1 :
  train_iteration t bm niter d acc = Returned (d1, acc1) →
  ∃ x, acc1 = acc ++ [x] ∧
    loss_fn d1 = Some (loss_text acc1) ∧
    weights_path_exists d1 = true ∧
    checkpointed (rr d1) (IterWeights niter) ∧
    (∀ fn, is_Some (weight_files (rr d) fn) → is_Some (weight_files (rr d1) fn)) ∧
    (∀ fn, is_Some (optimizer_files (rr d) fn) → is_Some (optimizer_files (rr d1) fn)).
Proof.
  unfold train_iteration.
  destruct (single_train_iteration t _ _) as [[[x m] o]|e]; [|done].
  destruct (decide (validatefreq t = 0%Z)); [done|].
  destruct (decide ((niter `mod` validatefreq t)%Z = 0%Z)).
  - destruct (dev_metric t _) as [metric|e2]; [|done].
    intros [= <- <-]. exists x. split; [done|].
    cbn [loss_fn weights_path_exists]. split; [done|]. split; [done|].
    destruct (float_gt metric bm); iteration_files.
  - intros [= <- <-]. exists x. split; [done|].
    cbn [loss_fn weights_path_exists]. split; [done|]. split; [done|].
    iteration_files.
Qed.

(** An iteration raises only what its training pass or its validation
    raises. *)
Lemma train_iteration_raises t bm niter d acc e :
  validatefreq t ≠ 0%Z →
  train_iteration t bm niter d acc = Raised e → raised_inside t e.
Proof.
  intros Hv. unfold train_iteration.
  destruct (single_train_iteration t _ _) as [[[x m] o]|e1] eqn:Hs.
  - rewrite decide_False by done.
    destruct (decide ((niter `mod` validatefreq t)%Z = 0%Z)); [|done].
    destruct (dev_metric t _) as [metric|e2] eqn:Hm; [done|].
    intros [= <-]. right. by eexists.
  - intros [= <-]. left. by eexists _, _.
Qed.

Lemma train_iteration_returns t bm niter d acc :
  never_raises t → validatefreq t ≠ 0%Z →
  ∃ d1 acc1, train_iteration t bm niter d acc = Returned (d1, acc1).
Proof.
  intros [Hs Hm] Hv. unfold train_iteration.
  destruct (Hs (state_dict (rr d)) (optimizer (rr d))) as [[[x m] o] ->].
  rewrite decide_False by done.
  destruct (decide ((niter `mod` validatefreq t)%Z = 0%Z)); [|by eexists _, _].
  destruct (Hm (state_dict
                  (save_weights (IterWeights niter)
                     {| state_dict := m; optimizer := o;
                        weight_files := weight_files (rr d);
                        optimizer_files := optimizer_files (rr d) |}))) as [metric ->].
  by eexists _, _.
Qed.

Lemma train_loop_inv t bm iters : ∀ d acc d' acc',
  train_loop t bm iters d acc = Returned (d', acc') →
  ∃ new, acc' = acc ++ new ∧
    length new = length iters ∧
    (iters = [] → d' = d) ∧
    (iters ≠ [] →
       loss_fn d' = Some (loss_text acc') ∧ weights_path_exists d' = true) ∧
    (∀ j, last iters = Some j → checkpointed (rr d') (IterWeights j)) ∧
    (∀ fn, is_Some (weight_files (rr d) fn) → is_Some (weight_files (rr d') fn)) ∧
    (∀ fn, is_Some (optimizer_files (rr d) fn) → is_Some (optimizer_files (rr d') fn)) ∧
    (∀ i, i ∈ iters →
       is_Some (weight_files (rr d') (IterWeights i)) ∧
       is_Some (optimizer_files (rr d') (IterWeights i))).
Proof.
  induction iters as [|niter iters IH]; intros d acc d' acc'.
  - intros [= <- <-]. exists []. rewrite app_nil_r. split_and!; try done.
    intros i Hi. by apply elem_of_nil in Hi.
  - cbn [train_loop].
    destruct (train_iteration t bm niter d acc) as [[d1 acc1]|e] eqn:Hit; [|done].
    intros Hloop.
    destruct (train_iteration_inv _ _ _ _ _ _ _ Hit)
      as (x & -> & Hl1 & He1 & Hc1 & Hw1 & Ho1).
    destruct (IH _ _ _ _ Hloop)
      as (new & -> & Hlen & Hnil & Hcons & Hlast & Hw & Ho & Hall).
    exists (x :: new). split_and!.
    + by rewrite <- app_assoc.
    + simpl. by rewrite Hlen.
    + done.
    + intros _. destruct iters as [|i2 iters].
      * rewrite (Hnil eq_refl). destruct new; [|done]. by rewrite app_nil_r.
      * by apply Hcons.
    + intros j Hj. destruct iters as [|i2 iters].
      * injection Hj as <-. by rewrite (Hnil eq_refl).
      * apply Hlast. exact Hj.
    + intros fn H. by apply Hw, Hw1.
    + intros fn H. by apply Ho, Ho1.
    + intros i [->|Hi]%elem_of_cons.
      * destruct Hc1 as [Hc1 Hc2]. split; [apply Hw | apply Ho]; by eexists.
      * by apply Hall.
Qed.

Lemma train_loop_raises t bm iters : ∀ d acc e,
  validatefreq t ≠ 0%Z →
  train_loop t bm iters d acc = Raised e → raised_inside t e.
Proof.
  induction iters as [|niter iters IH]; intros d acc e Hv; [done|].
  cbn [train_loop].
  destruct (train_iteration t bm niter d acc) as [[d1 acc1]|e1] eqn:Hit.
  - by apply IH.
  - intros [= <-]. by eapply train_iteration_raises.
Qed.

Lemma train_loop_returns t bm iters : ∀ d acc,
  never_raises t → validatefreq t ≠ 0%Z →
  ∃ d' acc', train_loop t bm iters d acc = Returned (d', acc').
Proof.
  induction iters as [|niter iters IH]; intros d acc Hn Hv; [by eexists _, _|].
  cbn [train_loop].
  destruct (train_iteration_returns t bm niter d acc Hn Hv) as (d1 & acc1 & ->).
  by apply IH.
Qed.

Lemma last_seqZ (n : Z) :
  (0 < n)%Z → last (seqZ 0 n) = Some (n - 1)%Z.
Proof.
  intros Hn. rewrite last_lookup, length_seqZ.
  apply lookup_seqZ. lia.
Qed.

(** A run from scratch is the loop over [range(0, niters)] from the
    empty loss list. *)
Lemma train_unfold t d :
  fastforward t = false →
  train t d
  = train_loop t NegInf (seqZ 0 (niters t))
      {| rr := rr d; weights_path_exists := true; loss_fn := loss_fn d |} [].
Proof.
  intros Hff. unfold train. rewrite Hff.
  rewrite decide_False by lia. by rewrite Z.sub_0_r.
Qed.

(** What a run from scratch that returns has left. *)
Lemma train_from_scratch t d d' losses :
  fastforward t = false → (0 < niters t)%Z →
  train t d = Returned (d', losses) →
  Z.of_nat (length losses) = niters t ∧
  loss_fn d' = Some (loss_text losses) ∧
  weights_path_exists d' = true ∧
  checkpointed (rr d') (IterWeights (niters t - 1)) ∧
  (∀ i, (0 ≤ i < niters t)%Z →
     is_Some (weight_files (rr d') (IterWeights i)) ∧
     is_Some (optimizer_files (rr d') (IterWeights i))).
Proof.
  intros Hff Hn. rewrite (train_unfold t d Hff). intros Hloop.
  destruct (train_loop_inv _ _ _ _ _ _ _ Hloop)
    as (new & Hnew & Hlen & _ & Hcons & Hlast & _ & _ & Hall).
  simpl in Hnew. subst losses.
  assert (Hne : seqZ 0 (niters t) ≠ []).
  { intros H. apply (f_equal length) in H. rewrite length_seqZ in H. simpl in H. lia. }
  split_and!.
  - rewrite Hlen, length_seqZ. lia.
  - by apply Hcons.
  - by apply Hcons.
  - apply Hlast. by apply last_seqZ.
  - intros i Hi. apply Hall. apply elem_of_seqZ. lia.
Qed.

(** X16.  A training run from scratch, with [niters > 0] and
    [validatefreq] not zero.  If no training iteration and no
    validation raises, [train] returns.  If [train] raises, the
    exception is one that a training iteration or a validation raised:
    it is not handled, and [train] adds no failure of its own.  If
    [train] returns, it returns one loss per iteration; loss.txt reads
    back as exactly these losses; every iteration has a weights file and
    an optimizer file; and the files of the last iteration hold the
    final model's persisted parameters and the final optimizer state. *)
Theorem train_records_every_iteration t d :
  fastforward t = false → validatefreq t ≠ 0%Z → (0 < niters t)%Z →
  (never_raises t → ∃ d' losses, train t d = Returned (d', losses)) ∧
  (∀ e, train t d = Raised e → raised_inside t e) ∧
  (∀ d' losses, train t d = Returned (d', losses) →
     Z.of_nat (length losses) = niters t ∧
     load_loss_file (loss_fn d') = Returned losses ∧
     (∀ i, (0 ≤ i < niters t)%Z →
        is_Some (weight_files (rr d') (IterWeights i)) ∧
        is_Some (optimizer_files (rr d') (IterWeights i))) ∧
     checkpointed (rr d') (IterWeights (niters t - 1))).
Proof.
  intros Hff Hv Hn. split_and!.
  - intros Hnever. rewrite (train_unfold t d Hff). by apply train_loop_returns.
  - intros e. rewrite (train_unfold t d Hff). by apply train_loop_raises.
  - intros d' losses Htrain.
    destruct (train_from_scratch t d d' losses Hff Hn Htrain)
      as (Hlen & Hloss & _ & Hlast & Hall).
    split_and!; try done.
    rewrite Hloss. apply load_loss_file_roundtrip.
Qed.

(** X17.  Resuming a finished run.  After a run from scratch, a new
    process with [fastforward = True] over the files it left, whatever
    the values of its model's parameters and its optimizer's state,
    trains no iteration: [train] returns the losses of the finished run,
    the persisted parameters and the optimizer are those the finished
    run ended with, the other parameters keep the new process's values,
    and no file changes. *)
Theorem finished_training_resumes_to_nothing t d d' losses m (o : opt_state) :
  fastforward t = false → validatefreq t ≠ 0%Z → (0 < niters t)%Z →
  train t d = Returned (d', losses) →
  (∀ k, is_Some (m !! k) ↔ is_Some (state_dict (rr d') !! k)) →
  ∃ d'', train (resuming t) (restarted d' m o) = Returned (d'', losses) ∧
    optimizer (rr d'') = optimizer (rr d') ∧
    (∀ k, persisted_key k = true → state_dict (rr d'') !! k = state_dict (rr d') !! k) ∧
    (∀ k, persisted_key k = false → state_dict (rr d'') !! k = m !! k) ∧
    weight_files (rr d'') = weight_files (rr d') ∧
    optimizer_files (rr d'') = optimizer_files (rr d') ∧
    loss_fn d'' = loss_fn d'.
Proof.
  intros Hff Hv Hn Htrain Hdom.
  destruct (train_from_scratch t d d' losses Hff Hn Htrain)
    as (Hlen & Hloss & Hdir & [Hcw Hco] & _).
  unfold train. cbn [fastforward resuming].
  erewrite fastforward_training_reads; [|reflexivity|exact Hloss].
  rewrite load_loss_file_roundtrip.
  replace (Z.of_nat (length losses) - 1)%Z with (niters t - 1)%Z by lia.
  erewrite load_weights_ok; [|exact Hcw|exact Hco|].
  2:{ cbn [state_dict rr restarted]. intros k Hk Hp.
      rewrite saved_lookup, Hp. by apply Hdom. }
  cbn [with_rr rr loss_fn weights_path_exists restarted niters].
  rewrite decide_True by lia. rewrite Hloss, load_loss_file_roundtrip.
  change (niters (resuming t)) with (niters t).
  rewrite (decide_False (P := (niters t - 1 + 1 < niters t)%Z)) by lia.
  replace (niters t - (niters t - 1 + 1))%Z with 0%Z by lia.
  eexists. split; [reflexivity|].
  cbn [with_rr rr state_dict optimizer weight_files optimizer_files loss_fn].
  split_and!; try done.
  - intros k Hp. rewrite load_state_dict_lookup, saved_lookup, Hp.
    destruct (Hdom k) as [H1 H2].
    destruct (m !! k) as [v'|] eqn:Hm.
    + destruct H1 as [v Hv']; [by eexists|]. by rewrite Hv'.
    + destruct (state_dict (rr d') !! k) as [v|] eqn:Hv'; [|done].
      destruct H2 as [? ?]; [by eexists | done].
  - intros k Hp. rewrite load_state_dict_lookup, saved_lookup, Hp.
    by destruct (m !! k).
Qed.

End train_facts.

Section train_examples.
Import Reranker Trainer TrainerSpec TrainerRuns Examples MoreExamples.

Lemma train_records_every_iteration_witness :
  ∃ d' losses, train setup2 disk0 = Returned (d', losses) ∧
    Z.of_nat (length losses) = 2%Z ∧
    load_loss_file (loss_fn d') = Returned losses ∧
    is_Some (weight_files (rr d') (IterWeights 0)) ∧
    is_Some (weight_files (rr d') (IterWeights 1)).
Proof.
  destruct (train_records_every_iteration setup2 disk0)
    as (Hret & _ & Hleft); [reflexivity | done | reflexivity |].
  destruct Hret as (d' & losses & Htrain).
  { split; [intros m o | intros m]; eexists; reflexivity. }
  destruct (Hleft d' losses Htrain) as (H2 & H3 & H4 & _).
  exists d', losses. split_and!; [done | done | done | |].
  - apply (H4 0%Z). simpl. lia.
  - apply (H4 1%Z). simpl. lia.
Defined.

Lemma finished_training_resumes_to_nothing_witness :
  ∃ d'', train (resuming setup2) (restarted trained2 model0 5)
         = Returned (d'', [Finite 1; Finite 1]) ∧
    optimizer (rr d'') = 2 ∧
    state_dict (rr d'') !! "fc.weight" = Some 2%Z ∧
    state_dict (rr d'') !! "embedding.weight" = Some 7%Z.
Proof.
  destruct (finished_training_resumes_to_nothing setup2 disk0 trained2
              [Finite 1; Finite 1] model0 5)
    as (d'' & H1 & H2 & H3 & H4 & _);
    [reflexivity | done | reflexivity | vm_compute; reflexivity | |].
  - intros k.
    assert (Hm : state_dict (rr trained2) = Z.succ <$> (Z.succ <$> model0))
      by (vm_compute; reflexivity).
    rewrite Hm, !lookup_fmap, !fmap_is_Some. done.
  - exists d''. split_and!; [done | | |].
    + rewrite H2. vm_compute. reflexivity.
    + rewrite (H3 "fc.weight") by reflexivity. vm_compute. reflexivity.
    + rewrite (H4 "embedding.weight") by reflexivity. vm_compute. reflexivity.
Defined.

End train_examples.

(* ===================================================================== *)
(** ** One training iteration                                             *)
(* ===================================================================== *)

Section iteration_facts.
Import TrainIteration TrainIterationSpec.
Context {B : Type}.
Implicit Types (loader : list B) (trace : list (event B)).

Lemma succ_mod_zero (g bi : Z) :
  (1 ≤ g)%Z → (0 ≤ bi)%Z →
  (((bi + 1) `mod` g = 0)%Z → (bi `mod` g + 1 = g)%Z) ∧
  (((bi + 1) `mod` g ≠ 0)%Z →
     (bi `mod` g + 1 ≠ g)%Z ∧ ((bi + 1) `mod` g = bi `mod` g + 1)%Z).
Proof.
  intros Hg Hbi.
  pose proof (Z.mod_pos_bound bi g ltac:(lia)) as Hr.
  pose proof (Z.div_mod bi g ltac:(lia)) as Hq.
  destruct (decide (bi `mod` g + 1 = g)%Z) as [He|Hne].
  - assert (((bi + 1) `mod` g)%Z = 0%Z) as ->.
    { symmetry. apply (Z.mod_unique_pos _ _ (bi `div` g + 1)); lia. }
    split; [done|]. intros H. done.
  - assert (((bi + 1) `mod` g)%Z = (bi `mod` g + 1)%Z) as ->.
    { symmetry. apply (Z.mod_unique_pos _ _ (bi `div` g)); lia. }
    split; [lia|]. intros _. done.
Qed.

Lemma batches_loop_spec bpe gradacc g :
  (1 ≤ g)%Z → Qeq gradacc (inject_Z g) →
  ∀ loader bi trace,
    (0 ≤ bi < bpe)%Z →
    batches_loop bpe gradacc bi loader (bi `mod` g) trace
    = Returned (trace ++ schedule_from g bi (take (Z.to_nat (bpe - bi)) loader)).
Proof.
  intros Hg Hq. induction loader as [|b loader IH]; intros bi trace Hbi.
  - rewrite take_nil. simpl. by rewrite app_nil_r.
  - replace (Z.to_nat (bpe - bi)) with (S (Z.to_nat (bpe - (bi + 1)))) by lia.
    cbn [take schedule_from batches_loop].
    destruct (succ_mod_zero g bi Hg ltac:(lia)) as [Hz Hnz].
    destruct (decide (((bi + 1) `mod` g)%Z = 0%Z)) as [Hm|Hm].
    + assert (Qeq_bool (inject_Z (bi `mod` g + 1)) gradacc = true) as ->.
      { apply Qeq_bool_iff. rewrite Hq, (Hz Hm). reflexivity. }
      cbv beta iota. rewrite (decide_False (P := bpe = 0%Z)) by lia.
      destruct (decide (((bi + 1) `mod` bpe)%Z = 0%Z)) as [He|He].
      * assert (bi + 1 = bpe)%Z as Hlast.
        { destruct (decide (bi + 1 = bpe)%Z) as [|Hne]; [done|].
          rewrite Z.mod_small in He by lia. lia. }
        replace (Z.to_nat (bpe - (bi + 1))) with 0 by lia.
        rewrite take_0. cbn [schedule_from app]. by rewrite <- app_assoc.
      * assert (bi + 1 < bpe)%Z as Hlt.
        { destruct (decide (bi + 1 = bpe)%Z) as [Heq|Hne]; [|lia].
          rewrite Heq, Z.mod_same in He by lia. done. }
        replace 0%Z with ((bi + 1) `mod` g)%Z at 1 by exact Hm.
        rewrite IH by lia. f_equal. rewrite <- !app_assoc. done.
    + destruct (Hnz Hm) as [Hne Hsucc].
      assert (Qeq_bool (inject_Z (bi `mod` g + 1)) gradacc = false) as ->.
      { destruct (Qeq_bool _ gradacc) eqn:Hb; [|done].
        apply Qeq_bool_iff in Hb. rewrite Hq in Hb.
        unfold Qeq in Hb. simpl in Hb. lia. }
      cbv beta iota. rewrite (decide_False (P := bpe = 0%Z)) by lia.
      destruct (decide (((bi + 1) `mod` bpe)%Z = 0%Z)) as [He|He].
      * assert (bi + 1 = bpe)%Z as Hlast.
        { destruct (decide (bi + 1 = bpe)%Z) as [|Hne']; [done|].
          rewrite Z.mod_small in He by lia. lia. }
        replace (Z.to_nat (bpe - (bi + 1))) with 0 by lia.
        rewrite take_0. cbn [schedule_from app]. done.
      * assert (bi + 1 < bpe)%Z as Hlt.
        { destruct (decide (bi + 1 = bpe)%Z) as [Heq|Hne']; [|lia].
          rewrite Heq, Z.mod_same in He by lia. done. }
        rewrite <- Hsucc. rewrite IH by lia. f_equal. rewrite <- !app_assoc. done.
Qed.

Lemma backward_of_schedule g : ∀ loader k,
  omap backward_of (schedule_from g k loader) = loader.
Proof.
  induction loader as [|b loader IH]; intros k; [done|].
  cbn [schedule_from]. specialize (IH (k + 1)%Z).
  destruct (decide (((k + 1) `mod` g)%Z = 0%Z)); simpl; by f_equal.
Qed.

Lemma steps_schedule g : (1 ≤ g)%Z → ∀ loader k,
  (0 ≤ k)%Z →
  Z.of_nat (steps (schedule_from g k loader))
  = ((k + Z.of_nat (length loader)) `div` g - k `div` g)%Z.
Proof.
  intros Hg. induction loader as [|b loader IH]; intros k Hk.
  - cbn [schedule_from length]. unfold steps. simpl. rewrite Z.add_0_r. lia.
  - cbn [schedule_from length]. unfold steps in *.
    rewrite filter_cons_False by (simpl; tauto).
    rewrite filter_app, length_app, Nat2Z.inj_add, IH by lia.
    replace (k + Z.of_nat (S (length loader)))%Z
      with (k + 1 + Z.of_nat (length loader))%Z by lia.
    pose proof (Z.mod_pos_bound k g ltac:(lia)) as Hr.
    pose proof (Z.div_mod k g ltac:(lia)) as Hq.
    destruct (succ_mod_zero g k Hg Hk) as [Hz Hnz].
    destruct (decide (((k + 1) `mod` g)%Z = 0%Z)) as [Hm|Hm].
    + assert (((k + 1) `div` g)%Z = (k `div` g + 1)%Z) as ->.
      { symmetry. apply (Z.div_unique_pos _ _ _ 0); [lia|]. specialize (Hz Hm). lia. }
      rewrite filter_cons_True by (simpl; tauto). simpl length. lia.
    + assert (((k + 1) `div` g)%Z = (k `div` g)%Z) as ->.
      { symmetry. apply (Z.div_unique_pos _ _ _ (k `mod` g + 1)); [|lia].
        destruct (Hnz Hm). lia. }
      simpl. lia.
Qed.

(** X18.  One training iteration under a configuration the sanity
    checks accept, on a data loader that delivers at least one batch:
    [single_train_iteration] raises nothing; it takes the first
    [itersize // batch] batches of the loader (all of them when there
    are fewer), each goes backward once and in order, and the optimizer
    steps exactly after every [gradacc]-th of them, so the number of
    steps is the number of batches taken divided by [gradacc], rounded
    down. *)
Theorem single_train_iteration_schedule batch niters itersize gradacc lr loader :
  config_checks batch niters itersize gradacc lr = None →
  loader ≠ [] →
  let g := (Qnum gradacc `div` Z.pos (Qden gradacc))%Z in
  let taken := take (Z.to_nat (itersize `div` batch)) loader in
  single_train_iteration itersize batch gradacc loader = Returned (schedule g taken) ∧
  taken ≠ [] ∧
  omap backward_of (schedule g taken) = taken ∧
  Z.of_nat (steps (schedule g taken)) = (Z.of_nat (length taken) `div` g)%Z.
Proof.
  intros Hcfg Hne g taken. unfold config_checks in Hcfg.
  destruct (batch <? 1)%Z eqn:Hb; [done|]. apply Z.ltb_ge in Hb.
  destruct (niters <=? 0)%Z; [done|].
  destruct (itersize <? batch)%Z eqn:Hi; [done|]. apply Z.ltb_ge in Hi.
  destruct (Qle_bool 1 gradacc) eqn:Hle; [|done].
  destruct (is_integer gradacc) eqn:Hint; [|done]. clear Hcfg.
  assert (Hq : Qeq gradacc (inject_Z g)).
  { unfold is_integer in Hint. apply Z.eqb_eq in Hint.
    unfold Qeq, g. simpl. apply Z.div_exact in Hint; lia. }
  assert (Hg : (1 ≤ g)%Z).
  { apply Qle_bool_iff in Hle. rewrite Hq in Hle. unfold Qle in Hle. simpl in Hle. lia. }
  assert (Hbpe : (1 ≤ itersize `div` batch)%Z).
  { pose proof (Z.div_str_pos itersize batch). lia. }
  assert (Htaken : taken ≠ []).
  { unfold taken. destruct loader as [|b loader]; [done|].
    replace (Z.to_nat (itersize `div` batch))
      with (S (Z.to_nat (itersize `div` batch - 1))) by lia. done. }
  split_and!.
  - unfold single_train_iteration. rewrite decide_False by lia.
    pose proof (batches_loop_spec (itersize `div` batch) gradacc g Hg Hq loader 0 [])
      as Hloop.
    rewrite Z.mod_0_l, Z.sub_0_r in Hloop by lia.
    rewrite Hloop by lia. cbn [app]. fold taken. fold (schedule g taken).
    unfold schedule at 1. rewrite backward_of_schedule.
    by destruct taken.
  - done.
  - apply backward_of_schedule.
  - unfold schedule. rewrite steps_schedule by lia.
    rewrite Z.div_0_l by lia. by rewrite Z.add_0_l, Z.sub_0_r.
Qed.

End iteration_facts.

Section iteration_examples.
Import TrainIteration TrainIterationSpec MoreExamples.

Lemma single_train_iteration_schedule_witness :
  single_train_iteration 8 2 2 ten_batches
  = Returned [Backward 0; Backward 1; OptimizerStep;
              Backward 2; Backward 3; OptimizerStep].
Proof.
  destruct (single_train_iteration_schedule 2 20 8 2 (1 # 1000) ten_batches)
    as (H & _); [reflexivity | done |].
  rewrite H. reflexivity.
Defined.

End iteration_examples.

(* ===================================================================== *)
(** ** The checkpoint callback over the epochs of a run                   *)
(* ===================================================================== *)

Section callback_facts.
Import Trainer TrainerRuns MoreExamples.
Context {weights : Type}.
Implicit Types (cb : callback weights) (epochs : list (weights * float)).

Lemma float_gt_irrefl (m : float) : float_gt m m = false.
Proof.
  destruct m; simpl; try done.
  apply negb_false_iff, Qle_bool_iff, Qle_refl.
Qed.

Lemma float_gt_below (m' b m : float) :
  float_gt m' b = false → float_gt m b = true → float_gt m' m = false.
Proof.
  destruct m', b, m; simpl; try done.
  intros H1 H2. apply negb_false_iff, Qle_bool_iff in H1.
  apply negb_false_iff, Qle_bool_iff.
  destruct (Qlt_le_dec q0 q1) as [Hlt|Hle].
  - apply Qlt_le_weak in Hlt. by apply (Qle_trans _ q0).
  - apply Qle_bool_iff in Hle. by rewrite Hle in H2.
Qed.

Lemma float_gt_above (m' b m : float) :
  float_gt m' b = false → float_gt m b = true → float_gt m m' = true ∨ m' = NaN.
Proof.
  destruct m', b, m; simpl; try done; try (by left); try (by right).
  intros H1 H2. left. apply negb_false_iff, Qle_bool_iff in H1.
  apply negb_true_iff. destruct (Qle_bool q1 q) eqn:Hb; [|done].
  apply Qle_bool_iff in Hb.
  assert (Qle q1 q0) as Hle by by apply (Qle_trans _ q).
  apply Qle_bool_iff in Hle. by rewrite Hle in H2.
Qed.

Lemma after_epochs_snoc cb epochs w m :
  after_epochs cb (epochs ++ [(w, m)]) = on_epoch_end (after_epochs cb epochs) w m.
Proof. unfold after_epochs. by rewrite foldl_app. Qed.

(** X19.  The callback over a whole run.  After any sequence of
    epochs, no epoch's metric is greater than [best_metric]; and either
    dev.best was never written and [best_metric] is still [-inf], or
    dev.best holds the weights of an epoch whose metric is
    [best_metric] and every earlier epoch had a smaller metric (or
    NaN): the first epoch that reached the best metric. *)
Theorem callback_keeps_first_best epochs :
  (∀ w m, (w, m) ∈ epochs →
     float_gt m (best_metric (after_epochs callback_init epochs)) = false) ∧
  match dev_best (after_epochs callback_init epochs) with
  | None => best_metric (after_epochs callback_init epochs) = NegInf
  | Some w =>
      ∃ i, epochs !! i = Some (w, best_metric (after_epochs callback_init epochs)) ∧
        ∀ j w' m', j < i → epochs !! j = Some (w', m') →
          float_gt (best_metric (after_epochs callback_init epochs)) m' = true ∨ m' = NaN
  end.
Proof.
  induction epochs as [|[w m] epochs [IH1 IH2]] using rev_ind.
  - split; [|done]. intros w m H. by apply elem_of_nil in H.
  - rewrite after_epochs_snoc. unfold on_epoch_end.
    destruct (float_gt m (best_metric (after_epochs callback_init epochs))) eqn:Hgt.
    + cbn [best_metric dev_best]. split.
      * intros w' m' [H|H]%elem_of_app.
        -- by apply (float_gt_below _ _ _ (IH1 w' m' H)).
        -- apply list_elem_of_singleton in H as [= -> ->]. apply float_gt_irrefl.
      * exists (length epochs). split; [by apply list_lookup_middle|].
        intros j w' m' Hj Hlook. rewrite lookup_app_l in Hlook by done.
        apply (float_gt_above _ _ _ (IH1 w' m' (list_elem_of_lookup_2 _ _ _ Hlook)) Hgt).
    + split.
      * intros w' m' [H|H]%elem_of_app; [exact (IH1 w' m' H)|].
        apply list_elem_of_singleton in H as [= -> ->]. done.
      * destruct (dev_best (after_epochs callback_init epochs)) as [w0|]; [|done].
        destruct IH2 as (i & Hi & Hbefore). exists i.
        pose proof (lookup_lt_Some _ _ _ Hi) as Hlt. split.
        -- by rewrite lookup_app_l.
        -- intros j w' m' Hj Hlook. rewrite lookup_app_l in Hlook by lia.
           by apply (Hbefore j w').
Qed.

End callback_facts.

(* ===================================================================== *)
(** ** The run [predict] builds                                           *)
(* ===================================================================== *)

Section predict_facts.
Import TrainIteration TrainIterationSpec TrainerPredict.
Context {Score Features : Type}.
Variable to_float16 : Score → Score.
Implicit Types (rows : list (string * string * Score))
  (preds : gmap string (gmap string Score)).

Lemma predict_from_rows (test : batch Features → list Score) batches : ∀ preds,
  foldl (predict_batch to_float16 test) preds batches
  = foldl (λ preds r, store preds r.1.1 r.1.2 (to_float16 r.2)) preds
      (scored_rows test batches).
Proof.
  induction batches as [|b batches IH]; intros preds; [done|].
  unfold scored_rows. cbn [foldl mbind list_bind]. rewrite foldl_app.
  rewrite IH. done.
Qed.

Lemma rows_last_score rows : ∀ preds q d,
  score_of (foldl (λ preds r, store preds r.1.1 r.1.2 (to_float16 r.2)) preds rows) q d
  = match last_score q d rows with
    | Some s => Some (to_float16 s)
    | None => score_of preds q d
    end.
Proof.
  induction rows as [|r rows IH] using rev_ind; intros preds q d; [done|].
  rewrite foldl_app. cbn [foldl]. rewrite (score_of_store to_float16).
  unfold last_score. rewrite omap_app. cbn [omap list_omap].
  destruct (decide (r.1.1 = q ∧ r.1.2 = d)) as [He|Hne].
  - by rewrite last_snoc.
  - rewrite app_nil_r. apply IH.
Qed.

Lemma last_score_is_Some rows q d :
  is_Some (last_score q d rows) ↔ ∃ s, (q, d, s) ∈ rows.
Proof.
  unfold last_score. rewrite last_is_Some. split.
  - intros Hne.
    destruct (omap _ rows) as [|s l] eqn:Ho; [done|].
    assert (Hs : s ∈ omap (λ r : string * string * Score,
                   if decide (r.1.1 = q ∧ r.1.2 = d) then Some r.2 else None) rows)
      by (rewrite Ho; apply list_elem_of_here).
    apply list_elem_of_omap in Hs as ([[q' d'] s'] & Hin & Hs).
    simpl in Hs. destruct (decide (q' = q ∧ d' = d)) as [[-> ->]|]; [|done].
    by exists s'.
  - intros [s Hin] Hnil.
    assert (Hs : s ∈ omap (λ r : string * string * Score,
                   if decide (r.1.1 = q ∧ r.1.2 = d) then Some r.2 else None) rows).
    { apply list_elem_of_omap. exists (q, d, s). split; [done|].
      simpl. by rewrite decide_True. }
    rewrite Hnil in Hs. by apply elem_of_nil in Hs.
Qed.

(** X20.  The run [predict] returns.  The score filed under a (qid,
    docid) is the float16 of the score of the last row of the batches
    that carries this pair, a row being a position of a batch at which
    it has a qid, a docid and a score; a pair is in the run exactly when
    some row carries it.  So a pair scored more than once keeps its last
    score, and positions of a batch beyond its shortest list leave no
    trace. *)
Theorem predict_keeps_last_score (test : batch Features → list Score) batches :
  (∀ q d, score_of (predict to_float16 test batches) q d
          = to_float16 <$> last_score q d (scored_rows test batches)) ∧
  (∀ q d, is_Some (score_of (predict to_float16 test batches) q d)
          ↔ ∃ s, (q, d, s) ∈ scored_rows test batches).
Proof.
  assert (H : ∀ q d, score_of (predict to_float16 test batches) q d
                     = to_float16 <$> last_score q d (scored_rows test batches)).
  { intros q d. unfold predict. rewrite predict_from_rows, rows_last_score.
    destruct (last_score q d _); [done|].
    unfold score_of. by rewrite lookup_empty. }
  split; [exact H|].
  intros q d. rewrite H, fmap_is_Some. apply last_score_is_Some.
Qed.

End predict_facts.
